(** * Leases-Licensing: proposal workflow, requirement schedule and invoice ledger

    A shallow embedding of the parts of
    [leaseslicensing/components/proposals/models.py] and
    [leaseslicensing/components/invoicing/{models,api}.py] that govern
    approval issuance, referral completion, renewal periods, the compliance
    generator, the gross-turnover requirement reconciliation and the invoice
    ledger, followed by the properties established about them.

    Database tables are lists of rows; a model instance held by the Python
    code is a record value, written back to its table by [save].  Code that
    raises returns [Raise e]; [transaction.atomic] restores the tables on an
    exception. *)

From Stdlib Require Import ZArith List String Ascii Bool Lia.
Import ListNotations.
Local Open Scope string_scope.
Local Open Scope list_scope.
Local Open Scope Z_scope.

(* ====================================================================== *)
(** * Part I: the embedding *)
(* ====================================================================== *)

(** ** Exceptions and results *)

Inductive Exn : Type :=
| ValidationError (msg : string)
| SerializerValidationError (msgs : list string)
| ProposalNotAuthorized
| AttributeError
| TypeError
| KeyError
| ValueError
| OverflowError
| DoesNotExist
| MultipleObjectsReturned
| IntegrityError
| DataError.

Inductive result (A : Type) : Type :=
| Ok (a : A)
| Raise (e : Exn).
Arguments Ok {A} a.
Arguments Raise {A} e.

Definition rbind {A B : Type} (r : result A) (k : A -> result B) : result B :=
  match r with
  | Ok a => k a
  | Raise e => Raise e
  end.

Notation "x <-? r ;; k" := (rbind r (fun x => k))
  (at level 61, r at next level, right associativity).

(** ** Calendar dates ([datetime.date], [datetime.timedelta],
       [dateutil.relativedelta]) *)

Module Dates.

Record date : Type := mkDate { year : Z; month : Z; day : Z }.

Definition MINYEAR : Z := 1.
Definition MAXYEAR : Z := 9999.

Definition is_leap (y : Z) : bool :=
  (y mod 4 =? 0) && (negb (y mod 100 =? 0) || (y mod 400 =? 0)).

Definition days_in_month (y m : Z) : Z :=
  if m =? 2 then (if is_leap y then 29 else 28)
  else if (m =? 4) || (m =? 6) || (m =? 9) || (m =? 11) then 30
  else 31.

Definition valid (d : date) : bool :=
  (MINYEAR <=? year d) && (year d <=? MAXYEAR)
  && (1 <=? month d) && (month d <=? 12)
  && (1 <=? day d) && (day d <=? days_in_month (year d) (month d)).

(** [date.__lt__] and friends compare (year, month, day) lexicographically. *)
Definition ltb (a b : date) : bool :=
  (year a <? year b)
  || ((year a =? year b)
      && ((month a <? month b)
          || ((month a =? month b) && (day a <? day b)))).

Definition eqb (a b : date) : bool :=
  (year a =? year b) && (month a =? month b) && (day a =? day b).

Definition leb (a b : date) : bool := ltb a b || eqb a b.

(** Days before January 1st of year [y] (CPython [_days_before_year]). *)
Definition days_before_year (y : Z) : Z :=
  let y1 := y - 1 in
  y1 * 365 + y1 / 4 - y1 / 100 + y1 / 400.

(** Days in year [y] before the first day of month [m]
    (CPython [_days_before_month]). *)
Definition days_before_month (y m : Z) : Z :=
  fold_left (fun acc k => acc + days_in_month y k)
            (map Z.of_nat (seq 1 (Z.to_nat (m - 1)))) 0.

(** [date.toordinal]: January 1st of year 1 is day 1. *)
Definition toordinal (d : date) : Z :=
  days_before_year (year d) + days_before_month (year d) (month d) + day d.

Definition DI400Y : Z := 146097.
Definition DI100Y : Z := 36524.
Definition DI4Y : Z := 1461.

Definition MAXORDINAL : Z := 3652059.

(** CPython [_ord2ymd]. *)
Definition ord2ymd (n0 : Z) : date :=
  let n := n0 - 1 in
  let n400 := n / DI400Y in
  let n := n mod DI400Y in
  let n100 := n / DI100Y in
  let n := n mod DI100Y in
  let n4 := n / DI4Y in
  let n := n mod DI4Y in
  let n1 := n / 365 in
  let n := n mod 365 in
  let y := n400 * 400 + 1 + n100 * 100 + n4 * 4 + n1 in
  if (n1 =? 4) || (n100 =? 4) then mkDate (y - 1) 12 31
  else
    let leapyear := (n1 =? 3) && (negb (n4 =? 24) || (n100 =? 3)) in
    let m := Z.shiftr (n + 50) 5 in
    let preceding :=
      days_before_month 1 m + (if (2 <? m) && leapyear then 1 else 0) in
    if n <? preceding then
      let m' := m - 1 in
      let preceding' :=
        preceding
        - (days_in_month 1 m' + (if (m' =? 2) && leapyear then 1 else 0)) in
      mkDate y m' (n - preceding' + 1)
    else mkDate y m (n - preceding + 1).

(** [date.fromordinal]; out of range is the [OverflowError] of date
    arithmetic. *)
Definition fromordinal (n : Z) : result date :=
  if (1 <=? n) && (n <=? MAXORDINAL) then Ok (ord2ymd n) else Raise OverflowError.

(** [d + timedelta(days=n)]. *)
Definition add_days (d : date) (n : Z) : result date :=
  fromordinal (toordinal d + n).

(** [a - b] for two dates, as the number of days of the [timedelta]. *)
Definition sub_dates (a b : date) : Z := toordinal a - toordinal b.

(** [dateutil.relativedelta]: relative parts (plural keywords) and absolute
    parts (singular keywords, [None] when not given). *)
Record relativedelta : Type := mkDelta {
  rd_years : Z;
  rd_months : Z;
  rd_days : Z;
  rd_year : option Z;
  rd_month : option Z;
  rd_day : option Z
}.

Definition rd_zero : relativedelta := mkDelta 0 0 0 None None None.

(** The constructors used by the source. *)
Definition rd_weeks_kw (n : Z) : relativedelta := mkDelta 0 0 (7 * n) None None None.
Definition rd_years_kw (n : Z) : relativedelta := mkDelta n 0 0 None None None.
Definition rd_months_kw (n : Z) : relativedelta := mkDelta 0 n 0 None None None.
Definition rd_days_kw (n : Z) : relativedelta := mkDelta 0 0 n None None None.
(** [relativedelta(month=n)]: the ABSOLUTE month. *)
Definition rd_month_kw (n : Z) : relativedelta := mkDelta 0 0 0 None (Some n) None.
(** [relativedelta(day=n)]: the ABSOLUTE day. *)
Definition rd_day_kw (n : Z) : relativedelta := mkDelta 0 0 0 None None (Some n).

Definition or_else (o : option Z) (d : Z) : Z :=
  match o with Some v => v | None => d end.

(** [relativedelta.__radd__]: absolute parts replace, relative months are
    added with a year carry, the day is clamped to the month's length, and
    the days are added last. *)
Definition add_relativedelta (d : date) (r : relativedelta) : result date :=
  let y := or_else (rd_year r) (year d) + rd_years r in
  let m := or_else (rd_month r) (month d) in
  let '(y, m) :=
    if rd_months r =? 0 then (y, m)
    else
      let m := m + rd_months r in
      if 12 <? m then (y + 1, m - 12)
      else if m <? 1 then (y - 1, m + 12)
      else (y, m) in
  if (y <? MINYEAR) || (MAXYEAR <? y) then Raise ValueError
  else
    let dd := Z.min (days_in_month y m) (or_else (rd_day r) (day d)) in
    add_days (mkDate y m dd) (rd_days r).

(** *** [strftime("%Y-%m-%d")] and [strptime(_, "%Y-%m-%d")] *)

Definition digit_of (n : Z) : ascii := ascii_of_nat (48 + Z.to_nat (n mod 10)).

Definition pad2 (n : Z) : string :=
  String (digit_of (n / 10)) (String (digit_of n) EmptyString).

(** [%Y] as the C library writes it: the year as a decimal number, not
    padded (the years of a date run from 1 to 9999). *)
Definition year_text (y : Z) : string :=
  if y <? 10 then String (digit_of y) EmptyString
  else if y <? 100 then pad2 y
  else if y <? 1000 then String (digit_of (y / 100)) (pad2 y)
  else String (digit_of (y / 1000)) (String (digit_of (y / 100)) (pad2 y)).

(** [%m] and [%d] are written with two digits. *)
Definition strftime_ymd (d : date) : string :=
  (year_text (year d) ++ "-" ++ pad2 (month d) ++ "-" ++ pad2 (day d))%string.

Definition digit_val (c : ascii) : option Z :=
  let n := Z.of_nat (nat_of_ascii c) in
  if (48 <=? n) && (n <=? 57) then Some (n - 48) else None.

(** A character class of ASCII digits, [lo-hi]: the digit read and the rest
    of the string. *)
Definition class (lo hi : Z) (s : string) : option (Z * string) :=
  match s with
  | String c rest =>
      match digit_val c with
      | Some v => if (lo <=? v) && (v <=? hi) then Some (v, rest) else None
      | None => None
      end
  | EmptyString => None
  end.

(** A literal character. *)
Definition literal (ch : ascii) (s : string) : option string :=
  match s with
  | String c rest => if Ascii.eqb c ch then Some rest else None
  | EmptyString => None
  end.

(** The reader of the ASCII digits alone. *)
Definition ascii_digit (s : string) : option (Z * string) := class 0 9 s.

(** Alternation: the first alternative that lets the rest of the expression
    match. *)
Definition alt {R : Type} (a b : option R) : option R :=
  match a with
  | Some r => Some r
  | None => b
  end.

(** One character, and two characters read as a number, followed by the rest
    of the expression [k]. *)
Definition one {R : Type} (first : string -> option (Z * string))
    (k : Z -> string -> option R) (s : string) : option R :=
  match first s with
  | Some (a, s1) => k a s1
  | None => None
  end.

Definition two {R : Type} (first second : string -> option (Z * string))
    (k : Z -> string -> option R) (s : string) : option R :=
  one first (fun a => one second (fun b => k (10 * a + b))) s.

Definition dash {R : Type} (k : string -> option R) (s : string) : option R :=
  match literal "-" s with
  | Some s1 => k s1
  | None => None
  end.

Section Strptime.

(** In the regular expression of a directive, \d matches any Unicode decimal
    digit, and [int] reads them all; the table is the interpreter's.  Reading
    one such character at the front of a string gives its value and the rest
    of the string. *)
Variable decimal_digit : string -> option (Z * string).

(** [%Y]: \d\d\d\d. *)
Definition match_Y {R : Type} (k : Z -> string -> option R) (s : string)
  : option R :=
  two decimal_digit decimal_digit
      (fun hi => two decimal_digit decimal_digit (fun lo => k (100 * hi + lo))) s.

(** [%m]: 1[0-2]|0[1-9]|[1-9]. *)
Definition match_m {R : Type} (k : Z -> string -> option R) (s : string)
  : option R :=
  alt (two (class 1 1) (class 0 2) k s)
 (alt (two (class 0 0) (class 1 9) k s)
      (one (class 1 9) k s)).

(** [%d]: 3[0-1]|[1-2]\d|0[1-9]|[1-9]| [1-9]. *)
Definition match_d {R : Type} (k : Z -> string -> option R) (s : string)
  : option R :=
  alt (two (class 3 3) (class 0 1) k s)
 (alt (two (class 1 2) decimal_digit k s)
 (alt (two (class 0 0) (class 1 9) k s)
 (alt (one (class 1 9) k s)
      match literal " " s with
      | Some s1 => one (class 1 9) k s1
      | None => None
      end))).

(** The expression the format compiles to, matched at the start of the
    string: the three groups as numbers, and what is left of the string. *)
Definition match_ymd (s : string) : option (Z * Z * Z * string) :=
  match_Y (fun y =>
    dash (match_m (fun m =>
      dash (match_d (fun d rest => Some (y, m, d, rest)))))) s.

(** [datetime.strptime(s, "%Y-%m-%d")]: the string must match, nothing may
    be left, and the date must exist.  Anything else is a [ValueError]. *)
Definition strptime_ymd (s : string) : result date :=
  match match_ymd s with
  | Some (y, m, dd, EmptyString) =>
      let d := mkDate y m dd in
      if valid d then Ok d else Raise ValueError
  | Some (_, _, _, String _ _) => Raise ValueError
  | None => Raise ValueError
  end.

End Strptime.

(** A reader of decimal digits reads the ASCII digits as themselves. *)
Definition reads_ascii_digits (decimal_digit : string -> option (Z * string))
  : Prop :=
  forall (c : ascii) (rest : string) (v : Z),
    digit_val c = Some v -> decimal_digit (String c rest) = Some (v, rest).

End Dates.

(** ** Decimal numbers ([decimal.Decimal]) *)

Module Decimals.

(** A finite decimal: [coef * 10 ^ expo]. *)
Record Decimal : Type := mkDec { coef : Z; expo : Z }.

(** The value read from a [DecimalField(decimal_places=2)] column holding
    [c] hundredths. *)
Definition of_cents (c : Z) : Decimal := mkDec c (-2).

(** [Decimal("0.00")]. *)
Definition zero_00 : Decimal := of_cents 0.

(** The coefficient of [d] written at the smaller exponent [e]. *)
Definition coef_at (d : Decimal) (e : Z) : Z := coef d * 10 ^ (expo d - e).

Definition add (a b : Decimal) : Decimal :=
  let e := Z.min (expo a) (expo b) in
  mkDec (coef_at a e + coef_at b e) e.

Definition sub (a b : Decimal) : Decimal :=
  let e := Z.min (expo a) (expo b) in
  mkDec (coef_at a e - coef_at b e) e.

(** Numeric equality ([Decimal.__eq__]): [0.0 == 0.00]. *)
Definition eqb (a b : Decimal) : bool :=
  let e := Z.min (expo a) (expo b) in
  coef_at a e =? coef_at b e.

(** [n / d] rounded to the nearest integer, ties to even (the default
    context's ROUND_HALF_EVEN), for [0 < d]. *)
Definition round_half_even (n d : Z) : Z :=
  let q := n / d in
  let r := n mod d in
  if 2 * r <? d then q
  else if d <? 2 * r then q + 1
  else if Z.even q then q else q + 1.

(** [d.quantize(Decimal("0.01"))]. *)
Definition quantize_2dp (d : Decimal) : Decimal :=
  if -2 <=? expo d then mkDec (coef_at d (-2)) (-2)
  else mkDec (round_half_even (coef d) (10 ^ (-2 - expo d))) (-2).

End Decimals.

(** ** The invoice ledger ([invoicing/models.py], [invoicing/api.py]) *)

Module Invoicing.
Import Decimals.

Inductive InvoiceStatus : Type :=
| INVOICE_STATUS_UNPAID
| INVOICE_STATUS_PAID
| INVOICE_STATUS_VOID.

Definition status_eqb (a b : InvoiceStatus) : bool :=
  match a, b with
  | INVOICE_STATUS_UNPAID, INVOICE_STATUS_UNPAID
  | INVOICE_STATUS_PAID, INVOICE_STATUS_PAID
  | INVOICE_STATUS_VOID, INVOICE_STATUS_VOID => true
  | _, _ => false
  end.

(** A row of [Invoice].  [amount] is a nullable
    [DecimalField(max_digits=10, decimal_places=2)], held in hundredths;
    [status] is a nullable choice field.  [uuid] and [date_paid] are the
    columns the payment callback reads and writes. *)
Record Invoice : Type := mkInvoice {
  inv_id : Z;
  inv_uuid : string;
  inv_approval : Z;
  inv_status : option InvoiceStatus;
  inv_amount : option Z;
  inv_date_paid : option Z
}.

(** A row of [InvoiceTransaction]; [credit] and [debit] are non-null
    [DecimalField(max_digits=9, decimal_places=2)], in hundredths. *)
Record InvoiceTransaction : Type := mkTx {
  tx_id : Z;
  tx_invoice : Z;
  tx_credit : Z;
  tx_debit : Z
}.

Inductive Notification : Type :=
| InvoicePaidExternal (invoice : Z)
| InvoicePaidInternal (invoice : Z).

Record World : Type := mkWorld {
  invoices : list Invoice;
  transactions : list InvoiceTransaction;
  outbox : list Notification
}.

(** [self.transactions]: the rows whose foreign key is this invoice. *)
Definition transactions_of (inv : Invoice) (txs : list InvoiceTransaction)
  : list InvoiceTransaction :=
  filter (fun t => tx_invoice t =? inv_id inv) txs.

(** SQL [SUM]: [NULL] over no rows. *)
Definition sql_sum (l : list Z) : option Z :=
  match l with
  | [] => None
  | _ => Some (fold_right Z.add 0 l)
  end.

(** [Coalesce(Sum(...), Decimal("0.00"))]. *)
Definition coalesce_sum (l : list Z) : Decimal :=
  match sql_sum l with
  | Some c => of_cents c
  | None => zero_00
  end.

(** [Invoice.balance]. *)
Definition balance (inv : Invoice) (txs : list InvoiceTransaction)
  : result Decimal :=
  let credit := coalesce_sum (map tx_credit (transactions_of inv txs)) in
  let debit := coalesce_sum (map tx_debit (transactions_of inv txs)) in
  match inv_amount inv with
  | None => Raise TypeError
  | Some a => Ok (quantize_2dp (sub (add (of_cents a) credit) debit))
  end.

(** An HTTP response: the status code and what the body is made from. *)
Inductive Body : Type :=
| BodyEmpty
| BodyMessage (msg : string)
| BodyErrors
| BodyInvoice (inv : Invoice).

Record Response : Type := mkResponse { status_code : Z; body : Body }.

Definition HTTP_200_OK : Z := 200.
Definition HTTP_400_BAD_REQUEST : Z := 400.
Definition HTTP_404_NOT_FOUND : Z := 404.

(** [Invoice.objects.filter(id=pk)]. *)
Definition invoices_by_id (pk : Z) (l : list Invoice) : list Invoice :=
  filter (fun i => inv_id i =? pk) l.

(** [instance.save()] of an instance read from the table: its row is
    rewritten. *)
Definition save_invoice (inv : Invoice) (l : list Invoice) : list Invoice :=
  map (fun r => if inv_id r =? inv_id inv then inv else r) l.

(** The next value of the primary-key sequence. *)
Definition next_tx_id (txs : list InvoiceTransaction) : Z :=
  1 + fold_right Z.max 0 (map tx_id txs).

Definition set_status (inv : Invoice) (s : InvoiceStatus) : Invoice :=
  mkInvoice (inv_id inv) (inv_uuid inv) (inv_approval inv) (Some s)
            (inv_amount inv) (inv_date_paid inv).

Definition set_date_paid (inv : Invoice) (t : Z) : Invoice :=
  mkInvoice (inv_id inv) (inv_uuid inv) (inv_approval inv) (inv_status inv)
            (inv_amount inv) (Some t).

Section RecordTransaction.

(** The payload of the POST: the two values as sent, if any. *)
Variable Payload : Type.

(** [InvoiceTransactionSerializer] is declared in
    [invoicing/serializers.py]: [is_valid] either rejects the payload
    ([None]) or yields the credit and debit, in hundredths, that [save]
    writes to the two 2-decimal columns. *)
Variable serializer_validate : Payload -> option (Z * Z).

Record Request : Type := mkRequest {
  is_finance_officer : bool;
  data : Payload
}.

(** [InvoiceViewSet.record_transaction].  The method is not wrapped in a
    transaction: an exception leaves the rows written so far. *)
Definition record_transaction (request : Request) (pk : Z) (w : World)
  : result Response * World :=
  if negb (is_finance_officer request) then
    (Ok (mkResponse HTTP_200_OK
           (BodyMessage "You do not have permission to record an invoice transaction")),
     w)
  else
    match invoices_by_id pk (invoices w) with
    | [] => (Ok (mkResponse HTTP_404_NOT_FOUND BodyEmpty), w)
    | instance :: _ =>
        match serializer_validate (data request) with
        | None => (Ok (mkResponse HTTP_400_BAD_REQUEST BodyErrors), w)
        | Some (credit, debit) =>
            let invoice_transaction :=
              mkTx (next_tx_id (transactions w)) (inv_id instance) credit debit in
            let w1 :=
              mkWorld (invoices w)
                      (transactions w ++ [invoice_transaction]) (outbox w) in
            (* invoice_transaction.invoice: read through the foreign key *)
            match invoices_by_id (tx_invoice invoice_transaction) (invoices w1) with
            | [] => (Raise DoesNotExist, w1)
            | invoice :: _ =>
                match balance invoice (transactions w1) with
                | Raise e => (Raise e, w1)
                | Ok b =>
                    let w2 :=
                      if eqb zero_00 b then
                        mkWorld (save_invoice (set_status invoice INVOICE_STATUS_PAID)
                                              (invoices w1))
                                (transactions w1) (outbox w1)
                      else w1 in
                    (Ok (mkResponse HTTP_200_OK (BodyInvoice instance)), w2)
                end
            end
        end
    end.

End RecordTransaction.
Arguments mkRequest {Payload} _ _.
Arguments is_finance_officer {Payload} _.
Arguments data {Payload} _.
Arguments record_transaction {Payload} _ _ _ _.

(** Modelled from the spec: the notification sender ([invoicing/email.py],
    not part of the ledger) is fire-and-forget; a sent notification is not
    undone by a rollback. *)
Definition send_notification (n : Notification) (w : World) : World :=
  mkWorld (invoices w) (transactions w) (outbox w ++ [n]).

(** [@transaction.atomic]: on an exception the tables are restored. *)
Definition atomic {A : Type} (m : World -> result A * World) (w : World)
  : result A * World :=
  match m w with
  | (Ok a, w') => (Ok a, w')
  | (Raise e, w') => (Raise e, mkWorld (invoices w) (transactions w) (outbox w'))
  end.

(** [Invoice.objects.filter(uuid=uuid, status=...)]. *)
Definition invoices_by_uuid (uuid : string) (l : list Invoice) : list Invoice :=
  filter (fun i => String.eqb (inv_uuid i) uuid) l.

Definition is_unpaid (i : Invoice) : bool :=
  match inv_status i with
  | Some s => status_eqb s INVOICE_STATUS_UNPAID
  | None => false
  end.

(** [Invoice.objects.get(uuid=uuid)]. *)
Definition get_invoice_by_uuid (uuid : string) (l : list Invoice) : result Invoice :=
  match invoices_by_uuid uuid l with
  | [] => Raise DoesNotExist
  | [i] => Ok i
  | _ => Raise MultipleObjectsReturned
  end.

(** [PayInvoiceSuccessCallbackView.get]; [now] is [timezone.now()]. *)
Definition pay_invoice_success_get (now : Z) (uuid : string)
  : World -> result Response * World :=
  atomic (fun w =>
    if negb (String.eqb uuid "")
       && existsb is_unpaid (invoices_by_uuid uuid (invoices w))
    then
      match get_invoice_by_uuid uuid (invoices w) with
      | Raise e => (Raise e, w)
      | Ok invoice =>
          match inv_amount invoice with
          | None => (Raise IntegrityError, w)   (* debit is NOT NULL *)
          | Some amount =>
              (* debit has max_digits=9: below 10,000,000.00 *)
              if 1000000000 <=? Z.abs amount then (Raise DataError, w)
              else
              let t := mkTx (next_tx_id (transactions w)) (inv_id invoice) 0 amount in
              let invoice' :=
                set_date_paid (set_status invoice INVOICE_STATUS_PAID) now in
              let w1 :=
                mkWorld (save_invoice invoice' (invoices w))
                        (transactions w ++ [t]) (outbox w) in
              let w2 := send_notification (InvoicePaidExternal (inv_id invoice)) w1 in
              let w3 := send_notification (InvoicePaidInternal (inv_id invoice)) w2 in
              (Ok (mkResponse HTTP_200_OK BodyEmpty), w3)
          end
      end
    else (Ok (mkResponse HTTP_400_BAD_REQUEST BodyEmpty), w)).

(** *** Vocabulary of the ledger properties *)

Definition sum_cents (l : list Z) : Z := fold_right Z.add 0 l.

(** Total credit and debit recorded against an invoice, in hundredths. *)
Definition total_credit (inv : Invoice) (txs : list InvoiceTransaction) : Z :=
  sum_cents (map tx_credit (transactions_of inv txs)).
Definition total_debit (inv : Invoice) (txs : list InvoiceTransaction) : Z :=
  sum_cents (map tx_debit (transactions_of inv txs)).

(** The credits and the debits of the ledger that name invoice [pk], in
    hundredths: the sums the balance is stated with, read off the ledger row
    by row. *)
Fixpoint credits_of (pk : Z) (txs : list InvoiceTransaction) : Z :=
  match txs with
  | [] => 0
  | t :: rest =>
      (if tx_invoice t =? pk then tx_credit t else 0) + credits_of pk rest
  end.

Fixpoint debits_of (pk : Z) (txs : list InvoiceTransaction) : Z :=
  match txs with
  | [] => 0
  | t :: rest =>
      (if tx_invoice t =? pk then tx_debit t else 0) + debits_of pk rest
  end.

(** The world after a successful payment callback for [inv]. *)
Definition paid_world (now : Z) (inv : Invoice) (a : Z) (w : World) : World :=
  mkWorld
    (save_invoice (set_date_paid (set_status inv INVOICE_STATUS_PAID) now)
                  (invoices w))
    (transactions w ++ [mkTx (next_tx_id (transactions w)) (inv_id inv) 0 a])
    (outbox w ++ [InvoicePaidExternal (inv_id inv)]
              ++ [InvoicePaidInternal (inv_id inv)]).

(** A 2xx response. *)
Definition is_success (r : result Response) : bool :=
  match r with
  | Ok resp => (200 <=? status_code resp) && (status_code resp <? 300)
  | Raise _ => false
  end.

Definition status_code_of (r : result Response) : option Z :=
  match r with
  | Ok resp => Some (status_code resp)
  | Raise _ => None
  end.

(** A status is kept, or becomes paid. *)
Definition kept_or_paid (i i' : Invoice) : Prop :=
  inv_id i' = inv_id i
  /\ (inv_status i' = inv_status i \/ inv_status i' = Some INVOICE_STATUS_PAID).

End Invoicing.

(** ** Proposals ([proposals/models.py]) *)

Module Proposals.

(** Python truthiness of a nullable integer column ([0] is falsy) and of a
    nullable foreign key. *)
Definition truthy_int (o : option Z) : bool :=
  match o with
  | Some n => negb (n =? 0)
  | None => false
  end.

Definition truthy_obj {A : Type} (o : option A) : bool :=
  match o with
  | Some _ => true
  | None => false
  end.

(** [ProposalType.code] against the three codes the workflow names. *)
Inductive ProposalTypeCode : Type :=
| PROPOSAL_TYPE_NEW
| PROPOSAL_TYPE_RENEWAL
| PROPOSAL_TYPE_AMENDMENT
| PROPOSAL_TYPE_OTHER (code : string).

(** [ApplicationType.name] against the two names the workflow names. *)
Inductive ApplicationTypeName : Type :=
| APPLICATION_TYPE_REGISTRATION_OF_INTEREST
| APPLICATION_TYPE_LEASE_LICENCE
| APPLICATION_TYPE_OTHER (name : string).

Inductive ProcessingStatus : Type :=
| PROCESSING_STATUS_DRAFT
| PROCESSING_STATUS_AMENDMENT_REQUIRED
| PROCESSING_STATUS_WITH_ASSESSOR
| PROCESSING_STATUS_WITH_ASSESSOR_CONDITIONS
| PROCESSING_STATUS_WITH_APPROVER
| PROCESSING_STATUS_WITH_REFERRAL
| PROCESSING_STATUS_WITH_REFERRAL_CONDITIONS
| PROCESSING_STATUS_APPROVED_APPLICATION
| PROCESSING_STATUS_APPROVED_COMPETITIVE_PROCESS
| PROCESSING_STATUS_APPROVED_EDITING_INVOICING
| PROCESSING_STATUS_APPROVED
| PROCESSING_STATUS_DECLINED
| PROCESSING_STATUS_DISCARDED
| PROCESSING_STATUS_ON_HOLD
| PROCESSING_STATUS_WITH_QA_OFFICER.

Definition processing_status_eqb (a b : ProcessingStatus) : bool :=
  match a, b with
  | PROCESSING_STATUS_DRAFT, PROCESSING_STATUS_DRAFT
  | PROCESSING_STATUS_AMENDMENT_REQUIRED, PROCESSING_STATUS_AMENDMENT_REQUIRED
  | PROCESSING_STATUS_WITH_ASSESSOR, PROCESSING_STATUS_WITH_ASSESSOR
  | PROCESSING_STATUS_WITH_ASSESSOR_CONDITIONS, PROCESSING_STATUS_WITH_ASSESSOR_CONDITIONS
  | PROCESSING_STATUS_WITH_APPROVER, PROCESSING_STATUS_WITH_APPROVER
  | PROCESSING_STATUS_WITH_REFERRAL, PROCESSING_STATUS_WITH_REFERRAL
  | PROCESSING_STATUS_WITH_REFERRAL_CONDITIONS, PROCESSING_STATUS_WITH_REFERRAL_CONDITIONS
  | PROCESSING_STATUS_APPROVED_APPLICATION, PROCESSING_STATUS_APPROVED_APPLICATION
  | PROCESSING_STATUS_APPROVED_COMPETITIVE_PROCESS, PROCESSING_STATUS_APPROVED_COMPETITIVE_PROCESS
  | PROCESSING_STATUS_APPROVED_EDITING_INVOICING, PROCESSING_STATUS_APPROVED_EDITING_INVOICING
  | PROCESSING_STATUS_APPROVED, PROCESSING_STATUS_APPROVED
  | PROCESSING_STATUS_DECLINED, PROCESSING_STATUS_DECLINED
  | PROCESSING_STATUS_DISCARDED, PROCESSING_STATUS_DISCARDED
  | PROCESSING_STATUS_ON_HOLD, PROCESSING_STATUS_ON_HOLD
  | PROCESSING_STATUS_WITH_QA_OFFICER, PROCESSING_STATUS_WITH_QA_OFFICER => true
  | _, _ => false
  end.

(** A JSON value of the [proposed_issuance_approval] dictionary. *)
Inductive JValue : Type :=
| JNull
| JStr (s : string)
| JInt (n : Z)
| JTime (t : Z)
| JList (l : list Z).

(** A dictionary with string keys, in insertion order. *)
Definition Dict : Type := list (string * JValue).

(** [d.get(k)] / [d.get(k, None)]: a missing key reads as [None]. *)
Fixpoint dict_get (d : Dict) (k : string) : JValue :=
  match d with
  | [] => JNull
  | (k', v) :: d' => if String.eqb k' k then v else dict_get d' k
  end.

(** [d[k]]: a missing key is a [KeyError]. *)
Fixpoint dict_index (d : Dict) (k : string) : result JValue :=
  match d with
  | [] => Raise KeyError
  | (k', v) :: d' => if String.eqb k' k then Ok v else dict_index d' k
  end.

(** [d[k] = v]: an existing key keeps its place. *)
Fixpoint dict_set (d : Dict) (k : string) (v : JValue) : Dict :=
  match d with
  | [] => [(k, v)]
  | (k', v') :: d' =>
      if String.eqb k' k then (k, v) :: d' else (k', v') :: dict_set d' k v
  end.

(** Truthiness of a JSON value. *)
Definition truthy_json (v : JValue) : bool :=
  match v with
  | JNull => false
  | JStr s => negb (String.eqb s "")
  | JInt n => negb (n =? 0)
  | JTime t => negb (t =? 0)
  | JList l => match l with [] => false | _ => true end
  end.

(** A row of [Proposal] (the columns the modelled operations use). *)
Record Proposal : Type := mkProposal {
  id : Z;
  lodgement_number : string;
  proposal_type : option ProposalTypeCode;
  application_type : ApplicationTypeName;
  processing_status : ProcessingStatus;
  proposed_issuance_approval : option Dict;
  org_applicant : option Z;
  ind_applicant : option Z;
  proxy_applicant : option Z;
  submitter : option Z;
  approval : option Z;
  previous_application : option Z;
  generated_proposal : option Z;
  generated_competitive_process : option Z;
  invoicing_details : option Z;
  proposed_decline_status : bool;
  approved_by : option Z
}.

(** Field updates of a [Proposal] instance. *)
Definition set_id (r : Proposal) (v : Z) : Proposal :=
  mkProposal v (lodgement_number r) (proposal_type r) (application_type r)
    (processing_status r) (proposed_issuance_approval r) (org_applicant r)
    (ind_applicant r) (proxy_applicant r) (submitter r) (approval r)
    (previous_application r) (generated_proposal r)
    (generated_competitive_process r) (invoicing_details r)
    (proposed_decline_status r) (approved_by r).

Definition set_proposal_type (r : Proposal) (v : option ProposalTypeCode) : Proposal :=
  mkProposal (id r) (lodgement_number r) v (application_type r)
    (processing_status r) (proposed_issuance_approval r) (org_applicant r)
    (ind_applicant r) (proxy_applicant r) (submitter r) (approval r)
    (previous_application r) (generated_proposal r)
    (generated_competitive_process r) (invoicing_details r)
    (proposed_decline_status r) (approved_by r).

Definition set_processing_status (r : Proposal) (v : ProcessingStatus) : Proposal :=
  mkProposal (id r) (lodgement_number r) (proposal_type r)
    (application_type r) v (proposed_issuance_approval r) (org_applicant r)
    (ind_applicant r) (proxy_applicant r) (submitter r) (approval r)
    (previous_application r) (generated_proposal r)
    (generated_competitive_process r) (invoicing_details r)
    (proposed_decline_status r) (approved_by r).

Definition set_proposed_issuance_approval (r : Proposal) (v : option Dict) : Proposal :=
  mkProposal (id r) (lodgement_number r) (proposal_type r)
    (application_type r) (processing_status r) v (org_applicant r)
    (ind_applicant r) (proxy_applicant r) (submitter r) (approval r)
    (previous_application r) (generated_proposal r)
    (generated_competitive_process r) (invoicing_details r)
    (proposed_decline_status r) (approved_by r).

Definition set_approval (r : Proposal) (v : option Z) : Proposal :=
  mkProposal (id r) (lodgement_number r) (proposal_type r)
    (application_type r) (processing_status r)
    (proposed_issuance_approval r) (org_applicant r) (ind_applicant r)
    (proxy_applicant r) (submitter r) v (previous_application r)
    (generated_proposal r) (generated_competitive_process r)
    (invoicing_details r) (proposed_decline_status r) (approved_by r).

Definition set_generated_proposal (r : Proposal) (v : option Z) : Proposal :=
  mkProposal (id r) (lodgement_number r) (proposal_type r)
    (application_type r) (processing_status r)
    (proposed_issuance_approval r) (org_applicant r) (ind_applicant r)
    (proxy_applicant r) (submitter r) (approval r) (previous_application r)
    v (generated_competitive_process r) (invoicing_details r)
    (proposed_decline_status r) (approved_by r).

Definition set_generated_competitive_process (r : Proposal) (v : option Z) : Proposal :=
  mkProposal (id r) (lodgement_number r) (proposal_type r)
    (application_type r) (processing_status r)
    (proposed_issuance_approval r) (org_applicant r) (ind_applicant r)
    (proxy_applicant r) (submitter r) (approval r) (previous_application r)
    (generated_proposal r) v (invoicing_details r)
    (proposed_decline_status r) (approved_by r).

Definition set_invoicing_details (r : Proposal) (v : option Z) : Proposal :=
  mkProposal (id r) (lodgement_number r) (proposal_type r)
    (application_type r) (processing_status r)
    (proposed_issuance_approval r) (org_applicant r) (ind_applicant r)
    (proxy_applicant r) (submitter r) (approval r) (previous_application r)
    (generated_proposal r) (generated_competitive_process r) v
    (proposed_decline_status r) (approved_by r).

Definition set_proposed_decline_status (r : Proposal) (v : bool) : Proposal :=
  mkProposal (id r) (lodgement_number r) (proposal_type r)
    (application_type r) (processing_status r)
    (proposed_issuance_approval r) (org_applicant r) (ind_applicant r)
    (proxy_applicant r) (submitter r) (approval r) (previous_application r)
    (generated_proposal r) (generated_competitive_process r)
    (invoicing_details r) v (approved_by r).

Definition set_approved_by (r : Proposal) (v : option Z) : Proposal :=
  mkProposal (id r) (lodgement_number r) (proposal_type r)
    (application_type r) (processing_status r)
    (proposed_issuance_approval r) (org_applicant r) (ind_applicant r)
    (proxy_applicant r) (submitter r) (approval r) (previous_application r)
    (generated_proposal r) (generated_competitive_process r)
    (invoicing_details r) (proposed_decline_status r) v.

(** *** The other tables *)

Inductive ReferralStatus : Type :=
| REFERRAL_WITH_REFERRAL
| REFERRAL_RECALLED
| REFERRAL_COMPLETED.

Definition referral_status_eqb (a b : ReferralStatus) : bool :=
  match a, b with
  | REFERRAL_WITH_REFERRAL, REFERRAL_WITH_REFERRAL
  | REFERRAL_RECALLED, REFERRAL_RECALLED
  | REFERRAL_COMPLETED, REFERRAL_COMPLETED => true
  | _, _ => false
  end.

(** A row of [Referral]. *)
Record Referral : Type := mkReferral {
  ref_id : Z;
  ref_proposal : Z;
  ref_referral : Z;
  ref_sent_by : Z;
  ref_sent_from : Z;
  ref_processing_status : ReferralStatus;
  ref_document : option Z
}.

Definition set_ref_processing_status (r : Referral) (v : ReferralStatus) : Referral :=
  mkReferral (ref_id r) (ref_proposal r) (ref_referral r) (ref_sent_by r)
    (ref_sent_from r) v (ref_document r).

Definition set_ref_document (r : Referral) (v : option Z) : Referral :=
  mkReferral (ref_id r) (ref_proposal r) (ref_referral r) (ref_sent_by r)
    (ref_sent_from r) (ref_processing_status r) v.

Definition set_ref_sent_from (r : Referral) (v : Z) : Referral :=
  mkReferral (ref_id r) (ref_proposal r) (ref_referral r) (ref_sent_by r) v
    (ref_processing_status r) (ref_document r).

(** A row of [Approval] (declared in [approvals/models.py]; the columns the
    modelled operations read and write). *)
Record Approval : Type := mkApproval {
  ap_id : Z;
  ap_current_proposal : option Z;
  ap_issue_date : option Z;
  ap_start_date : option Dates.date;
  ap_expiry_date : option Dates.date;
  ap_status : option string;
  ap_approval_type : option Z;
  ap_record_management_number : JValue;
  ap_licence_document : option Z;
  ap_cover_letter_document : option Z;
  ap_sign_off_sheet_document : option Z
}.

Definition set_ap_issue_date (r : Approval) (v : option Z) : Approval :=
  mkApproval (ap_id r) (ap_current_proposal r) v (ap_start_date r)
    (ap_expiry_date r) (ap_status r) (ap_approval_type r)
    (ap_record_management_number r) (ap_licence_document r)
    (ap_cover_letter_document r) (ap_sign_off_sheet_document r).

Definition set_ap_start_date (r : Approval) (v : option Dates.date) : Approval :=
  mkApproval (ap_id r) (ap_current_proposal r) (ap_issue_date r) v
    (ap_expiry_date r) (ap_status r) (ap_approval_type r)
    (ap_record_management_number r) (ap_licence_document r)
    (ap_cover_letter_document r) (ap_sign_off_sheet_document r).

Definition set_ap_expiry_date (r : Approval) (v : option Dates.date) : Approval :=
  mkApproval (ap_id r) (ap_current_proposal r) (ap_issue_date r)
    (ap_start_date r) v (ap_status r) (ap_approval_type r)
    (ap_record_management_number r) (ap_licence_document r)
    (ap_cover_letter_document r) (ap_sign_off_sheet_document r).

Definition set_ap_approval_type (r : Approval) (v : option Z) : Approval :=
  mkApproval (ap_id r) (ap_current_proposal r) (ap_issue_date r)
    (ap_start_date r) (ap_expiry_date r) (ap_status r) v
    (ap_record_management_number r) (ap_licence_document r)
    (ap_cover_letter_document r) (ap_sign_off_sheet_document r).

Definition set_ap_record_management_number (r : Approval) (v : JValue) : Approval :=
  mkApproval (ap_id r) (ap_current_proposal r) (ap_issue_date r)
    (ap_start_date r) (ap_expiry_date r) (ap_status r) (ap_approval_type r)
    v (ap_licence_document r) (ap_cover_letter_document r)
    (ap_sign_off_sheet_document r).

Definition set_ap_current_proposal (r : Approval) (v : option Z) : Approval :=
  mkApproval (ap_id r) v (ap_issue_date r) (ap_start_date r)
    (ap_expiry_date r) (ap_status r) (ap_approval_type r)
    (ap_record_management_number r) (ap_licence_document r)
    (ap_cover_letter_document r) (ap_sign_off_sheet_document r).

Definition set_ap_status (r : Approval) (v : option string) : Approval :=
  mkApproval (ap_id r) (ap_current_proposal r) (ap_issue_date r)
    (ap_start_date r) (ap_expiry_date r) v (ap_approval_type r)
    (ap_record_management_number r) (ap_licence_document r)
    (ap_cover_letter_document r) (ap_sign_off_sheet_document r).

Definition set_ap_licence_document (r : Approval) (v : option Z) : Approval :=
  mkApproval (ap_id r) (ap_current_proposal r) (ap_issue_date r)
    (ap_start_date r) (ap_expiry_date r) (ap_status r) (ap_approval_type r)
    (ap_record_management_number r) v (ap_cover_letter_document r)
    (ap_sign_off_sheet_document r).

Definition set_ap_cover_letter_document (r : Approval) (v : option Z) : Approval :=
  mkApproval (ap_id r) (ap_current_proposal r) (ap_issue_date r)
    (ap_start_date r) (ap_expiry_date r) (ap_status r) (ap_approval_type r)
    (ap_record_management_number r) (ap_licence_document r) v
    (ap_sign_off_sheet_document r).

Definition set_ap_sign_off_sheet_document (r : Approval) (v : option Z) : Approval :=
  mkApproval (ap_id r) (ap_current_proposal r) (ap_issue_date r)
    (ap_start_date r) (ap_expiry_date r) (ap_status r) (ap_approval_type r)
    (ap_record_management_number r) (ap_licence_document r)
    (ap_cover_letter_document r) v.

(** A row of [ProposalStandardRequirement]; [code] is unique. *)
Record ProposalStandardRequirement : Type := mkStandardRequirement {
  sr_id : Z;
  sr_code : string;
  sr_gross_turnover_required : bool
}.

(** A row of [ProposalRequirement]. *)
Record ProposalRequirement : Type := mkRequirement {
  req_id : Z;
  req_proposal : Z;
  req_standard_requirement : option Z;
  req_free_requirement : option string;
  req_due_date : option Dates.date;
  req_reminder_date : option Dates.date;
  req_recurrence : bool;
  req_recurrence_pattern : Z;
  req_recurrence_schedule : option Z;
  req_copied_from : option Z;
  req_is_deleted : bool;
  req_copied_for_renewal : bool;
  req_require_due_date : bool;
  req_order : option Z
}.

Definition set_req_is_deleted (r : ProposalRequirement) (v : bool) : ProposalRequirement :=
  mkRequirement (req_id r) (req_proposal r) (req_standard_requirement r)
    (req_free_requirement r) (req_due_date r) (req_reminder_date r)
    (req_recurrence r) (req_recurrence_pattern r)
    (req_recurrence_schedule r) (req_copied_from r) v
    (req_copied_for_renewal r) (req_require_due_date r) (req_order r).

Definition set_req_due_date (r : ProposalRequirement) (v : option Dates.date) : ProposalRequirement :=
  mkRequirement (req_id r) (req_proposal r) (req_standard_requirement r)
    (req_free_requirement r) v (req_reminder_date r) (req_recurrence r)
    (req_recurrence_pattern r) (req_recurrence_schedule r)
    (req_copied_from r) (req_is_deleted r) (req_copied_for_renewal r)
    (req_require_due_date r) (req_order r).

Definition set_req_reminder_date (r : ProposalRequirement) (v : option Dates.date) : ProposalRequirement :=
  mkRequirement (req_id r) (req_proposal r) (req_standard_requirement r)
    (req_free_requirement r) (req_due_date r) v (req_recurrence r)
    (req_recurrence_pattern r) (req_recurrence_schedule r)
    (req_copied_from r) (req_is_deleted r) (req_copied_for_renewal r)
    (req_require_due_date r) (req_order r).

Definition set_req_recurrence (r : ProposalRequirement) (v : bool) : ProposalRequirement :=
  mkRequirement (req_id r) (req_proposal r) (req_standard_requirement r)
    (req_free_requirement r) (req_due_date r) (req_reminder_date r) v
    (req_recurrence_pattern r) (req_recurrence_schedule r)
    (req_copied_from r) (req_is_deleted r) (req_copied_for_renewal r)
    (req_require_due_date r) (req_order r).

Definition set_req_recurrence_pattern (r : ProposalRequirement) (v : Z) : ProposalRequirement :=
  mkRequirement (req_id r) (req_proposal r) (req_standard_requirement r)
    (req_free_requirement r) (req_due_date r) (req_reminder_date r)
    (req_recurrence r) v (req_recurrence_schedule r) (req_copied_from r)
    (req_is_deleted r) (req_copied_for_renewal r) (req_require_due_date r)
    (req_order r).

Definition set_req_recurrence_schedule (r : ProposalRequirement) (v : option Z) : ProposalRequirement :=
  mkRequirement (req_id r) (req_proposal r) (req_standard_requirement r)
    (req_free_requirement r) (req_due_date r) (req_reminder_date r)
    (req_recurrence r) (req_recurrence_pattern r) v (req_copied_from r)
    (req_is_deleted r) (req_copied_for_renewal r) (req_require_due_date r)
    (req_order r).

Definition set_req_order (r : ProposalRequirement) (v : option Z) : ProposalRequirement :=
  mkRequirement (req_id r) (req_proposal r) (req_standard_requirement r)
    (req_free_requirement r) (req_due_date r) (req_reminder_date r)
    (req_recurrence r) (req_recurrence_pattern r)
    (req_recurrence_schedule r) (req_copied_from r) (req_is_deleted r)
    (req_copied_for_renewal r) (req_require_due_date r) v.

Definition set_req_id (r : ProposalRequirement) (v : Z) : ProposalRequirement :=
  mkRequirement v (req_proposal r) (req_standard_requirement r)
    (req_free_requirement r) (req_due_date r) (req_reminder_date r)
    (req_recurrence r) (req_recurrence_pattern r)
    (req_recurrence_schedule r) (req_copied_from r) (req_is_deleted r)
    (req_copied_for_renewal r) (req_require_due_date r) (req_order r).

Definition set_req_proposal (r : ProposalRequirement) (v : Z) : ProposalRequirement :=
  mkRequirement (req_id r) v (req_standard_requirement r)
    (req_free_requirement r) (req_due_date r) (req_reminder_date r)
    (req_recurrence r) (req_recurrence_pattern r)
    (req_recurrence_schedule r) (req_copied_from r) (req_is_deleted r)
    (req_copied_for_renewal r) (req_require_due_date r) (req_order r).

Definition set_req_copied_from (r : ProposalRequirement) (v : option Z) : ProposalRequirement :=
  mkRequirement (req_id r) (req_proposal r) (req_standard_requirement r)
    (req_free_requirement r) (req_due_date r) (req_reminder_date r)
    (req_recurrence r) (req_recurrence_pattern r)
    (req_recurrence_schedule r) v (req_is_deleted r)
    (req_copied_for_renewal r) (req_require_due_date r) (req_order r).

Definition set_req_copied_for_renewal (r : ProposalRequirement) (v : bool) : ProposalRequirement :=
  mkRequirement (req_id r) (req_proposal r) (req_standard_requirement r)
    (req_free_requirement r) (req_due_date r) (req_reminder_date r)
    (req_recurrence r) (req_recurrence_pattern r)
    (req_recurrence_schedule r) (req_copied_from r) (req_is_deleted r) v
    (req_require_due_date r) (req_order r).

Definition set_req_require_due_date (r : ProposalRequirement) (v : bool) : ProposalRequirement :=
  mkRequirement (req_id r) (req_proposal r) (req_standard_requirement r)
    (req_free_requirement r) (req_due_date r) (req_reminder_date r)
    (req_recurrence r) (req_recurrence_pattern r)
    (req_recurrence_schedule r) (req_copied_from r) (req_is_deleted r)
    (req_copied_for_renewal r) v (req_order r).

Inductive ComplianceStatus : Type :=
| COMPLIANCE_FUTURE
| COMPLIANCE_DUE
| COMPLIANCE_OVERDUE
| COMPLIANCE_COMPLETED
| COMPLIANCE_DISCARDED.

(** A row of [Compliance] (declared in [compliances/models.py]). *)
Record Compliance : Type := mkCompliance {
  c_id : Z;
  c_proposal : Z;
  c_approval : Z;
  c_requirement : Z;
  c_due_date : Dates.date;
  c_processing_status : ComplianceStatus
}.

(** A row of [InvoicingDetails]: the keys of its charge method and invoicing
    repetition type, and its approval. *)
Record InvoicingDetails : Type := mkInvoicingDetails {
  idt_id : Z;
  idt_charge_method : option string;
  idt_invoicing_repetition_type : option string;
  idt_approval : option Z
}.

(** An argument of [template.format(...)]. *)
Inductive FormatArg : Type :=
| ArgZ (n : Z)
| ArgS (s : string).

(** A row of an action log ([ProposalUserAction.log_action] and its siblings):
    the logging model, the logged object, the user, and the action as its
    template and the arguments it is formatted with. *)
Record UserAction : Type := mkUserAction {
  ua_table : string;
  ua_object : Z;
  ua_who : Z;
  ua_what : string;
  ua_args : list FormatArg
}.

(** A row of [ApprovalTypeDocumentType]. *)
Record ApprovalTypeDocumentType : Type := mkDocumentType {
  dt_id : Z;
  dt_is_license_document : bool;
  dt_is_cover_letter : bool;
  dt_is_sign_off_sheet : bool
}.

(** A row of [LeaseLicenceApprovalDocument]. *)
Record LeaseLicenceApprovalDocument : Type := mkApprovalDocument {
  doc_id : Z;
  doc_proposal : Z;
  doc_approval_type : Z;
  doc_approval_type_document_type : Z
}.

(** A row of [ApprovalTypeDocumentTypeOnApprovalType]. *)
Record ApprovalTypeDocumentTypeOnApprovalType : Type := mkOnApprovalType {
  on_approval_type : Z;
  on_approval_type_document_type : Z;
  on_mandatory : bool
}.

(** A row of [ProposalApplicant]: the proposal it belongs to (the name and
    address columns are not modelled). *)
Record ProposalApplicant : Type := mkProposalApplicant {
  pa_id : Z;
  pa_proposal : option Z
}.

(** The tables. *)
Record DB : Type := mkDB {
  proposals : list Proposal;
  approvals : list Approval;
  referrals : list Referral;
  requirements : list ProposalRequirement;
  standard_requirements : list ProposalStandardRequirement;
  compliances : list Compliance;
  invoicing_details_rows : list InvoicingDetails;
  competitive_processes : list Z;
  user_actions : list UserAction;
  approval_documents : list LeaseLicenceApprovalDocument;
  document_types : list ApprovalTypeDocumentType;
  mandatory_document_types : list ApprovalTypeDocumentTypeOnApprovalType;
  approval_types : list Z;
  proposal_applicants : list ProposalApplicant
}.

Definition set_proposals (r : DB) (v : list Proposal) : DB :=
  mkDB v (approvals r) (referrals r) (requirements r)
    (standard_requirements r) (compliances r) (invoicing_details_rows r)
    (competitive_processes r) (user_actions r) (approval_documents r)
    (document_types r) (mandatory_document_types r) (approval_types r)
    (proposal_applicants r).

Definition set_approvals (r : DB) (v : list Approval) : DB :=
  mkDB (proposals r) v (referrals r) (requirements r)
    (standard_requirements r) (compliances r) (invoicing_details_rows r)
    (competitive_processes r) (user_actions r) (approval_documents r)
    (document_types r) (mandatory_document_types r) (approval_types r)
    (proposal_applicants r).

Definition set_referrals (r : DB) (v : list Referral) : DB :=
  mkDB (proposals r) (approvals r) v (requirements r)
    (standard_requirements r) (compliances r) (invoicing_details_rows r)
    (competitive_processes r) (user_actions r) (approval_documents r)
    (document_types r) (mandatory_document_types r) (approval_types r)
    (proposal_applicants r).

Definition set_requirements (r : DB) (v : list ProposalRequirement) : DB :=
  mkDB (proposals r) (approvals r) (referrals r) v (standard_requirements r)
    (compliances r) (invoicing_details_rows r) (competitive_processes r)
    (user_actions r) (approval_documents r) (document_types r)
    (mandatory_document_types r) (approval_types r) (proposal_applicants r).

Definition set_compliances (r : DB) (v : list Compliance) : DB :=
  mkDB (proposals r) (approvals r) (referrals r) (requirements r)
    (standard_requirements r) v (invoicing_details_rows r)
    (competitive_processes r) (user_actions r) (approval_documents r)
    (document_types r) (mandatory_document_types r) (approval_types r)
    (proposal_applicants r).

Definition set_invoicing_details_rows (r : DB) (v : list InvoicingDetails) : DB :=
  mkDB (proposals r) (approvals r) (referrals r) (requirements r)
    (standard_requirements r) (compliances r) v (competitive_processes r)
    (user_actions r) (approval_documents r) (document_types r)
    (mandatory_document_types r) (approval_types r) (proposal_applicants r).

Definition set_competitive_processes (r : DB) (v : list Z) : DB :=
  mkDB (proposals r) (approvals r) (referrals r) (requirements r)
    (standard_requirements r) (compliances r) (invoicing_details_rows r) v
    (user_actions r) (approval_documents r) (document_types r)
    (mandatory_document_types r) (approval_types r) (proposal_applicants r).

Definition set_user_actions (r : DB) (v : list UserAction) : DB :=
  mkDB (proposals r) (approvals r) (referrals r) (requirements r)
    (standard_requirements r) (compliances r) (invoicing_details_rows r)
    (competitive_processes r) v (approval_documents r) (document_types r)
    (mandatory_document_types r) (approval_types r) (proposal_applicants r).

Definition set_proposal_applicants (r : DB) (v : list ProposalApplicant) : DB :=
  mkDB (proposals r) (approvals r) (referrals r) (requirements r)
    (standard_requirements r) (compliances r) (invoicing_details_rows r)
    (competitive_processes r) (user_actions r) (approval_documents r)
    (document_types r) (mandatory_document_types r) (approval_types r) v.

(** *** The world: the tables and the notifications sent *)

Inductive Notification : Type :=
| ReferralCompleteEmail (referral : Z)
| PendingReferralsCompleteEmail (referral : Z)
| CompetitiveProcessCreateEmail (competitive_process : Z)
| ProposalApprovalEmail (proposal : Z)
| LicenseReadyForInvoicingEmail (proposal : Z)
| ProposalRoiApprovalEmail (proposal lease_licence : Z).

Record World : Type := mkWorld { db : DB; outbox : list Notification }.

(** A computation on the world that returns or raises. *)
Definition M (A : Type) : Type := World -> result A * World.

Definition ret {A : Type} (a : A) : M A := fun w => (Ok a, w).

Definition raise {A : Type} (e : Exn) : M A := fun w => (Raise e, w).

Definition bind {A B : Type} (m : M A) (k : A -> M B) : M B :=
  fun w =>
    match m w with
    | (Ok a, w') => k a w'
    | (Raise e, w') => (Raise e, w')
    end.

Notation "x <- m ;; k" := (bind m (fun x => k))
  (at level 61, m at next level, right associativity).
Notation "m ;;; k" := (bind m (fun _ => k))
  (at level 61, right associativity).

Definition lift {A : Type} (r : result A) : M A := fun w => (r, w).

Definition get_db : M DB := fun w => (Ok (db w), w).

Definition put_db (d : DB) : M unit := fun w => (Ok tt, mkWorld d (outbox w)).

Definition modify_db (f : DB -> DB) : M unit :=
  fun w => (Ok tt, mkWorld (f (db w)) (outbox w)).

(** Modelled from the spec: the notification sender (the [email] modules)
    is fire-and-forget; what was sent stays sent. *)
Definition send (n : Notification) : M unit :=
  fun w => (Ok tt, mkWorld (db w) (outbox w ++ [n])).

(** [transaction.atomic]: an exception restores the tables as they were on
    entry (to the savepoint, when nested) and propagates. *)
Definition atomic {A : Type} (m : M A) : M A :=
  fun w =>
    match m w with
    | (Ok a, w') => (Ok a, w')
    | (Raise e, w') => (Raise e, mkWorld (db w) (outbox w'))
    end.

(** [for x in l: body(x)]. *)
Fixpoint for_each {A : Type} (l : list A) (body : A -> M unit) : M unit :=
  match l with
  | [] => ret tt
  | x :: l' => body x ;;; for_each l' body
  end.

(** [Model.objects.get(...)] over the rows that match. *)
Definition get_one {A : Type} (matching : list A) : result A :=
  match matching with
  | [] => Raise DoesNotExist
  | [x] => Ok x
  | _ => Raise MultipleObjectsReturned
  end.

(** The next value of a primary-key sequence. *)
Definition next_id (ids : list Z) : Z := 1 + fold_right Z.max 0 ids.

(** [instance.save()]: the row with the instance's primary key is rewritten,
    or the instance is inserted. *)
Definition save_row {A : Type} (key : A -> Z) (x : A) (l : list A) : list A :=
  if existsb (fun r => key r =? key x) l
  then map (fun r => if key r =? key x then x else r) l
  else l ++ [x].

Definition save_proposal (p : Proposal) : M unit :=
  modify_db (fun d => set_proposals d (save_row id p (proposals d))).

Definition save_referral (r : Referral) : M unit :=
  modify_db (fun d => set_referrals d (save_row ref_id r (referrals d))).

Definition save_approval (a : Approval) : M unit :=
  modify_db (fun d => set_approvals d (save_row ap_id a (approvals d))).

Definition save_requirement (r : ProposalRequirement) : M unit :=
  modify_db (fun d => set_requirements d (save_row req_id r (requirements d))).

(** A request: the user; whether the identity provider lists the user in the
    proposal's assessor group and approver group; the ["referral_document"]
    entry of [request.data] (absent, ["null"], or the [ReferralDocument] row
    the document store resolves the name to); the clock. *)
Record Request : Type := mkRequest {
  user_id : Z;
  user_full_name : string;
  in_assessor_group : bool;
  in_approver_group : bool;
  referral_document : option (option Z);
  now : Z;
  today : Dates.date
}.

(** [ProposalUserAction.log_action(proposal, action, request.user.id)]. *)
Definition log_user_action (proposal : Z) (what : string) (args : list FormatArg)
    (request : Request) : M unit :=
  modify_db (fun d =>
    set_user_actions d
      (user_actions d
       ++ [mkUserAction "ProposalUserAction" proposal (user_id request) what args])).

(** *** Applicant accessors *)

Definition APPLICANT_TYPE_ORGANISATION : string := "ORG".
Definition APPLICANT_TYPE_INDIVIDUAL : string := "IND".
Definition APPLICANT_TYPE_PROXY : string := "PRX".
Definition APPLICANT_TYPE_SUBMITTER : string := "SUB".

(** What an accessor hands back: the organisation row, a
    [ProposalApplicant] row (by its primary key), the ledger user looked up
    from an id ([retrieve_email_user]), or a plain string. *)
Inductive ApplicantValue : Type :=
| OrganisationObj (org : Z)
| ProposalApplicantObj (pk : Z)
| EmailUserObj (user : option Z)
| PlainString (s : string).

(** [Proposal.relevant_applicant]. *)
Definition relevant_applicant (self : Proposal) : ApplicantValue :=
  if truthy_int (ind_applicant self) then EmailUserObj (ind_applicant self)
  else match org_applicant self with
       | Some org => OrganisationObj org
       | None =>
           if truthy_int (proxy_applicant self)
           then EmailUserObj (proxy_applicant self)
           else EmailUserObj (submitter self)
       end.

(** The rows [ProposalApplicant.objects.filter(proposal=self)] selects. *)
Definition applicant_rows (d : DB) (self : Proposal) : list ProposalApplicant :=
  filter (fun a => match pa_proposal a with
                   | Some q => q =? id self
                   | None => false
                   end)
         (proposal_applicants d).

(** [Proposal.proposal_applicant]:
    [ProposalApplicant.objects.get(proposal=self)]. *)
Definition proposal_applicant (d : DB) (self : Proposal) : result ProposalApplicant :=
  get_one (applicant_rows d self).

(** [Proposal.applicant]. *)
Definition applicant (d : DB) (self : Proposal) : result ApplicantValue :=
  match org_applicant self with
  | Some org => Ok (OrganisationObj org)
  | None =>
      if truthy_int (ind_applicant self) then
        a <-? proposal_applicant d self ;;
        Ok (ProposalApplicantObj (pa_id a))
      else if truthy_int (proxy_applicant self)
           then Ok (EmailUserObj (proxy_applicant self))
           else Ok (PlainString "No Applicant")
  end.

(** [Proposal.applicant_type]. *)
Definition applicant_type (self : Proposal) : string :=
  if truthy_obj (org_applicant self) then APPLICANT_TYPE_ORGANISATION
  else if truthy_int (ind_applicant self) then APPLICANT_TYPE_INDIVIDUAL
  else if truthy_int (proxy_applicant self) then APPLICANT_TYPE_PROXY
  else APPLICANT_TYPE_SUBMITTER.

(** [Proposal.applicant_field]. *)
Definition applicant_field (self : Proposal) : string :=
  if truthy_obj (org_applicant self) then "org_applicant"
  else if truthy_int (ind_applicant self) then "ind_applicant"
  else if truthy_int (proxy_applicant self) then "proxy_applicant"
  else "submitter".

(** *** The stated precedence: organisation > individual > proxy > submitter *)

Inductive ApplicantKind : Type :=
| ByOrganisation | ByIndividual | ByProxy | BySubmitter.

Definition precedence (self : Proposal) : ApplicantKind :=
  if truthy_obj (org_applicant self) then ByOrganisation
  else if truthy_int (ind_applicant self) then ByIndividual
  else if truthy_int (proxy_applicant self) then ByProxy
  else BySubmitter.

(** The ledger user or organisation the precedence designates. *)
Definition designated_party (self : Proposal) (k : ApplicantKind) : ApplicantValue :=
  match k with
  | ByOrganisation =>
      match org_applicant self with
      | Some org => OrganisationObj org
      | None => PlainString ""
      end
  | ByIndividual => EmailUserObj (ind_applicant self)
  | ByProxy => EmailUserObj (proxy_applicant self)
  | BySubmitter => EmailUserObj (submitter self)
  end.

Definition type_of_kind (k : ApplicantKind) : string :=
  match k with
  | ByOrganisation => APPLICANT_TYPE_ORGANISATION
  | ByIndividual => APPLICANT_TYPE_INDIVIDUAL
  | ByProxy => APPLICANT_TYPE_PROXY
  | BySubmitter => APPLICANT_TYPE_SUBMITTER
  end.

(** *** Referrals *)

Definition CONCLUDE_REFERRAL : string := "CONCLUDE_REFERRAL".
Definition ACTION_REFERRAL_DOCUMENT : string := "ACTION_REFERRAL_DOCUMENT".

(** [referral.proposal]: the row behind the foreign key. *)
Definition get_proposal (pk : Z) : M Proposal :=
  d <- get_db ;;
  lift (get_one (filter (fun p => id p =? pk) (proposals d))).

Section ReferralCompletion.

(** [Organisation], [BaseApplicant] and the ledger's [EmailUser] are declared
    outside these sources: whether such an object offers [log_user_action]. *)
Variable has_log_user_action : ApplicantValue -> bool.

(** [obj.log_user_action(action, request)] on what an applicant accessor
    returned; a [str] has no such attribute. *)
Definition applicant_log_user_action (a : ApplicantValue) (what : string)
    (args : list FormatArg) (request : Request) : M unit :=
  match a with
  | PlainString _ => raise AttributeError
  | OrganisationObj org =>
      if has_log_user_action a then
        modify_db (fun d =>
          set_user_actions d
            (user_actions d
             ++ [mkUserAction "OrganisationAction" org (user_id request) what args]))
      else raise AttributeError
  | _ => if has_log_user_action a then ret tt else raise AttributeError
  end.

(** [getattr(proposal, proposal.applicant_field).log_user_action(...)]: the
    attribute is the organisation row or a bare integer (or [None]). *)
Definition applicant_field_log_user_action (p : Proposal) (what : string)
    (args : list FormatArg) (request : Request) : M unit :=
  match org_applicant p with
  | Some org => applicant_log_user_action (OrganisationObj org) what args request
  | None => raise AttributeError
  end.

(** [Referral.add_referral_document]. *)
Definition add_referral_document (request : Request) (self : Referral) : M Referral :=
  atomic (
    match referral_document request with
    | None => ret self
    | Some doc =>
        (* document = the ReferralDocument row; self.document = d / None *)
        let self := set_ref_document self doc in
        save_referral self ;;;
        p <- get_proposal (ref_proposal self) ;;
        log_user_action (id p) ACTION_REFERRAL_DOCUMENT
                        [ArgZ (ref_id self)] request ;;;
        applicant_field_log_user_action p ACTION_REFERRAL_DOCUMENT
                                        [ArgZ (ref_id self)] request ;;;
        ret self
    end).

(** Whether a referral of the proposal is still pending:
    [Referral.objects.filter(proposal=..., processing_status=WITH_REFERRAL)
    .exists()]. *)
Definition pending_referral_exists (proposal : Z) (d : DB) : bool :=
  existsb (fun r => (ref_proposal r =? proposal)
                    && referral_status_eqb (ref_processing_status r)
                                           REFERRAL_WITH_REFERRAL)
          (referrals d).

(** [Referral.complete]. *)
Definition complete (request : Request) (self : Referral) : M unit :=
  atomic (
    let self := set_ref_processing_status self REFERRAL_COMPLETED in
    self <- add_referral_document request self ;;
    save_referral self ;;;
    p <- get_proposal (ref_proposal self) ;;
    log_user_action (id p) CONCLUDE_REFERRAL
      [ArgS (user_full_name request); ArgZ (ref_id self); ArgS (lodgement_number p)]
      request ;;;
    d <- get_db ;;
    a <- lift (applicant d p) ;;
    applicant_log_user_action a CONCLUDE_REFERRAL
      [ArgS (user_full_name request); ArgZ (ref_id self); ArgS (lodgement_number p)]
      request ;;;
    send (ReferralCompleteEmail (ref_id self)) ;;;
    d <- get_db ;;
    if negb (pending_referral_exists (id p) d) then
      let p :=
        if ref_sent_from self =? 1
        then set_processing_status p PROCESSING_STATUS_WITH_ASSESSOR
        else set_processing_status p PROCESSING_STATUS_WITH_APPROVER in
      save_proposal p ;;;
      send (PendingReferralsCompleteEmail (ref_id self))
    else ret tt).

End ReferralCompletion.

(** A pending referral of the same proposal other than [r]. *)
Definition other_pending (r : Referral) (d : DB) : Prop :=
  exists r2, In r2 (referrals d)
             /\ ref_id r2 <> ref_id r
             /\ ref_proposal r2 = ref_proposal r
             /\ ref_processing_status r2 = REFERRAL_WITH_REFERRAL.

(** *** Requirements: saving *)

Definition truthy_string (o : option string) : bool :=
  match o with
  | Some str => negb (String.eqb str "")
  | None => false
  end.

(** SQL [MAX(req_order)] over the requirements of a proposal: [NULL] when
    there is no non-null value. *)
Definition max_req_order (proposal : Z) (l : list ProposalRequirement) : option Z :=
  fold_right
    (fun r acc =>
       if req_proposal r =? proposal then
         match req_order r, acc with
         | Some o, Some m => Some (Z.max o m)
         | Some o, None => Some o
         | None, _ => acc
         end
       else acc)
    None l.

(** [ProposalRequirement.save] of an instance without a primary key: the
    order is set to one more than the proposal's maximum (1 when there is
    none, or it is zero); a requirement with neither a free nor a standard
    requirement is refused; the row is inserted under a fresh key. *)
Definition insert_requirement (r : ProposalRequirement) : M ProposalRequirement :=
  d <- get_db ;;
  let order :=
    match max_req_order (req_proposal r) (requirements d) with
    | None => 1
    | Some m => if m =? 0 then 1 else m + 1
    end in
  let r := set_req_order r (Some order) in
  if negb (truthy_string (req_free_requirement r))
     && negb (truthy_obj (req_standard_requirement r))
  then raise ValueError
  else
    let r := set_req_id r (next_id (map req_id (requirements d))) in
    modify_db (fun d => set_requirements d (requirements d ++ [r])) ;;;
    ret r.

(** *** Requirements: ordering *)

(** Insertion into a list ordered by [req_order], [NULL] last (the model's
    [ordering]). *)
Definition order_leb (a b : ProposalRequirement) : bool :=
  match req_order a, req_order b with
  | Some x, Some y => x <=? y
  | Some _, None => true
  | None, Some _ => false
  | None, None => true
  end.

Fixpoint insert_by_order (r : ProposalRequirement) (l : list ProposalRequirement)
  : list ProposalRequirement :=
  match l with
  | [] => [r]
  | x :: l' => if order_leb r x then r :: l else x :: insert_by_order r l'
  end.

Definition sort_by_order (l : list ProposalRequirement) : list ProposalRequirement :=
  fold_right insert_by_order [] l.

(** *** Renewal *)

Definition PROPOSAL_RENEWAL_PENDING : string :=
  "A renewal/ amendment for this licence has already been lodged and is awaiting review.".
Definition ACTION_RENEW_PROPOSAL : string := "ACTION_RENEW_PROPOSAL".
Definition ACTION_RENEW_APPROVAL : string := "ACTION_RENEW_APPROVAL".

(** The argument of [strptime] must be a [str]. *)
Definition json_str (v : JValue) : result string :=
  match v with
  | JStr str => Ok str
  | _ => Raise TypeError
  end.

(** [renew_approval], the block that pre-populates the renewal's
    [proposed_issuance_approval] from the previous proposal's. *)
Definition renewal_proposed_issuance (decimal_digit : string -> option (Z * string))
    (previous : option Dict) : result Dict :=
  match previous with
  | None => Raise AttributeError
  | Some d =>
      let proposed_issuance := d in
      let proposed_issuance := dict_set proposed_issuance "details" JNull in
      let proposed_issuance := dict_set proposed_issuance "approved_on" JNull in
      let proposed_issuance := dict_set proposed_issuance "approved_by" JNull in
      sv <-? dict_index proposed_issuance "start_date" ;;
      ss <-? json_str sv ;;
      original_start_date <-? Dates.strptime_ymd decimal_digit ss ;;
      ev <-? dict_index proposed_issuance "expiry_date" ;;
      es <-? json_str ev ;;
      original_expiry_date <-? Dates.strptime_ymd decimal_digit es ;;
      new_start <-? Dates.add_days original_expiry_date 1 ;;
      let proposed_issuance :=
        dict_set proposed_issuance "start_date"
                 (JStr (Dates.strftime_ymd new_start)) in
      new_expiry <-? Dates.add_days original_expiry_date
                       (Dates.sub_dates original_expiry_date original_start_date) ;;
      let proposed_issuance :=
        dict_set proposed_issuance "expiry_date"
                 (JStr (Dates.strftime_ymd new_expiry)) in
      Ok proposed_issuance
  end.

Section Cloning.

(** The lodgement number [LicensingModel.save] gives a new row (declared in
    [main/models.py]). *)
Variable make_lodgement_number : Z -> string.

(** Whether an object declared outside these sources offers
    [log_user_action]. *)
Variable has_log_user_action : ApplicantValue -> bool.

(** The interpreter's reader of one Unicode decimal digit ([Dates]). *)
Variable decimal_digit : string -> option (Z * string).

(** [Proposal.objects.create(...)]: the other columns take their defaults
    (the status is the first choice, draft). *)
Definition create_proposal (application_type : ApplicationTypeName)
    (proposal_type : option ProposalTypeCode)
    (ind_applicant org_applicant submitter previous_application approval : option Z)
  : M Proposal :=
  d <- get_db ;;
  let pk := next_id (map id (proposals d)) in
  let p := mkProposal pk (make_lodgement_number pk) proposal_type application_type
             PROCESSING_STATUS_DRAFT None org_applicant ind_applicant None
             submitter approval previous_application None None None false None in
  save_proposal p ;;;
  ret p.

(** [ProposalApplicant.objects.get(proposal=original)
    .copy_self_to_proposal(target)]. *)
Definition copy_applicant_to_proposal (original target : Z) : M unit :=
  d <- get_db ;;
  _ <- lift (get_one (filter (fun a => match pa_proposal a with
                                       | Some q => q =? original
                                       | None => false
                                       end)
                             (proposal_applicants d))) ;;
  modify_db (fun d =>
    set_proposal_applicants d
      (proposal_applicants d
       ++ [mkProposalApplicant (next_id (map pa_id (proposal_applicants d)))
                               (Some target)])).

(** [clone_proposal_with_status_reset]. *)
Definition clone_proposal_with_status_reset (original_proposal : Proposal) : M Proposal :=
  cloned_proposal <-
    create_proposal APPLICATION_TYPE_LEASE_LICENCE None
      (ind_applicant original_proposal) (org_applicant original_proposal) None
      (Some (id original_proposal)) (approval original_proposal) ;;
  (if negb (truthy_obj (org_applicant original_proposal))
   then copy_applicant_to_proposal (id original_proposal) (id cloned_proposal)
   else ret tt) ;;;
  ret cloned_proposal.

(** The renewal's copy of a requirement. *)
Definition renewal_copy (r : ProposalRequirement) (proposal : Z) : ProposalRequirement :=
  let new_r := set_req_proposal r proposal in
  let new_r := set_req_copied_from new_r (Some (req_id r)) in
  let new_r := set_req_copied_for_renewal new_r true in
  match req_due_date new_r with
  | Some _ => set_req_require_due_date (set_req_due_date new_r None) true
  | None => new_r
  end.

(** [Proposal.renew_approval].  The geometry, document, site-name, group and
    GIS rows it copies live in tables outside the model. *)
Definition renew_approval (request : Request) (self : Proposal) : M Proposal :=
  atomic (
    d <- get_db ;;
    match get_one (filter (fun q =>
                     match previous_application q with
                     | Some prev =>
                         (prev =? id self)
                         && processing_status_eqb (processing_status q)
                                                  PROCESSING_STATUS_WITH_ASSESSOR
                     | None => false
                     end) (proposals d)) with
    | Ok _ => raise (ValidationError PROPOSAL_RENEWAL_PENDING)
    | Raise DoesNotExist =>
        previous_proposal <- get_proposal (id self) ;;
        proposal <- clone_proposal_with_status_reset previous_proposal ;;
        let proposal := set_proposal_type proposal (Some PROPOSAL_TYPE_RENEWAL) in
        proposed_issuance <-
          lift (renewal_proposed_issuance decimal_digit
                  (proposed_issuance_approval previous_proposal)) ;;
        let proposal := set_proposed_issuance_approval proposal (Some proposed_issuance) in
        (* copy_site_name: proposalTo.save() *)
        save_proposal proposal ;;;
        d <- get_db ;;
        (* self.requirements.all().exclude(is_deleted=True), in the
           model's ordering *)
        for_each (sort_by_order
                    (filter (fun r => (req_proposal r =? id self)
                                      && negb (req_is_deleted r))
                            (requirements d)))
                 (fun r => _ <- insert_requirement (renewal_copy r (id proposal)) ;;
                           ret tt) ;;;
        log_user_action (id self) ACTION_RENEW_PROPOSAL [ArgZ (id self)] request ;;;
        (match org_applicant self with
         | Some org =>
             if has_log_user_action (OrganisationObj org) then
               modify_db (fun d =>
                 set_user_actions d
                   (user_actions d
                    ++ [mkUserAction "OrganisationAction" org (user_id request)
                                     ACTION_RENEW_PROPOSAL [ArgZ (id self)]]))
             else raise AttributeError
         | None => ret tt
         end) ;;;
        match approval self with
        | None => raise AttributeError
        | Some ap =>
            modify_db (fun d =>
              set_user_actions d
                (user_actions d
                 ++ [mkUserAction "ApprovalUserAction" ap (user_id request)
                                  ACTION_RENEW_APPROVAL [ArgZ ap]])) ;;;
            save_proposal proposal ;;;
            ret proposal
        end
    | Raise e => raise e
    end).

End Cloning.

(** *** The compliance generator *)

Definition ACTION_CREATE_COMPLIANCE : string := "ACTION_CREATE".

(** [Compliance.objects.get(requirement=req, due_date=d)], and when there is
    none [Compliance.objects.create(...)] followed by the action log. *)
Definition get_or_create_compliance (self approval : Z) (req : ProposalRequirement)
    (due_date : Dates.date) (request : Request) : M unit :=
  d <- get_db ;;
  match get_one (filter (fun c => (c_requirement c =? req_id req)
                                  && Dates.eqb (c_due_date c) due_date)
                        (compliances d)) with
  | Ok _ => ret tt
  | Raise DoesNotExist =>
      let pk := next_id (map c_id (compliances d)) in
      modify_db (fun d =>
        set_compliances d
          (compliances d
           ++ [mkCompliance pk self approval (req_id req) due_date COMPLIANCE_FUTURE])) ;;;
      modify_db (fun d =>
        set_user_actions d
          (user_actions d
           ++ [mkUserAction "ComplianceUserAction" pk (user_id request)
                            ACTION_CREATE_COMPLIANCE [ArgZ pk]]))
  | Raise e => raise e
  end.

(** One pass of the body of [for x in range(req.recurrence_schedule)]. *)
Definition advance_once (recurrence_pattern : Z) (current_date : Dates.date)
  : result Dates.date :=
  if recurrence_pattern =? 1 then
    Dates.add_relativedelta current_date (Dates.rd_weeks_kw 1)
  else if recurrence_pattern =? 2 then
    Dates.add_relativedelta current_date (Dates.rd_month_kw 1)
  else if recurrence_pattern =? 3 then
    Dates.add_relativedelta current_date (Dates.rd_years_kw 1)
  else Ok current_date.

Fixpoint advance_times (n : nat) (recurrence_pattern : Z) (current_date : Dates.date)
  : result Dates.date :=
  match n with
  | O => Ok current_date
  | S n' =>
      next <-? advance_once recurrence_pattern current_date ;;
      advance_times n' recurrence_pattern next
  end.

(** [for x in range(req.recurrence_schedule): ...]; [range(None)] is a
    [TypeError], a range up to zero or less is empty. *)
Definition advance_schedule (req : ProposalRequirement) (current_date : Dates.date)
  : result Dates.date :=
  match req_recurrence_schedule req with
  | None => Raise TypeError
  | Some n => advance_times (Z.to_nat n) (req_recurrence_pattern req) current_date
  end.

(** [while current_date < approval.expiry_date: ...], run for at most [fuel]
    iterations: [None] when the loop has not left by then. *)
Fixpoint recurrence_loop (fuel : nat) (self approval : Z) (expiry_date : Dates.date)
    (req : ProposalRequirement) (request : Request) (current_date : Dates.date)
    (w : World) : option (result unit * World) :=
  if negb (Dates.ltb current_date expiry_date) then Some (Ok tt, w)
  else
    match fuel with
    | O => None
    | S fuel' =>
        match advance_schedule req current_date with
        | Raise e => Some (Raise e, w)
        | Ok current_date =>
            match (if Dates.leb current_date expiry_date
                   then get_or_create_compliance self approval req current_date
                                                 request w
                   else (Ok tt, w)) with
            | (Raise e, w') => Some (Raise e, w')
            | (Ok _, w') =>
                recurrence_loop fuel' self approval expiry_date req request
                                current_date w'
            end
        end
    end.

(** The body of [for req in requirements]. *)
Definition generate_for_requirement (fuel : nat) (self : Z) (approval : Approval)
    (req : ProposalRequirement) (request : Request) (w : World)
  : option (result unit * World) :=
  match req_due_date req with
  | Some due_date =>
      if Dates.leb (today request) due_date then
        let current_date := due_date in
        match get_or_create_compliance self (ap_id approval) req current_date
                                       request w with
        | (Raise e, w') => Some (Raise e, w')
        | (Ok _, w') =>
            if req_recurrence req then
              match ap_expiry_date approval with
              | None => Some (Raise TypeError, w')
              | Some expiry_date =>
                  recurrence_loop fuel self (ap_id approval) expiry_date req
                                  request current_date w'
              end
            else Some (Ok tt, w')
        end
      else Some (Ok tt, w)
  | None => Some (Ok tt, w)
  end.

Fixpoint generate_for_requirements (fuel : nat) (self : Z) (approval : Approval)
    (reqs : list ProposalRequirement) (request : Request) (w : World)
  : option (result unit * World) :=
  match reqs with
  | [] => Some (Ok tt, w)
  | req :: reqs' =>
      match generate_for_requirement fuel self approval req request w with
      | None => None
      | Some (Raise e, w') => Some (Raise e, w')
      | Some (Ok _, w') =>
          generate_for_requirements fuel self approval reqs' request w'
      end
  end.

(** Whether a requirement's standard requirement (if any) is a
    gross-turnover one. *)
Definition gross_turnover_required (d : DB) (r : ProposalRequirement) : bool :=
  match req_standard_requirement r with
  | Some sr =>
      existsb (fun x => (sr_id x =? sr) && sr_gross_turnover_required x)
              (standard_requirements d)
  | None => false
  end.

Section ComplianceGeneration.

(** [generate_gross_turnover_compliances] enumerates the financial years,
    quarters and months with helpers of [invoicing/utils.py]. *)
Variable generate_gross_turnover_compliances : Z -> M unit.

(** [Proposal.generate_compliances].  The block for amendments is guarded by
    [self.proposal_type == PROPOSAL_TYPE_AMENDMENT], a [ProposalType] row
    compared with a string, which is never true. *)
Definition generate_compliances (fuel : nat) (self : Proposal) (approval : Approval)
    (request : Request) (w : World) : option (result unit * World) :=
  let d := db w in
  let requirements_ :=
    sort_by_order
      (filter (fun r => (req_proposal r =? id self)
                        && negb (req_is_deleted r)
                        && negb (gross_turnover_required d r))
              (requirements d)) in
  match generate_for_requirements fuel (id self) approval requirements_ request w with
  | None => None
  | Some (Raise e, w') => Some (Raise e, w')
  | Some (Ok _, w') => Some (generate_gross_turnover_compliances (id self) w')
  end.

End ComplianceGeneration.

(** [ProposalRequirement.get_next_due_date]: the same stepping as the loop of
    [generate_compliances]. *)
Definition get_next_due_date (self : ProposalRequirement) (due_date : Dates.date)
  : result Dates.date :=
  match req_recurrence_schedule self with
  | None => Raise TypeError
  | Some n => advance_times (Z.to_nat n) (req_recurrence_pattern self) due_date
  end.

(** The compliances recorded for a requirement and a due date. *)
Definition compliances_for (req : Z) (due_date : Dates.date) (d : DB) : list Compliance :=
  filter (fun c => (c_requirement c =? req) && Dates.eqb (c_due_date c) due_date)
         (compliances d).

(** The same day in January of the same year. *)
Definition january_of (d : Dates.date) : Dates.date :=
  Dates.mkDate (Dates.year d) 1 (Dates.day d).

(** A requirement the generator cannot get past. *)
Definition blocks (req : ProposalRequirement) (approval : Approval)
    (request : Request) : Prop :=
  req_recurrence req = true
  /\ req_recurrence_pattern req <> 1 /\ req_recurrence_pattern req <> 3
  /\ exists due expiry,
       req_due_date req = Some due /\ Dates.valid due = true
       /\ Dates.leb (today request) due = true
       /\ ap_expiry_date approval = Some expiry
       /\ Dates.ltb due expiry = true.

(** *** Scenario: a requirement recurring monthly *)

Module MonthlyScenario.

Definition expiry : Dates.date := Dates.mkDate 2025 3 15.
Definition due : Dates.date := Dates.mkDate 2024 3 15.
Definition january : Dates.date := Dates.mkDate 2024 1 15.

Definition proposal : Proposal :=
  mkProposal 9 "A000009" (Some PROPOSAL_TYPE_NEW) APPLICATION_TYPE_LEASE_LICENCE
    PROCESSING_STATUS_WITH_APPROVER None (Some 40) None None (Some 303)
    (Some 3) None None None None false None.

Definition the_approval : Approval :=
  mkApproval 3 (Some 9) (Some 1709250000) (Some (Dates.mkDate 2024 3 1))
    (Some expiry) (Some "current") (Some 1) JNull None None None.

(** Due on 2024-03-15, recurring every month. *)
Definition requirement : ProposalRequirement :=
  mkRequirement 21 9 None (Some "Provide monthly visitor numbers") (Some due) None
    true 2 (Some 1) None false false false (Some 1).

Definition request : Request :=
  mkRequest 501 "A. Approver" false true None 1709250000 (Dates.mkDate 2024 3 1).

Definition world0 : World :=
  mkWorld (mkDB [proposal] [the_approval] [] [requirement] [] [] [] [] [] [] [] []
                [1] [])
          [].

(** After the first compliance (due 2024-03-15) is created. *)
Definition world1 : World :=
  snd (get_or_create_compliance 9 3 requirement due request world0).

(** After the compliance for 2024-01-15 is created. *)
Definition world2 : World :=
  snd (get_or_create_compliance 9 3 requirement january request world1).

(** The same requirement recurring every year, and every week. *)
Definition yearly_requirement : ProposalRequirement :=
  set_req_recurrence_pattern requirement 3.
Definition weekly_requirement : ProposalRequirement :=
  set_req_recurrence_pattern requirement 1.

End MonthlyScenario.

(** The constraint [unique requirement order per proposal] of
    [ProposalRequirement.Meta]: no two rows of a proposal carry the same
    non-null [req_order]. *)
Definition same_req_order (x y : ProposalRequirement) : bool :=
  (req_proposal x =? req_proposal y)
  && match req_order x, req_order y with
     | Some a, Some b => a =? b
     | _, _ => false
     end.

Fixpoint unique_req_order (l : list ProposalRequirement) : bool :=
  match l with
  | [] => true
  | x :: l' => negb (existsb (same_req_order x) l') && unique_req_order l'
  end.

(** *** Scenario: the renewal of a licence held by an individual *)

Module RenewalScenario.

(** Approved for 2024-01-01 to 2024-12-31, under approval 3. *)
Definition proposal : Proposal :=
  mkProposal 7 "A000007" (Some PROPOSAL_TYPE_NEW) APPLICATION_TYPE_LEASE_LICENCE
    PROCESSING_STATUS_APPROVED
    (Some [("details", JStr "Jetty licence"); ("start_date", JStr "2024-01-01");
           ("expiry_date", JStr "2024-12-31")])
    None (Some 301) None (Some 301) (Some 3) None None None None false None.

(** Three requirements of the proposal, stored out of order, one of them
    deleted; and a requirement of another proposal. *)
Definition requirements_ : list ProposalRequirement :=
  [mkRequirement 31 7 None (Some "Maintain the jetty") None None false 1 None None
                 false false false (Some 2);
   mkRequirement 32 7 (Some 5) None (Some (Dates.mkDate 2024 6 30)) None false 1
                 None None false false false (Some 1);
   mkRequirement 33 7 (Some 6) None None None false 1 None None
                 true false false (Some 3);
   mkRequirement 34 6 (Some 5) None None None false 1 None None
                 false false false (Some 1)].

Definition request : Request :=
  mkRequest 301 "A. Holder" false false None 1730419200 (Dates.mkDate 2024 11 1).

Definition world0 : World :=
  mkWorld (mkDB [proposal] [] [] requirements_ [] [] [] [] [] [] [] [] []
                [mkProposalApplicant 4 (Some 7)]) [].

(** The renewed period. *)
Definition renewed : Dict :=
  [("details", JNull); ("start_date", JStr "2025-01-01");
   ("expiry_date", JStr "2025-12-31"); ("approved_on", JNull);
   ("approved_by", JNull)].

End RenewalScenario.

(** *** Scenario: a referral of a proposal without applicant *)

Module OrphanScenario.

(** Lodged by user 303; no organisation, individual or proxy applicant. *)
Definition proposal : Proposal :=
  mkProposal 12 "A000012" (Some PROPOSAL_TYPE_NEW) APPLICATION_TYPE_LEASE_LICENCE
    PROCESSING_STATUS_WITH_REFERRAL None None None None (Some 303)
    None None None None None false None.

Definition referral : Referral :=
  mkReferral 5 12 77 501 1 REFERRAL_WITH_REFERRAL None.

Definition request : Request :=
  mkRequest 77 "R. Referee" false false None 1709250000 (Dates.mkDate 2024 3 1).

Definition world0 : World :=
  mkWorld (mkDB [proposal] [] [referral] [] [] [] [] [] [] [] [] [] [] []) [].

End OrphanScenario.

(** *** Gross-turnover requirements *)

(** [obj.attr] where [obj] may be [None]. *)
Definition attr {A B : Type} (o : option A) (f : A -> B) : result B :=
  match o with
  | Some a => Ok (f a)
  | None => Raise AttributeError
  end.

(** Reading a nullable foreign key: [None], or the row it names. *)
Definition follow {A : Type} (key : A -> Z) (rows : list A) (fk : option Z)
  : result (option A) :=
  match fk with
  | None => Ok None
  | Some pk =>
      r <-? get_one (filter (fun x => key x =? pk) rows) ;;
      Ok (Some r)
  end.

(** [filter(proposal=p)] where [p] is a row or [None]; [None] asks for the
    rows whose (non-null) column is null. *)
Definition proposal_is (p : option Proposal) (r : ProposalRequirement) : bool :=
  match p with
  | Some p => req_proposal r =? id p
  | None => false
  end.

(** [filter(standard_requirement=sr)]. *)
Definition standard_is (sr : Z) (r : ProposalRequirement) : bool :=
  match req_standard_requirement r with
  | Some s => s =? sr
  | None => false
  end.

(** [filter(standard_requirement__code__in=codes)]. *)
Definition standard_code_in (codes : list string) (d : DB)
    (r : ProposalRequirement) : bool :=
  match req_standard_requirement r with
  | Some sr =>
      existsb (fun x => (sr_id x =? sr)
                        && existsb (String.eqb (sr_code x)) codes)
              (standard_requirements d)
  | None => false
  end.

(** [queryset.update(is_deleted=True)] over the rows selected. *)
Definition soft_delete (selected : DB -> ProposalRequirement -> bool) : M unit :=
  modify_db (fun d =>
    set_requirements d
      (map (fun r => if selected d r then set_req_is_deleted r true else r)
           (requirements d))).

(** [ProposalStandardRequirement.objects.get(code=code)]. *)
Definition get_standard_requirement (code : string)
  : M ProposalStandardRequirement :=
  d <- get_db ;;
  lift (get_one (filter (fun x => String.eqb (sr_code x) code)
                        (standard_requirements d))).

(** A [ProposalRequirement] made from the keyword arguments [proposal] and
    [standard_requirement] (and [is_deleted=False]): the other fields at
    their defaults. *)
Definition new_requirement (proposal standard_requirement : Z)
  : ProposalRequirement :=
  mkRequirement 0 proposal (Some standard_requirement) None None None
    false 1 None None false false false None.

(** [ProposalRequirement.objects.get_or_create(...)]: the one row that
    matches, or a new row saved; with whether it was created. *)
Definition get_or_create_requirement (matching : ProposalRequirement -> bool)
    (fresh : ProposalRequirement) : M (ProposalRequirement * bool) :=
  d <- get_db ;;
  match get_one (filter matching (requirements d)) with
  | Ok r => ret (r, false)
  | Raise DoesNotExist => r <- insert_requirement fresh ;; ret (r, true)
  | Raise e => raise e
  end.

(** [ProposalRequirement.save] of an instance read from the table. *)
Definition save_fetched_requirement (r : ProposalRequirement) : M unit :=
  d <- get_db ;;
  let r :=
    if req_id r =? 0 then
      set_req_order r
        (Some match max_req_order (req_proposal r) (requirements d) with
              | None => 1
              | Some m => if m =? 0 then 1 else m + 1
              end)
    else r in
  if negb (truthy_string (req_free_requirement r))
     && negb (truthy_obj (req_standard_requirement r))
  then raise ValueError
  else save_requirement r.

(** [date.replace(month=m)] and [date.replace(day=n)]. *)
Definition replace_month (d : Dates.date) (m : Z) : result Dates.date :=
  let d' := Dates.mkDate (Dates.year d) m (Dates.day d) in
  if Dates.valid d' then Ok d' else Raise ValueError.

Definition replace_day (d : Dates.date) (n : Z) : result Dates.date :=
  let d' := Dates.mkDate (Dates.year d) (Dates.month d) n in
  if Dates.valid d' then Ok d' else Raise ValueError.

Section GrossTurnover.

(** Keys and codes of [settings.py]. *)
Variable CHARGE_METHOD_PERCENTAGE_OF_GROSS_TURNOVER_IN_ADVANCE : string.
Variable CHARGE_METHOD_PERCENTAGE_OF_GROSS_TURNOVER_IN_ARREARS : string.
Variable REPETITION_TYPE_QUARTERLY : string.
Variable REPETITION_TYPE_MONTHLY : string.
Variable INVOICING_PERCENTAGE_GROSS_TURNOVER_ANNUALLY : string.
Variable INVOICING_PERCENTAGE_GROSS_TURNOVER_QUARTERLY : string.
Variable INVOICING_PERCENTAGE_GROSS_TURNOVER_MONTHLY : string.

(** [invoicing_utils.end_of_next_financial_year] ([invoicing/utils.py]),
    applied to the nullable [start_date]. *)
Variable end_of_next_financial_year : option Dates.date -> result Dates.date.

(** [invoicing_details.approval.current_proposal]. *)
Definition current_proposal_of (invoicing_details_ : InvoicingDetails)
  : M (option Proposal) :=
  d <- get_db ;;
  approval_ <- lift (follow ap_id (approvals d) (idt_approval invoicing_details_)) ;;
  current <- lift (attr approval_ ap_current_proposal) ;;
  lift (follow id (proposals d) current).

(** The block both repetition types share: the standard requirement of the
    code is looked up, the proposal's requirement for it is got or created,
    and a requirement that was there is saved with [is_deleted = False]. *)
Definition ensure_requirement (self : Proposal) (code : string) : M unit :=
  turnover_requirement <- get_standard_requirement code ;;
  rc <- get_or_create_requirement
          (fun r => (req_proposal r =? id self)
                    && standard_is (sr_id turnover_requirement) r)
          (new_requirement (id self) (sr_id turnover_requirement)) ;;
  if negb (snd rc)
  then save_fetched_requirement (set_req_is_deleted (fst rc) false)
  else ret tt.

(** The last block, from [end_of_first_financial_year = ...] on.
    [invoicing_details.proposal] is the instance the invoicing details were
    read from (the reverse side of the one-to-one field is cached when the
    forward side is read). *)
Definition ensure_annual_requirement (self : Proposal) : M unit :=
  d <- get_db ;;
  approval_ <- lift (follow ap_id (approvals d) (approval self)) ;;
  start_date <- lift (attr approval_ ap_start_date) ;;
  end_of_first_financial_year <- lift (end_of_next_financial_year start_date) ;;
  october <- lift (replace_month end_of_first_financial_year 10) ;;
  first_annual_due_date <- lift (replace_day october 31) ;;
  annual_turnover_requirement <-
    get_standard_requirement INVOICING_PERCENTAGE_GROSS_TURNOVER_ANNUALLY ;;
  rc <- get_or_create_requirement
          (fun r => (req_proposal r =? id self)
                    && standard_is (sr_id annual_turnover_requirement) r
                    && negb (req_is_deleted r))
          (new_requirement (id self) (sr_id annual_turnover_requirement)) ;;
  reminder_date <-
    lift (Dates.add_relativedelta end_of_first_financial_year (Dates.rd_days_kw 1)) ;;
  save_fetched_requirement
    (set_req_recurrence_schedule
       (set_req_recurrence_pattern
          (set_req_recurrence
             (set_req_reminder_date
                (set_req_due_date (fst rc) (Some first_annual_due_date))
                (Some reminder_date))
             true)
          3)
       (Some 1)).

(** [Proposal.update_gross_turnover_requirements].  The method is not wrapped
    in a transaction. *)
Definition update_gross_turnover_requirements (self : Proposal) : M unit :=
  d <- get_db ;;
  invoicing_details_ <-
    lift (follow idt_id (invoicing_details_rows d) (invoicing_details self)) ;;
  charge_method <- lift (attr invoicing_details_ idt_charge_method) ;;
  key <- lift (attr charge_method (fun k => k)) ;;
  match invoicing_details_ with
  | None => raise AttributeError
  | Some invoicing_details_ =>
      if negb (existsb (String.eqb key)
                 [CHARGE_METHOD_PERCENTAGE_OF_GROSS_TURNOVER_IN_ADVANCE;
                  CHARGE_METHOD_PERCENTAGE_OF_GROSS_TURNOVER_IN_ARREARS])
      then
        current_proposal <- current_proposal_of invoicing_details_ ;;
        soft_delete (fun d r => gross_turnover_required d r
                                && proposal_is current_proposal r)
      else
        (if String.eqb key CHARGE_METHOD_PERCENTAGE_OF_GROSS_TURNOVER_IN_ADVANCE
         then
           (* no [proposal=] in this filter *)
           soft_delete
             (standard_code_in [INVOICING_PERCENTAGE_GROSS_TURNOVER_MONTHLY;
                                INVOICING_PERCENTAGE_GROSS_TURNOVER_QUARTERLY])
         else ret tt) ;;;
        (if String.eqb key CHARGE_METHOD_PERCENTAGE_OF_GROSS_TURNOVER_IN_ARREARS
         then
           repetition_type <-
             lift (attr (idt_invoicing_repetition_type invoicing_details_)
                        (fun k => k)) ;;
           if String.eqb repetition_type REPETITION_TYPE_QUARTERLY then
             current_proposal <- current_proposal_of invoicing_details_ ;;
             soft_delete
               (fun d r =>
                  standard_code_in [INVOICING_PERCENTAGE_GROSS_TURNOVER_MONTHLY] d r
                  && proposal_is current_proposal r
                  && negb (req_is_deleted r)) ;;;
             ensure_requirement self INVOICING_PERCENTAGE_GROSS_TURNOVER_QUARTERLY
           else if String.eqb repetition_type REPETITION_TYPE_MONTHLY then
             current_proposal <- current_proposal_of invoicing_details_ ;;
             soft_delete
               (fun d r =>
                  standard_code_in [INVOICING_PERCENTAGE_GROSS_TURNOVER_QUARTERLY] d r
                  && proposal_is current_proposal r
                  && negb (req_is_deleted r)) ;;;
             ensure_requirement self INVOICING_PERCENTAGE_GROSS_TURNOVER_MONTHLY
           else ret tt
         else ret tt) ;;;
        ensure_annual_requirement self
  end.

End GrossTurnover.

(** The tables other than the requirements, and the notifications. *)
Definition same_but_requirements (w w' : World) : Prop :=
  set_requirements (db w') [] = set_requirements (db w) []
  /\ outbox w' = outbox w.

(** The primary keys of the requirements, in table order. *)
Definition requirement_ids (w : World) : list Z :=
  map req_id (requirements (db w)).

(** No table but the requirements is touched, nothing is sent, and the
    requirements keep their primary keys in place: rows are rewritten or
    appended, never removed. *)
Definition requirements_kept (w w' : World) : Prop :=
  same_but_requirements w w'
  /\ exists extra, requirement_ids w' = requirement_ids w ++ extra.

(** A computation that keeps the requirements, however it ends. *)
Definition keeps_requirements {A : Type} (m : M A) : Prop :=
  forall w, requirements_kept w (snd (m w)).

(** *** Scenario: two approvals charged on gross turnover *)

Module TurnoverScenario.

(** Stands in for [end_of_next_financial_year]: the 30 June that follows. *)
Definition end_of_june (start_date : option Dates.date) : result Dates.date :=
  match start_date with
  | None => Raise TypeError
  | Some d =>
      Ok (Dates.mkDate (if Dates.month d <=? 6 then Dates.year d
                        else Dates.year d + 1) 6 30)
  end.

Definition annually : ProposalStandardRequirement :=
  mkStandardRequirement 1 "gross_turnover_annually" true.
Definition quarterly : ProposalStandardRequirement :=
  mkStandardRequirement 2 "gross_turnover_quarterly" true.
Definition monthly : ProposalStandardRequirement :=
  mkStandardRequirement 3 "gross_turnover_monthly" true.

(** Proposal 9 (approval 3, invoicing details 40) and proposal 10
    (approval 4, invoicing details 41). *)
Definition proposal (pk approval_ invoicing_details_ : Z) : Proposal :=
  mkProposal pk "A" (Some PROPOSAL_TYPE_NEW) APPLICATION_TYPE_LEASE_LICENCE
    PROCESSING_STATUS_APPROVED None (Some 70) None None (Some 303)
    (Some approval_) None None None (Some invoicing_details_) false None.

Definition the_approval (pk proposal_ : Z) : Approval :=
  mkApproval pk (Some proposal_) (Some 1709250000)
    (Some (Dates.mkDate 2024 3 1)) (Some (Dates.mkDate 2029 2 28))
    (Some "current") (Some 1) JNull None None None.

(** The monthly statement of proposal 10, and the quarterly one of
    proposal 9. *)
Definition monthly_of_10 : ProposalRequirement :=
  mkRequirement 31 10 (Some 3) None (Some (Dates.mkDate 2024 4 30)) None
    true 2 (Some 1) None false false false (Some 1).
Definition quarterly_of_9 : ProposalRequirement :=
  mkRequirement 32 9 (Some 2) None (Some (Dates.mkDate 2024 7 30)) None
    true 2 (Some 3) None false false false (Some 1).

(** Proposal 9 is charged as [charge_method] and [repetition_type] say;
    proposal 10 in arrears, monthly. *)
Definition world (charge_method repetition_type : string) : World :=
  mkWorld
    (mkDB [proposal 9 3 40; proposal 10 4 41]
          [the_approval 3 9; the_approval 4 10]
          []
          [monthly_of_10; quarterly_of_9]
          [annually; quarterly; monthly]
          []
          [mkInvoicingDetails 40 (Some charge_method) (Some repetition_type) (Some 3);
           mkInvoicingDetails 41 (Some "arrears") (Some "monthly") (Some 4)]
          [] [] [] [] [] [1] [])
    [].

Definition update (self : Proposal) : M unit :=
  update_gross_turnover_requirements "advance" "arrears" "quarterly" "monthly"
    "gross_turnover_annually" "gross_turnover_quarterly" "gross_turnover_monthly"
    end_of_june self.

End TurnoverScenario.

(** Primary keys as the database keeps them: unique and non-zero for the
    requirements, unique for the standard requirements. *)
Definition well_keyed (w : World) : Prop :=
  NoDup (requirement_ids w)
  /\ ~ In 0 (requirement_ids w)
  /\ NoDup (map sr_id (standard_requirements (db w))).

(** The fields the last block of [update_gross_turnover_requirements] sets
    on the annual requirement. *)
Definition with_annual_fields (r : ProposalRequirement)
    (due_date reminder_date : Dates.date) : ProposalRequirement :=
  set_req_recurrence_schedule
    (set_req_recurrence_pattern
       (set_req_recurrence
          (set_req_reminder_date (set_req_due_date r (Some due_date))
                                 (Some reminder_date))
          true)
       3)
    (Some 1).

(** Every requirement a filter selects is already soft-deleted. *)
Definition settled (selected : DB -> ProposalRequirement -> bool) (w : World)
  : Prop :=
  forall r, In r (requirements (db w)) -> selected (db w) r = true ->
            req_is_deleted r = true.

End Proposals.

(* ====================================================================== *)
(** * Part II: properties *)
(* ====================================================================== *)

(** ** Calendar arithmetic *)

Module DateFacts.

Lemma days_before_year_split (y : Z) :
  1 <= y ->
  exists a b c e,
    0 <= a /\ 0 <= b < 4 /\ 0 <= c < 25 /\ 0 <= e < 4
    /\ y - 1 = 400 * a + 100 * b + 4 * c + e
    /\ Dates.days_before_year y = 146097 * a + 36524 * b + 1461 * c + 365 * e.
Proof.
  intros Hy. unfold Dates.days_before_year.
  exists ((y - 1) / 400), ((y - 1) mod 400 / 100),
         ((y - 1) mod 100 / 4), ((y - 1) mod 4).
  cbv zeta.
  Z.to_euclidean_division_equations. lia.
Qed.

(** Leap years in terms of the split of [y - 1]. *)
Lemma is_leap_split (a b c e : Z) :
  0 <= a -> 0 <= b < 4 -> 0 <= c < 25 -> 0 <= e < 4 ->
  Dates.is_leap (400 * a + 100 * b + 4 * c + e + 1)
  = (e =? 3) && (negb (c =? 24) || (b =? 3)).
Proof.
  intros Ha Hb Hc He. unfold Dates.is_leap.
  set (y := 400 * a + 100 * b + 4 * c + e + 1).
  assert (M4 : (y mod 4 =? 0) = (e =? 3)).
  { destruct (Z.eqb_spec e 3); [apply Z.eqb_eq | apply Z.eqb_neq];
      unfold y; Z.to_euclidean_division_equations; lia. }
  rewrite M4. destruct (Z.eqb_spec e 3) as [E|E]; [|reflexivity]. cbn [andb].
  assert (M100 : (y mod 100 =? 0) = (c =? 24)).
  { destruct (Z.eqb_spec c 24); [apply Z.eqb_eq | apply Z.eqb_neq];
      unfold y; Z.to_euclidean_division_equations; lia. }
  rewrite M100. destruct (Z.eqb_spec c 24) as [C|C]; [|reflexivity]. cbn [negb orb].
  destruct (Z.eqb_spec b 3); [apply Z.eqb_eq | apply Z.eqb_neq];
    unfold y; Z.to_euclidean_division_equations; lia.
Qed.

Lemma days_before_month_cases (y m : Z) :
  1 <= m <= 12 ->
  Dates.days_before_month y m
  = (if m =? 1 then 0 else if m =? 2 then 31 else
     (if Dates.is_leap y then 1 else 0) +
     (if m =? 3 then 59 else if m =? 4 then 90 else if m =? 5 then 120
      else if m =? 6 then 151 else if m =? 7 then 181 else if m =? 8 then 212
      else if m =? 9 then 243 else if m =? 10 then 273 else if m =? 11 then 304
      else 334)).
Proof.
  intros Hm.
  assert (H : m = 1 \/ m = 2 \/ m = 3 \/ m = 4 \/ m = 5 \/ m = 6 \/ m = 7 \/ m = 8
              \/ m = 9 \/ m = 10 \/ m = 11 \/ m = 12) by lia.
  unfold Dates.days_before_month, Dates.days_in_month.
  repeat (destruct H as [->|H]); try subst m; cbn; destruct (Dates.is_leap y); reflexivity.
Qed.

(** The tail of [_ord2ymd]: the month and day for the offset [k] in a year. *)
Lemma ord2ymd_offset (a b c e k : Z) :
  0 <= a -> 0 <= b < 4 -> 0 <= c < 25 -> 0 <= e < 4 -> 0 <= k <= 364 ->
  Dates.ord2ymd (146097 * a + 36524 * b + 1461 * c + 365 * e + k + 1)
  = let y := 400 * a + 100 * b + 4 * c + e + 1 in
    let leapyear := Dates.is_leap y in
    let m := (k + 50) / 32 in
    let preceding :=
      Dates.days_before_month 1 m + (if (2 <? m) && leapyear then 1 else 0) in
    if k <? preceding then
      let m' := m - 1 in
      let preceding' :=
        preceding
        - (Dates.days_in_month 1 m' + (if (m' =? 2) && leapyear then 1 else 0)) in
      Dates.mkDate y m' (k - preceding' + 1)
    else Dates.mkDate y m (k - preceding + 1).
Proof.
  intros Ha Hb Hc He Hk. cbv zeta.
  rewrite (is_leap_split a b c e) by assumption.
  unfold Dates.ord2ymd, Dates.DI400Y, Dates.DI100Y, Dates.DI4Y.
  set (n := 146097 * a + 36524 * b + 1461 * c + 365 * e + k + 1 - 1).
  assert (E1 : n / 146097 = a) by (unfold n; Z.to_euclidean_division_equations; lia).
  assert (E2 : n mod 146097 = 36524 * b + 1461 * c + 365 * e + k)
    by (unfold n; Z.to_euclidean_division_equations; lia).
  cbv zeta. rewrite E1, E2. clear E1 E2 n.
  set (n := 36524 * b + 1461 * c + 365 * e + k).
  assert (E1 : n / 36524 = b) by (unfold n; Z.to_euclidean_division_equations; lia).
  assert (E2 : n mod 36524 = 1461 * c + 365 * e + k)
    by (unfold n; Z.to_euclidean_division_equations; lia).
  rewrite E1, E2. clear E1 E2 n.
  set (n := 1461 * c + 365 * e + k).
  assert (E1 : n / 1461 = c) by (unfold n; Z.to_euclidean_division_equations; lia).
  assert (E2 : n mod 1461 = 365 * e + k)
    by (unfold n; Z.to_euclidean_division_equations; lia).
  rewrite E1, E2. clear E1 E2 n.
  set (n := 365 * e + k).
  assert (E1 : n / 365 = e) by (unfold n; Z.to_euclidean_division_equations; lia).
  assert (E2 : n mod 365 = k)
    by (unfold n; Z.to_euclidean_division_equations; lia).
  rewrite E1, E2. clear E1 E2 n.
  assert (E4 : (e =? 4) = false) by (apply Z.eqb_neq; lia).
  assert (B4 : (b =? 4) = false) by (apply Z.eqb_neq; lia).
  rewrite E4, B4. cbn [orb].
  rewrite Z.shiftr_div_pow2 by lia.
  change (2 ^ 5) with 32.
  replace (a * 400 + 1 + b * 100 + c * 4 + e) with (400 * a + 100 * b + 4 * c + e + 1) by lia.
  reflexivity.
Qed.

Ltac compute_closed :=
  repeat match goal with
  | |- context [Dates.days_before_month 1 ?c + ?x] =>
      let p := fresh "p" in
      set (p := Dates.days_before_month 1 c + x); vm_compute in p; subst p
  | |- context [Dates.days_in_month 1 ?c + ?x] =>
      let p := fresh "p" in
      set (p := Dates.days_in_month 1 c + x); vm_compute in p; subst p
  end.

Ltac month_tail :=
  match goal with
  | |- context [(?k + 50) / 32] =>
      let q := fresh "q" in
      let Hq := fresh "Hq" in
      let Hcases := fresh "Hcases" in
      remember ((k + 50) / 32) as q eqn:Hq;
      assert (q = 1 \/ q = 2 \/ q = 3 \/ q = 4 \/ q = 5 \/ q = 6 \/ q = 7 \/ q = 8
              \/ q = 9 \/ q = 10 \/ q = 11 \/ q = 12)
        as Hcases by (subst q; Z.to_euclidean_division_equations; lia);
      repeat (destruct Hcases as [Hcases|Hcases]);
      rewrite Hcases in *; compute_closed;
      match goal with
      | |- (if ?a <? ?b then _ else _) = _ =>
          destruct (Z.ltb_spec a b);
          try (exfalso; Z.to_euclidean_division_equations; lia);
          f_equal; lia
      end
  end.

Lemma ord2ymd_tail (y m d : Z) :
  1 <= m <= 12 -> 1 <= d <= Dates.days_in_month y m ->
  Dates.days_before_month y m + d - 1 <= 364 ->
  let k := Dates.days_before_month y m + d - 1 in
  let leapyear := Dates.is_leap y in
  let mm := (k + 50) / 32 in
  let preceding :=
    Dates.days_before_month 1 mm + (if (2 <? mm) && leapyear then 1 else 0) in
  (if k <? preceding then
     let m' := mm - 1 in
     let preceding' :=
       preceding
       - (Dates.days_in_month 1 m' + (if (m' =? 2) && leapyear then 1 else 0)) in
     Dates.mkDate y m' (k - preceding' + 1)
   else Dates.mkDate y mm (k - preceding + 1))
  = Dates.mkDate y m d.
Proof.
  intros Hm Hd Hk. cbv zeta.
  rewrite (days_before_month_cases y m) in * by assumption.
  unfold Dates.days_in_month in Hd.
  assert (H : m = 1 \/ m = 2 \/ m = 3 \/ m = 4 \/ m = 5 \/ m = 6 \/ m = 7 \/ m = 8
              \/ m = 9 \/ m = 10 \/ m = 11 \/ m = 12) by lia.
  destruct (Dates.is_leap y);
    repeat (destruct H as [H|H]); subst m; cbn -[Z.add Z.sub Z.ltb Z.div] in *;
    month_tail.
Qed.

(** December 31st of a leap year: the branch [n1 == 4 or n100 == 4]. *)
Lemma ord2ymd_leap_end (a b c : Z) :
  0 <= a -> 0 <= b < 4 -> 0 <= c < 25 -> (c <> 24 \/ b = 3) ->
  Dates.ord2ymd (146097 * a + 36524 * b + 1461 * c + 365 * 3 + 365 + 1)
  = Dates.mkDate (400 * a + 100 * b + 4 * c + 3 + 1) 12 31.
Proof.
  intros Ha Hb Hc Hleap.
  unfold Dates.ord2ymd, Dates.DI400Y, Dates.DI100Y, Dates.DI4Y.
  set (n := 146097 * a + 36524 * b + 1461 * c + 365 * 3 + 365 + 1 - 1).
  assert (E1 : n / 146097 = a) by (unfold n; Z.to_euclidean_division_equations; lia).
  assert (E2 : n mod 146097 = 36524 * b + 1461 * c + 1460)
    by (unfold n; Z.to_euclidean_division_equations; lia).
  cbv zeta. rewrite E1, E2. clear E1 E2 n.
  destruct (Z.eq_dec c 24) as [C|C].
  - assert (B : b = 3) by lia. subst b c.
    vm_compute (36524 * 3 + 1461 * 24 + 1460).
    change (146096 / 36524) with 4. change (4 =? 4) with true.
    rewrite orb_true_r. f_equal. vm_compute (146096 mod 36524).
    change (0 / 1461) with 0. change (0 mod 1461) with 0. change (0 / 365) with 0.
    lia.
  - set (n := 36524 * b + 1461 * c + 1460).
    assert (E1 : n / 36524 = b) by (unfold n; Z.to_euclidean_division_equations; lia).
    assert (E2 : n mod 36524 = 1461 * c + 1460)
      by (unfold n; Z.to_euclidean_division_equations; lia).
    rewrite E1, E2. clear E1 E2 n.
    set (n := 1461 * c + 1460).
    assert (E1 : n / 1461 = c) by (unfold n; Z.to_euclidean_division_equations; lia).
    assert (E2 : n mod 1461 = 1460)
      by (unfold n; Z.to_euclidean_division_equations; lia).
    rewrite E1, E2. clear E1 E2 n.
    change (1460 / 365) with 4. change (4 =? 4) with true. cbn [orb].
    f_equal. lia.
Qed.

Lemma year_end (y m dd : Z) :
  1 <= m <= 12 -> 1 <= dd <= Dates.days_in_month y m ->
  Dates.days_before_month y m + dd - 1 > 364 ->
  m = 12 /\ dd = 31 /\ Dates.is_leap y = true.
Proof.
  intros Hm Hd Hk.
  rewrite (days_before_month_cases y m) in Hk by lia.
  unfold Dates.days_in_month in Hd.
  assert (H : m = 1 \/ m = 2 \/ m = 3 \/ m = 4 \/ m = 5 \/ m = 6 \/ m = 7 \/ m = 8
              \/ m = 9 \/ m = 10 \/ m = 11 \/ m = 12) by lia.
  destruct (Dates.is_leap y);
    repeat (destruct H as [H|H]); subst m; cbn [Z.eqb Pos.eqb orb] in Hd, Hk;
    repeat split; try lia.
Qed.

(** [date.fromordinal(d.toordinal())] is [d], for every date that exists. *)
Lemma fromordinal_toordinal (d : Dates.date) :
  Dates.valid d = true ->
  Dates.fromordinal (Dates.toordinal d) = Ok d.
Proof.
  destruct d as [y m dd]. unfold Dates.valid, Dates.MINYEAR, Dates.MAXYEAR. cbn [Dates.year Dates.month Dates.day].
  intros H. repeat (apply andb_prop in H; destruct H as [H ?]).
  repeat match goal with
         | H : (_ <=? _) = true |- _ => apply Z.leb_le in H
         end.
  destruct (days_before_year_split y) as (a & b & c & e & Ha & Hb & Hc & He & Hy & Hdby);
    [lia|].
  assert (Hyy : y = 400 * a + 100 * b + 4 * c + e + 1) by lia.
  assert (Hdbm : 0 <= Dates.days_before_month y m
                 /\ Dates.days_before_month y m + Dates.days_in_month y m
                    <= (if Dates.is_leap y then 366 else 365)).
  { rewrite (days_before_month_cases y m) by lia. unfold Dates.days_in_month.
    assert (Hm : m = 1 \/ m = 2 \/ m = 3 \/ m = 4 \/ m = 5 \/ m = 6 \/ m = 7 \/ m = 8
                 \/ m = 9 \/ m = 10 \/ m = 11 \/ m = 12) by lia.
    destruct (Dates.is_leap y);
      repeat (destruct Hm as [Hm|Hm]); subst m; cbn; lia. }
  unfold Dates.toordinal, Dates.fromordinal, Dates.MAXORDINAL.
  cbn [Dates.year Dates.month Dates.day].
  assert (Hrange : 1 <= Dates.days_before_year y + Dates.days_before_month y m + dd
                   <= 3652059).
  { destruct (Dates.is_leap y) eqn:L.
    - rewrite Hyy, is_leap_split in L by assumption. 
      apply andb_prop in L. destruct L as [L1 L2]. apply Z.eqb_eq in L1.
      rewrite Hdby. lia.
    - rewrite Hdby. lia. }
  replace ((1 <=? Dates.days_before_year y + Dates.days_before_month y m + dd)
           && (Dates.days_before_year y + Dates.days_before_month y m + dd <=? 3652059))
    with true
    by (symmetry; apply andb_true_intro; split; apply Z.leb_le; lia).
  f_equal.
  destruct (Z_le_gt_dec (Dates.days_before_month y m + dd - 1) 364) as [Hk|Hk].
  - replace (Dates.days_before_year y + Dates.days_before_month y m + dd)
      with (146097 * a + 36524 * b + 1461 * c + 365 * e
            + (Dates.days_before_month y m + dd - 1) + 1) by lia.
    rewrite ord2ymd_offset by lia. rewrite <- Hyy.
    apply ord2ymd_tail; lia.
  - destruct (year_end y m dd) as (-> & -> & L); [lia | lia | lia |].
    rewrite (days_before_month_cases y 12) by lia. rewrite L. cbn.
    pose proof L as L'. rewrite Hyy, is_leap_split in L' by assumption.
    apply andb_prop in L'. destruct L' as [L1 L2]. apply Z.eqb_eq in L1. subst e.
    replace (Dates.days_before_year y + 335 + 31)
      with (146097 * a + 36524 * b + 1461 * c + 365 * 3 + 365 + 1) by lia.
    rewrite ord2ymd_leap_end; try lia.
    f_equal. lia.
Qed.

End DateFacts.

(** ** The invoice ledger *)

Module InvoicingFacts.
Import Decimals Invoicing.

Lemma coalesce_sum_cents (l : list Z) : coalesce_sum l = of_cents (sum_cents l).
Proof. destruct l; reflexivity. Qed.

Lemma add_of_cents (a b : Z) : add (of_cents a) (of_cents b) = of_cents (a + b).
Proof.
  unfold add, of_cents, coef_at; simpl. f_equal. lia.
Qed.

Lemma sub_of_cents (a b : Z) : sub (of_cents a) (of_cents b) = of_cents (a - b).
Proof.
  unfold sub, of_cents, coef_at; simpl. f_equal. lia.
Qed.

Lemma quantize_of_cents (a : Z) : quantize_2dp (of_cents a) = of_cents a.
Proof.
  unfold quantize_2dp, of_cents, coef_at; simpl. f_equal. lia.
Qed.

Lemma eqb_zero_of_cents (a : Z) : eqb zero_00 (of_cents a) = (0 =? a).
Proof.
  unfold eqb, zero_00, of_cents, coef_at; simpl.
  replace (a * 1) with a by lia. reflexivity.
Qed.

Lemma balance_cents (inv : Invoice) (txs : list InvoiceTransaction) (a : Z) :
  inv_amount inv = Some a ->
  balance inv txs = Ok (of_cents (a + total_credit inv txs - total_debit inv txs)).
Proof.
  intros Ha. unfold balance. rewrite Ha, !coalesce_sum_cents.
  rewrite add_of_cents, sub_of_cents, quantize_of_cents. reflexivity.
Qed.

Lemma total_credit_credits_of (inv : Invoice) (txs : list InvoiceTransaction) :
  total_credit inv txs = credits_of (inv_id inv) txs.
Proof.
  unfold total_credit, transactions_of, sum_cents.
  induction txs as [|t txs IH]; cbn [filter map fold_right credits_of];
    [reflexivity|].
  destruct (tx_invoice t =? inv_id inv); cbn [map fold_right]; lia.
Qed.

Lemma total_debit_debits_of (inv : Invoice) (txs : list InvoiceTransaction) :
  total_debit inv txs = debits_of (inv_id inv) txs.
Proof.
  unfold total_debit, transactions_of, sum_cents.
  induction txs as [|t txs IH]; cbn [filter map fold_right debits_of];
    [reflexivity|].
  destruct (tx_invoice t =? inv_id inv); cbn [map fold_right]; lia.
Qed.

(** The balance, from the ledger rows that name the invoice. *)
Lemma balance_of_ledger (inv : Invoice) (txs : list InvoiceTransaction) (a : Z) :
  inv_amount inv = Some a ->
  balance inv txs
  = Ok (of_cents (a + credits_of (inv_id inv) txs - debits_of (inv_id inv) txs)).
Proof.
  intros Ha. rewrite (balance_cents inv txs a Ha).
  now rewrite total_credit_credits_of, total_debit_debits_of.
Qed.

Lemma invoices_by_id_In (pk : Z) (l : list Invoice) (i : Invoice) :
  In i (invoices_by_id pk l) -> In i l /\ inv_id i = pk.
Proof.
  unfold invoices_by_id. rewrite filter_In. intros [H1 H2].
  split; [exact H1 | now apply Z.eqb_eq].
Qed.

Lemma save_invoice_kept_or_paid (inv : Invoice) (l : list Invoice) :
  In inv l ->
  Forall2 kept_or_paid l (save_invoice (set_status inv INVOICE_STATUS_PAID) l).
Proof.
  intros _. induction l as [|r l IH]; simpl; constructor; auto.
  unfold kept_or_paid. simpl.
  destruct (inv_id r =? inv_id inv) eqn:E; simpl.
  - apply Z.eqb_eq in E. split; [congruence | now right].
  - split; [reflexivity | now left].
Qed.

Lemma Forall2_kept_refl (l : list Invoice) : Forall2 kept_or_paid l l.
Proof.
  induction l; constructor; auto. split; [reflexivity | now left].
Qed.

Lemma save_invoice_paid_at (inv : Invoice) (l : list Invoice) (i : Invoice) :
  In i (save_invoice (set_status inv INVOICE_STATUS_PAID) l) ->
  inv_id i = inv_id inv ->
  inv_status i = Some INVOICE_STATUS_PAID.
Proof.
  unfold save_invoice. rewrite in_map_iff. intros [r [Hr _]] Hid.
  subst i. simpl in *.
  destruct (inv_id r =? inv_id inv) eqn:E.
  - reflexivity.
  - apply Z.eqb_neq in E. contradiction.
Qed.

Lemma save_invoice_In (inv : Invoice) (l : list Invoice) :
  In inv l -> In (set_status inv INVOICE_STATUS_PAID)
                 (save_invoice (set_status inv INVOICE_STATUS_PAID) l).
Proof.
  intros H. unfold save_invoice. apply in_map_iff. exists inv. split; auto.
  simpl. now rewrite Z.eqb_refl.
Qed.

Section RecordTransactionFacts.
Variable Payload : Type.
Variable validate : Payload -> option (Z * Z).

(** No call moves a status anywhere but to paid. *)
Lemma record_transaction_kept_or_paid (req : Request Payload) (pk : Z) (w : World) :
  Forall2 kept_or_paid (invoices w)
          (invoices (snd (record_transaction validate req pk w))).
Proof.
  unfold record_transaction.
  destruct (negb (is_finance_officer req)); simpl; [apply Forall2_kept_refl|].
  destruct (invoices_by_id pk (invoices w)) as [|instance rest] eqn:Hi; simpl;
    [apply Forall2_kept_refl|].
  destruct (validate (data req)) as [[credit debit]|]; simpl;
    [|apply Forall2_kept_refl].
  destruct (invoices_by_id (inv_id instance) (invoices w)) as [|invoice rest'] eqn:Hj;
    simpl; [apply Forall2_kept_refl|].
  destruct (balance invoice _) as [b|e]; simpl; [|apply Forall2_kept_refl].
  destruct (eqb zero_00 b); simpl; [|apply Forall2_kept_refl].
  apply save_invoice_kept_or_paid.
  apply (invoices_by_id_In (inv_id instance)). rewrite Hj. now left.
Qed.

End RecordTransactionFacts.

(** C1 (amended).  The balance of an invoice whose amount is set is the
    amount plus the credits minus the debits of the transactions that name
    the invoice, at two decimal places (the quantization loses nothing on
    2-decimal columns); when [record_transaction] saves a transaction that
    brings the balance to exactly 0.00, the call itself sets the invoice's
    status to paid; and no call of [record_transaction] moves any invoice's
    status anywhere but to paid, so never back to unpaid. *)
Theorem invoice_balance_and_paid_on_zero :
  (forall (inv : Invoice) (txs : list InvoiceTransaction) (a : Z),
      inv_amount inv = Some a ->
      balance inv txs
      = Ok (of_cents (a + credits_of (inv_id inv) txs
                      - debits_of (inv_id inv) txs)))
  /\
  (forall (Payload : Type) (validate : Payload -> option (Z * Z))
          (req : Request Payload) (pk : Z) (w : World)
          (inv : Invoice) (rest : list Invoice) (credit debit : Z),
      is_finance_officer req = true ->
      invoices_by_id pk (invoices w) = inv :: rest ->
      validate (data req) = Some (credit, debit) ->
      let tx := mkTx (next_tx_id (transactions w)) (inv_id inv) credit debit in
      balance inv (transactions w ++ [tx]) = Ok zero_00 ->
      let out := record_transaction validate req pk w in
      fst out = Ok (mkResponse HTTP_200_OK (BodyInvoice inv))
      /\ transactions (snd out) = transactions w ++ [tx]
      /\ (exists i, In i (invoices (snd out)) /\ inv_id i = pk)
      /\ (forall i, In i (invoices (snd out)) -> inv_id i = pk ->
                    inv_status i = Some INVOICE_STATUS_PAID))
  /\
  (forall (Payload : Type) (validate : Payload -> option (Z * Z))
          (req : Request Payload) (pk : Z) (w : World),
      Forall2 kept_or_paid (invoices w)
              (invoices (snd (record_transaction validate req pk w)))).
Proof.
  split; [exact balance_of_ledger|].
  split; [|exact record_transaction_kept_or_paid].
  intros Payload validate req pk w inv rest credit debit Hfo Hinv Hval tx Hbal out.
  assert (Hin : In inv (invoices w) /\ inv_id inv = pk).
  { apply invoices_by_id_In. rewrite Hinv. now left. }
  destruct Hin as [Hin Hid]. subst pk.
  assert (Hout : out =
    (Ok (mkResponse HTTP_200_OK (BodyInvoice inv)),
     mkWorld (save_invoice (set_status inv INVOICE_STATUS_PAID) (invoices w))
             (transactions w ++ [tx]) (outbox w))).
  { unfold out, record_transaction. rewrite Hfo, Hinv, Hval.
    cbn [negb tx_invoice invoices transactions].
    rewrite Hinv. fold tx. rewrite Hbal. reflexivity. }
  rewrite Hout. simpl. repeat split.
  - exists (set_status inv INVOICE_STATUS_PAID). split.
    + now apply save_invoice_In.
    + reflexivity.
  - intros i Hi Hipk. eapply save_invoice_paid_at; eauto.
Qed.

(** Witness of [invoice_balance_and_paid_on_zero]: two invoices share the
    ledger; invoice 1, of 100.00, has a credit of 5.00 and a debit of 40.00
    recorded, invoice 2 a debit of 70.00; the balance of invoice 1 is 65.00,
    and recording a debit of 65.00 marks invoice 1, and not invoice 2,
    paid. *)
Lemma invoice_balance_and_paid_on_zero_witness :
  let inv1 := mkInvoice 1 "a3f1" 7 (Some INVOICE_STATUS_UNPAID) (Some 10000) None in
  let inv2 := mkInvoice 2 "b7c4" 7 (Some INVOICE_STATUS_UNPAID) (Some 7000) None in
  let txs := [mkTx 1 1 500 0; mkTx 2 2 0 7000; mkTx 3 1 0 4000] in
  let w := mkWorld [inv1; inv2] txs [] in
  let req := mkRequest true (0, 6500) in
  balance inv1 txs = Ok (of_cents 6500)
  /\ balance inv2 txs = Ok (of_cents 0)
  /\ invoices (snd (record_transaction (fun p => Some p) req 1 w))
     = [mkInvoice 1 "a3f1" 7 (Some INVOICE_STATUS_PAID) (Some 10000) None; inv2].
Proof.
  intros inv1 inv2 txs w req. split; [|split].
  - exact (proj1 invoice_balance_and_paid_on_zero inv1 txs 10000 eq_refl).
  - exact (proj1 invoice_balance_and_paid_on_zero inv2 txs 7000 eq_refl).
  - destruct (proj1 (proj2 invoice_balance_and_paid_on_zero)
                (Z * Z)%type (fun p => Some p) req 1 w inv1 [] 0 6500
                eq_refl eq_refl eq_refl eq_refl) as (_ & _ & _ & _).
    reflexivity.
Defined.

(** C1 as stated fails on an invoice whose amount is not set: reading its
    balance raises [TypeError], whatever the ledger holds; a transaction
    recorded against it is saved, and the call then raises. *)
Lemma invoice_without_amount_has_no_balance :
  let inv := mkInvoice 3 "c7d2" 7 (Some INVOICE_STATUS_UNPAID) None None in
  let txs := [mkTx 1 3 0 500] in
  let w := mkWorld [inv] txs [] in
  let req := mkRequest true (500, 0) in
  inv_amount inv = None
  /\ balance inv txs = Raise TypeError
  /\ (forall b, balance inv txs <> Ok b)
  /\ fst (record_transaction (fun p => Some p) req 3 w) = Raise TypeError
  /\ transactions (snd (record_transaction (fun p => Some p) req 3 w))
     = txs ++ [mkTx 2 3 500 0].
Proof. repeat split. discriminate. Qed.

(** *** The payment callback *)

Lemma save_invoice_by_uuid_paid (inv inv' : Invoice) (uuid : string) (l : list Invoice) :
  inv_id inv' = inv_id inv ->
  is_unpaid inv' = false ->
  (forall r, In r l -> String.eqb (inv_uuid r) uuid = true -> r = inv) ->
  existsb is_unpaid (invoices_by_uuid uuid (save_invoice inv' l)) = false.
Proof.
  intros Hid Hpaid Huniq.
  destruct (existsb is_unpaid _) eqn:E; [|reflexivity].
  apply existsb_exists in E. destruct E as [x [Hx Hu]].
  unfold invoices_by_uuid in Hx. apply filter_In in Hx. destruct Hx as [Hx Hxu].
  unfold save_invoice in Hx. apply in_map_iff in Hx. destruct Hx as [r [Hr Hin]].
  destruct (inv_id r =? inv_id inv') eqn:Eid.
  - subst x. congruence.
  - subst x. rewrite (Huniq r Hin Hxu) in Eid.
    rewrite Hid, Z.eqb_refl in Eid. discriminate.
Qed.

Lemma by_uuid_singleton (uuid : string) (l : list Invoice) (inv : Invoice) :
  invoices_by_uuid uuid l = [inv] ->
  forall r, In r l -> String.eqb (inv_uuid r) uuid = true -> r = inv.
Proof.
  intros H r Hin Hu.
  assert (Hr : In r (invoices_by_uuid uuid l)).
  { unfold invoices_by_uuid. apply filter_In. auto. }
  rewrite H in Hr. destruct Hr as [Hr|[]]. now symmetry.
Qed.

(** The callback when no unpaid invoice carries the UUID: the guard fails. *)
Lemma callback_without_unpaid (now : Z) (uuid : string) (w : World) :
  existsb is_unpaid (invoices_by_uuid uuid (invoices w)) = false ->
  pay_invoice_success_get now uuid w
  = (Ok (mkResponse HTTP_400_BAD_REQUEST BodyEmpty), w).
Proof.
  intros H. unfold pay_invoice_success_get, atomic. rewrite H.
  rewrite andb_false_r. reflexivity.
Qed.

(** C3 (amended).  Calling the payment-success callback with a UUID that no
    unpaid invoice carries (in particular the UUID of an invoice already
    paid) changes neither the invoices nor the transactions and answers 400
    Bad Request; for an unpaid invoice that is the only invoice of its
    (non-empty) UUID, with its amount set and below 10,000,000.00 in absolute
    value, the callback records a debit transaction equal to the invoice
    amount, sets the status to paid, stamps [date_paid], sends the two
    notifications and answers 200; a second call after that is a no-op
    answering 400. *)
Theorem payment_callback_once :
  forall (now : Z) (uuid : string) (w : World),
    (existsb is_unpaid (invoices_by_uuid uuid (invoices w)) = false ->
     pay_invoice_success_get now uuid w
     = (Ok (mkResponse HTTP_400_BAD_REQUEST BodyEmpty), w))
    /\
    (forall (inv : Invoice) (a : Z),
        uuid <> "" ->
        invoices_by_uuid uuid (invoices w) = [inv] ->
        inv_status inv = Some INVOICE_STATUS_UNPAID ->
        inv_amount inv = Some a ->
        Z.abs a < 1000000000 ->
        pay_invoice_success_get now uuid w
        = (Ok (mkResponse HTTP_200_OK BodyEmpty), paid_world now inv a w)
        /\ forall now' : Z,
            pay_invoice_success_get now' uuid (paid_world now inv a w)
            = (Ok (mkResponse HTTP_400_BAD_REQUEST BodyEmpty),
               paid_world now inv a w)).
Proof.
  intros now uuid w. split; [apply callback_without_unpaid|].
  intros inv a Hne Huuid Hst Ham Hbound. split.
  - unfold pay_invoice_success_get, atomic, get_invoice_by_uuid.
    rewrite Huuid. simpl.
    assert (Hu : is_unpaid inv = true) by (unfold is_unpaid; now rewrite Hst).
    rewrite Hu. simpl.
    apply String.eqb_neq in Hne. rewrite Hne. simpl. rewrite Ham.
    assert (Hb : (1000000000 <=? Z.abs a) = false)
      by (apply Z.leb_gt; exact Hbound).
    rewrite Hb. unfold paid_world, send_notification. simpl.
    rewrite <- app_assoc. reflexivity.
  - intros now'. apply callback_without_unpaid. unfold paid_world. simpl.
    apply save_invoice_by_uuid_paid with (inv := inv).
    + reflexivity.
    + reflexivity.
    + now apply by_uuid_singleton.
Qed.

(** Witness of [payment_callback_once]: one unpaid invoice of 250.00. *)
Lemma payment_callback_once_witness :
  let inv := mkInvoice 4 "9b2e" 7 (Some INVOICE_STATUS_UNPAID) (Some 25000) None in
  let w := mkWorld [inv] [] [] in
  pay_invoice_success_get 1700000000 "9b2e" w
  = (Ok (mkResponse HTTP_200_OK BodyEmpty),
     mkWorld [mkInvoice 4 "9b2e" 7 (Some INVOICE_STATUS_PAID) (Some 25000)
                        (Some 1700000000)]
             [mkTx 1 4 0 25000]
             [InvoicePaidExternal 4; InvoicePaidInternal 4]).
Proof.
  intros inv w.
  assert (Hne : "9b2e" <> "") by discriminate.
  assert (Hb : Z.abs 25000 < 1000000000) by reflexivity.
  exact (proj1 (proj2 (payment_callback_once 1700000000 "9b2e" w)
                  inv 25000 Hne eq_refl eq_refl eq_refl Hb)).
Defined.

(** C3 as stated fails: the callback for an invoice already paid does not
    answer with a success response. *)
Lemma paid_invoice_callback_not_success :
  let inv := mkInvoice 4 "9b2e" 7 (Some INVOICE_STATUS_PAID) (Some 25000)
                       (Some 1700000000) in
  let w := mkWorld [inv] [mkTx 1 4 0 25000] [] in
  inv_status inv = Some INVOICE_STATUS_PAID
  /\ snd (pay_invoice_success_get 1700000100 "9b2e" w) = w
  /\ status_code_of (fst (pay_invoice_success_get 1700000100 "9b2e" w))
     = Some HTTP_400_BAD_REQUEST
  /\ is_success (fst (pay_invoice_success_get 1700000100 "9b2e" w)) = false.
Proof. repeat split. Qed.

End InvoicingFacts.

(** ** Applicant resolution *)

Module ApplicantFacts.
Import Proposals.

(** C9 (amended).  [applicant_type] follows the precedence organisation >
    individual > proxy > submitter on every proposal; [applicant] follows the
    order organisation > individual > proxy: it returns the organisation or
    the proxy's ledger user, and for an individual the one [ProposalApplicant]
    row of the proposal, raising [DoesNotExist] when the proposal has no such
    row and [MultipleObjectsReturned] when it has several; with none of the
    three set it returns the string "No Applicant" (it does not fall back to
    the submitter); [relevant_applicant] follows the precedence whenever the
    organisation and the individual applicant are not both set. *)
Theorem applicant_precedence :
  forall (d : DB) (self : Proposal),
    applicant_type self = type_of_kind (precedence self)
    /\ (precedence self = ByOrganisation \/ precedence self = ByProxy ->
        applicant d self = Ok (designated_party self (precedence self)))
    /\ (precedence self = ByIndividual ->
        match filter (fun a => match pa_proposal a with
                               | Some q => q =? id self
                               | None => false
                               end)
                     (proposal_applicants d) with
        | [] => applicant d self = Raise DoesNotExist
        | [a] => applicant d self = Ok (ProposalApplicantObj (pa_id a))
        | _ :: _ :: _ => applicant d self = Raise MultipleObjectsReturned
        end)
    /\ (precedence self = BySubmitter ->
        applicant d self = Ok (PlainString "No Applicant"))
    /\ (truthy_obj (org_applicant self) && truthy_int (ind_applicant self) = false ->
        relevant_applicant self = designated_party self (precedence self)).
Proof.
  intros d self.
  unfold applicant_type, applicant, proposal_applicant, applicant_rows,
    relevant_applicant, precedence, designated_party.
  destruct (org_applicant self) as [org|]; simpl;
    destruct (truthy_int (ind_applicant self)); simpl;
    destruct (truthy_int (proxy_applicant self)); simpl;
    repeat split; intros; try reflexivity; try congruence;
    try (match goal with H : _ \/ _ |- _ => destruct H; discriminate end);
    match goal with
    | |- match ?l with _ => _ end => destruct l as [|? [|? ?]]; reflexivity
    end.
Qed.

(** Witness of [applicant_precedence]: an individual applicant with a proxy,
    and the proposal's [ProposalApplicant] row among those of other
    proposals. *)
Lemma applicant_precedence_witness :
  applicant
    (mkDB [] [] [] [] [] [] [] [] [] [] [] [] []
          [mkProposalApplicant 6 (Some 11); mkProposalApplicant 7 (Some 12);
           mkProposalApplicant 8 None])
    (mkProposal 12 "P12" (Some PROPOSAL_TYPE_NEW) APPLICATION_TYPE_LEASE_LICENCE
       PROCESSING_STATUS_DRAFT None None (Some 301) (Some 302) (Some 303)
       None None None None None false None)
  = Ok (ProposalApplicantObj 7)
  /\ relevant_applicant
       (mkProposal 12 "P12" (Some PROPOSAL_TYPE_NEW) APPLICATION_TYPE_LEASE_LICENCE
          PROCESSING_STATUS_DRAFT None None (Some 301) (Some 302) (Some 303)
          None None None None None false None)
     = EmailUserObj (Some 301).
Proof.
  destruct (applicant_precedence
              (mkDB [] [] [] [] [] [] [] [] [] [] [] [] []
                    [mkProposalApplicant 6 (Some 11); mkProposalApplicant 7 (Some 12);
                     mkProposalApplicant 8 None])
              (mkProposal 12 "P12" (Some PROPOSAL_TYPE_NEW)
                 APPLICATION_TYPE_LEASE_LICENCE PROCESSING_STATUS_DRAFT None None
                 (Some 301) (Some 302) (Some 303) None None None None None false
                 None))
    as (_ & _ & Ha & _ & Hr).
  split.
  - exact (Ha eq_refl).
  - exact (Hr eq_refl).
Defined.

(** C9 as stated fails twice: with an organisation and an individual both
    set, [relevant_applicant] returns the individual, not the organisation
    that [applicant] returns; with no applicant set, [applicant] returns
    "No Applicant", not the submitter that the precedence ends in. *)
Lemma applicant_accessors_disagree :
  let d := mkDB [] [] [] [] [] [] [] [] [] [] [] [] []
                [mkProposalApplicant 7 (Some 12)] in
  let both := mkProposal 12 "P12" (Some PROPOSAL_TYPE_NEW) APPLICATION_TYPE_LEASE_LICENCE
                PROCESSING_STATUS_DRAFT None (Some 40) (Some 301) None (Some 303)
                None None None None None false None in
  let none := mkProposal 13 "P13" (Some PROPOSAL_TYPE_NEW) APPLICATION_TYPE_LEASE_LICENCE
                PROCESSING_STATUS_DRAFT None None None None (Some 303)
                None None None None None false None in
  precedence both = ByOrganisation
  /\ applicant d both = Ok (OrganisationObj 40)
  /\ relevant_applicant both = EmailUserObj (Some 301)
  /\ relevant_applicant both <> designated_party both (precedence both)
  /\ precedence none = BySubmitter
  /\ designated_party none (precedence none) = EmailUserObj (Some 303)
  /\ relevant_applicant none = EmailUserObj (Some 303)
  /\ applicant d none = Ok (PlainString "No Applicant")
  /\ applicant d none <> Ok (designated_party none (precedence none)).
Proof. repeat split; discriminate. Qed.

End ApplicantFacts.

(** ** Stepping through the monad *)

Module MonadFacts.
Import Proposals.

Lemma bind_Ok {A B : Type} (m : M A) (k : A -> M B) (w w' : World) (b : B) :
  bind m k w = (Ok b, w') ->
  exists a w1, m w = (Ok a, w1) /\ k a w1 = (Ok b, w').
Proof.
  unfold bind. destruct (m w) as [[a|e] w1]; intros H.
  - exists a, w1. auto.
  - discriminate.
Qed.

Lemma atomic_Ok {A : Type} (m : M A) (w w' : World) (a : A) :
  atomic m w = (Ok a, w') -> m w = (Ok a, w').
Proof.
  unfold atomic. destruct (m w) as [[a'|e] w1]; intros H; [exact H | discriminate].
Qed.

Lemma ret_Ok {A : Type} (a b : A) (w w' : World) :
  ret a w = (Ok b, w') -> a = b /\ w = w'.
Proof. unfold ret. intros H. inversion H. auto. Qed.

Lemma modify_db_Ok (f : DB -> DB) (w w' : World) (u : unit) :
  modify_db f w = (Ok u, w') -> w' = mkWorld (f (db w)) (outbox w).
Proof. unfold modify_db. intros H. inversion H. reflexivity. Qed.

Lemma send_Ok (n : Notification) (w w' : World) (u : unit) :
  send n w = (Ok u, w') -> db w' = db w.
Proof. unfold send. intros H. inversion H. reflexivity. Qed.

Lemma get_db_Ok (w w' : World) (d : DB) :
  get_db w = (Ok d, w') -> d = db w /\ w' = w.
Proof. unfold get_db. intros H. inversion H. auto. Qed.

Lemma lift_Ok {A : Type} (r : result A) (w w' : World) (a : A) :
  lift r w = (Ok a, w') -> r = Ok a /\ w' = w.
Proof. unfold lift. intros H. inversion H. auto. Qed.

Lemma get_proposal_Ok (pk : Z) (w w' : World) (p : Proposal) :
  get_proposal pk w = (Ok p, w') ->
  w' = w /\ id p = pk /\ In p (proposals (db w)).
Proof.
  unfold get_proposal. intros H.
  apply bind_Ok in H. destruct H as (d & w1 & Hd & H).
  apply get_db_Ok in Hd. destruct Hd as [-> ->].
  apply lift_Ok in H. destruct H as [H ->]. split; [reflexivity|].
  unfold get_one in H.
  destruct (filter _ _) as [|x [|y l]] eqn:E; try discriminate.
  inversion H; subst x.
  assert (Hin : In p (filter (fun p0 => id p0 =? pk) (proposals (db w)))).
  { rewrite E. now left. }
  apply filter_In in Hin. destruct Hin as [Hin Hid].
  split; [now apply Z.eqb_eq | exact Hin].
Qed.

Lemma get_proposal_found (pk : Z) (p : Proposal) (w : World) :
  filter (fun q => id q =? pk) (proposals (db w)) = [p] ->
  get_proposal pk w = (Ok p, w).
Proof.
  intros H. unfold get_proposal, bind, get_db, lift. now rewrite H.
Qed.

(** Running a sequence whose first action returns. *)
Lemma bind_run {A B : Type} (m : M A) (k : A -> M B) (w w1 : World) (a : A) :
  m w = (Ok a, w1) -> bind m k w = k a w1.
Proof. intros H. unfold bind. now rewrite H. Qed.

Lemma atomic_run {A : Type} (m : M A) (w w' : World) (a : A) :
  m w = (Ok a, w') -> atomic m w = (Ok a, w').
Proof. intros H. unfold atomic. now rewrite H. Qed.

(** *** Saved rows *)

Lemma save_row_map {A : Type} (key : A -> Z) (x : A) (l : list A) :
  (exists r, In r l /\ key r = key x) ->
  save_row key x l = map (fun r => if key r =? key x then x else r) l.
Proof.
  intros [r [Hin Hk]]. unfold save_row.
  assert (E : existsb (fun r0 => key r0 =? key x) l = true).
  { apply existsb_exists. exists r. split; [exact Hin | now apply Z.eqb_eq]. }
  now rewrite E.
Qed.

Lemma save_row_at {A : Type} (key : A -> Z) (x : A) (l : list A) (r : A) :
  In r (save_row key x l) -> key r = key x -> r = x.
Proof.
  unfold save_row. destruct (existsb _ l) eqn:E.
  - rewrite in_map_iff. intros [r0 [Hr _]] Hk.
    destruct (key r0 =? key x) eqn:E0; [now symmetry|].
    subst r. apply Z.eqb_neq in E0. contradiction.
  - rewrite in_app_iff. intros [Hin|[Hx|[]]] Hk; [|now symmetry].
    assert (E' : existsb (fun r0 => key r0 =? key x) l = true).
    { apply existsb_exists. exists r. split; [exact Hin | now apply Z.eqb_eq]. }
    congruence.
Qed.

Lemma save_row_other {A : Type} (key : A -> Z) (x : A) (l : list A) (r : A) :
  In r l -> key r <> key x -> In r (save_row key x l).
Proof.
  intros Hin Hk. unfold save_row. destruct (existsb _ l).
  - apply in_map_iff. exists r. split; [|exact Hin].
    apply Z.eqb_neq in Hk. now rewrite Hk.
  - apply in_app_iff. now left.
Qed.

Lemma save_row_from {A : Type} (key : A -> Z) (x : A) (l : list A) (r : A) :
  In r (save_row key x l) -> r = x \/ (In r l /\ key r <> key x).
Proof.
  unfold save_row. destruct (existsb _ l) eqn:E.
  - rewrite in_map_iff. intros [r0 [Hr Hin]].
    destruct (key r0 =? key x) eqn:E0; [left; now symmetry|].
    right. subst r. split; [exact Hin | now apply Z.eqb_neq].
  - rewrite in_app_iff. intros [Hin|[Hx|[]]]; [|left; now symmetry].
    right. split; [exact Hin|]. intros Hk.
    assert (E' : existsb (fun r0 => key r0 =? key x) l = true).
    { apply existsb_exists. exists r. split; [exact Hin | now apply Z.eqb_eq]. }
    congruence.
Qed.

Lemma save_row_In {A : Type} (key : A -> Z) (x : A) (l : list A) :
  In x (save_row key x l).
Proof.
  unfold save_row. destruct (existsb _ l) eqn:E.
  - apply existsb_exists in E. destruct E as [r [Hin Hk]].
    apply in_map_iff. exists r. split; [now rewrite Hk | exact Hin].
  - apply in_app_iff. right. now left.
Qed.

(** *** Requirements in order *)

Lemma In_insert_by_order (r x : ProposalRequirement) (l : list ProposalRequirement) :
  In x (insert_by_order r l) <-> x = r \/ In x l.
Proof.
  induction l as [|y l IH]; cbn.
  - intuition.
  - destruct (order_leb r y); cbn; [intuition|]. rewrite IH. intuition.
Qed.

Lemma In_sort_by_order (x : ProposalRequirement) (l : list ProposalRequirement) :
  In x (sort_by_order l) <-> In x l.
Proof.
  induction l as [|y l IH]; cbn; [tauto|].
  rewrite In_insert_by_order, IH. intuition.
Qed.

(** Peels the first action off a successful sequence. *)
Ltac step H a w1 Ha :=
  apply bind_Ok in H; destruct H as (a & w1 & Ha & H).

End MonadFacts.

(** ** Referral completion *)

Module ReferralFacts.
Import Proposals MonadFacts.

Section Completion.
Variable has_log : ApplicantValue -> bool.

(** What [add_referral_document] leaves behind when it returns: the
    proposals untouched, and the referral rows either untouched or rewritten
    at the instance's key with the returned instance. *)
Lemma add_referral_document_effect (request : Request) (self self' : Referral)
    (w w' : World) :
  add_referral_document has_log request self w = (Ok self', w') ->
  proposals (db w') = proposals (db w)
  /\ ref_id self' = ref_id self
  /\ ref_proposal self' = ref_proposal self
  /\ ref_sent_from self' = ref_sent_from self
  /\ ref_processing_status self' = ref_processing_status self
  /\ (referrals (db w') = referrals (db w)
      \/ referrals (db w') = save_row ref_id self' (referrals (db w))).
Proof.
  intros H. apply atomic_Ok in H. unfold add_referral_document in H.
  destruct (referral_document request) as [doc|].
  - step H u1 w1 H1. apply modify_db_Ok in H1.
    step H p w2 H2. apply get_proposal_Ok in H2. destruct H2 as (-> & Hid & Hin).
    step H u3 w3 H3. apply modify_db_Ok in H3.
    step H u4 w4 H4.
    apply ret_Ok in H. destruct H as [<- <-].
    unfold applicant_field_log_user_action, applicant_log_user_action, raise in H4.
    destruct (org_applicant p); [|discriminate].
    destruct (has_log _); [|discriminate].
    apply modify_db_Ok in H4. subst w4 w3 w1. simpl.
    repeat split; auto.
  - apply ret_Ok in H. destruct H as [<- <-]. repeat split; auto.
Qed.

Lemma pending_after_save (r self' : Referral) (l : list Referral) (proposal : Z) :
  ref_id self' = ref_id r ->
  ref_processing_status self' = REFERRAL_COMPLETED ->
  existsb (fun x => (ref_proposal x =? proposal)
                    && referral_status_eqb (ref_processing_status x)
                                           REFERRAL_WITH_REFERRAL)
          (save_row ref_id self' l) = true ->
  exists r2, In r2 l /\ ref_id r2 <> ref_id r /\ ref_proposal r2 = proposal
             /\ ref_processing_status r2 = REFERRAL_WITH_REFERRAL.
Proof.
  intros Hid Hst H. apply existsb_exists in H. destruct H as [x [Hin Hx]].
  apply andb_prop in Hx. destruct Hx as [Hp Hs].
  apply save_row_from in Hin. destruct Hin as [->|[Hin Hne]].
  - rewrite Hst in Hs. discriminate.
  - exists x. repeat split; auto.
    + congruence.
    + now apply Z.eqb_eq.
    + destruct (ref_processing_status x); auto; discriminate.
Qed.

(** What [complete] leaves behind when it returns on a referral row: the
    row is in the table, completed; if another referral of the proposal is
    still pending the proposals are as before; if it was the last pending one
    the proposal's processing status is [with_assessor] when the referral's
    [sent_from] is 1 and [with_approver] otherwise. *)
Lemma completion_effect (request : Request) (r : Referral) (w w' : World) :
  In r (referrals (db w)) ->
  complete has_log request r w = (Ok tt, w') ->
  (exists r', In r' (referrals (db w')) /\ ref_id r' = ref_id r)
  /\ (forall r', In r' (referrals (db w')) -> ref_id r' = ref_id r ->
                 ref_processing_status r' = REFERRAL_COMPLETED)
  /\ (other_pending r (db w) -> proposals (db w') = proposals (db w))
  /\ (~ other_pending r (db w) ->
      (exists p', In p' (proposals (db w')) /\ id p' = ref_proposal r)
      /\ forall p', In p' (proposals (db w')) -> id p' = ref_proposal r ->
            processing_status p'
            = if ref_sent_from r =? 1 then PROCESSING_STATUS_WITH_ASSESSOR
              else PROCESSING_STATUS_WITH_APPROVER).
Proof.
  intros Hr H. apply atomic_Ok in H. unfold complete in H.
  step H self w1 H1. apply add_referral_document_effect in H1.
  simpl in H1. destruct H1 as (Hp1 & Hid & Hprop & Hsf & Hst & Href).
  step H u2 w2 H2. apply modify_db_Ok in H2.
  step H p w3 H3. apply get_proposal_Ok in H3. destruct H3 as (-> & Hpid & Hpin).
  step H u4 w4 H4. apply modify_db_Ok in H4.
  step H d0 w40 H40. apply get_db_Ok in H40. destruct H40 as [-> ->].
  step H a w41 H41. apply lift_Ok in H41. destruct H41 as [Ha ->].
  step H u5 w5 H5.
  step H u6 w6 H6. apply send_Ok in H6.
  step H d w7 H7. apply get_db_Ok in H7. destruct H7 as [-> ->].
  assert (Hdb5 : proposals (db w5) = proposals (db w)
                 /\ referrals (db w5) = save_row ref_id self (referrals (db w1))).
  { unfold applicant_log_user_action, raise in H5.
    destruct a; try discriminate;
      (destruct (has_log _); [|discriminate]);
      try (apply modify_db_Ok in H5); try (apply ret_Ok in H5; destruct H5 as [_ <-]);
      subst; simpl; rewrite Hp1; auto. }
  destruct Hdb5 as [Hp5 Hr5].
  assert (Hr6 : referrals (db w6) = save_row ref_id self (referrals (db w))).
  { rewrite H6, Hr5. destruct Href as [->| ->]; [reflexivity|].
    rewrite !save_row_map.
    - rewrite map_map. apply map_ext. intros x.
      destruct (ref_id x =? ref_id self) eqn:E; [now rewrite Z.eqb_refl | now rewrite E].
    - exists r. split; [exact Hr | now symmetry].
    - exists self. split; [apply save_row_In | reflexivity]. }
  assert (Hp6 : proposals (db w6) = proposals (db w)) by (now rewrite H6).
  destruct (pending_referral_exists (id p) (db w6)) eqn:Epend; simpl in H.
  - apply ret_Ok in H. destruct H as [_ <-].
    assert (Hother : other_pending r (db w)).
    { unfold pending_referral_exists in Epend. rewrite Hr6 in Epend.
      apply pending_after_save with (r := r) in Epend; auto.
      destruct Epend as (r2 & Hin & Hne & Hpr & Hs).
      exists r2. repeat split; auto. congruence. }
    split; [|split; [|split]].
    + exists self. rewrite Hr6. split; [apply save_row_In | exact Hid].
    + intros r' Hin Hid'. rewrite Hr6 in Hin.
      apply save_row_at in Hin; [subst r'; exact Hst | congruence].
    + intros _. exact Hp6.
    + intros Hno. contradiction.
  - step H u8 w8 H8. apply modify_db_Ok in H8. apply send_Ok in H.
    assert (Hno : ~ other_pending r (db w)).
    { intros (r2 & Hin & Hne & Hpr & Hs).
      unfold pending_referral_exists in Epend. rewrite Hr6 in Epend.
      assert (E : existsb
                (fun x => (ref_proposal x =? id p)
                          && referral_status_eqb (ref_processing_status x)
                                                 REFERRAL_WITH_REFERRAL)
                (save_row ref_id self (referrals (db w))) = true).
      { apply existsb_exists. exists r2. split.
        - apply save_row_other; [exact Hin | congruence].
        - rewrite Hs. simpl. rewrite andb_true_r. apply Z.eqb_eq. congruence. }
      congruence. }
    split; [|split; [|split]].
    + exists self. rewrite H, H8. simpl. rewrite Hr6.
      split; [apply save_row_In | exact Hid].
    + intros r' Hin Hid'. rewrite H, H8 in Hin. simpl in Hin. rewrite Hr6 in Hin.
      apply save_row_at in Hin; [subst r'; exact Hst | congruence].
    + intros Ho. contradiction.
    + intros _. rewrite H, H8. simpl. split.
      * eexists. split; [apply save_row_In|].
        destruct (ref_sent_from self =? 1); simpl; congruence.
      * intros p' Hin Hid'. apply save_row_at in Hin.
        -- subst p'. rewrite Hsf. destruct (ref_sent_from r =? 1); reflexivity.
        -- destruct (ref_sent_from self =? 1); simpl; congruence.
Qed.

(** [complete] does return: with no document in the request, the proposal
    row in place and its applicant an object that can log. *)
Lemma complete_returns (request : Request) (r : Referral) (p : Proposal)
    (a : ApplicantValue) (w : World) :
  referral_document request = None ->
  filter (fun q => id q =? ref_proposal r) (proposals (db w)) = [p] ->
  applicant (db w) p = Ok a ->
  (forall s, a <> PlainString s) ->
  has_log a = true ->
  exists w', complete has_log request r w = (Ok tt, w').
Proof.
  intros Hdoc Hp Ha Hstr Hlog.
  assert (Ha' : forall l1 l2,
             applicant (set_user_actions (set_referrals (db w) l1) l2) p = Ok a).
  { intros l1 l2. rewrite <- Ha. reflexivity. }
  unfold complete, add_referral_document, atomic at 1, bind at 1, atomic.
  rewrite Hdoc. unfold ret at 1. unfold bind at 1. unfold save_referral at 1.
  unfold modify_db at 1. unfold bind at 1, get_proposal, bind at 1, get_db at 1.
  cbn [db set_referrals proposals set_ref_processing_status ref_proposal lift].
  rewrite Hp. cbn [get_one]. unfold bind at 1, log_user_action at 1, modify_db at 1.
  unfold bind at 1, get_db at 1. cbn [db]. unfold bind at 1, lift at 1.
  rewrite Ha'. unfold bind at 1, applicant_log_user_action.
  destruct a; try (exfalso; eapply Hstr; reflexivity); rewrite Hlog;
    unfold modify_db, bind, send, get_db, ret, save_proposal, modify_db;
    cbn [db outbox];
    match goal with
    | |- context [negb ?b] => destruct b
    end; cbn [negb]; eexists; reflexivity.
Qed.

(** Completing a referral of a proposal whose applicant can log, with no
    document in the request: the call returns; the referral row is in the
    table, completed; with another referral of the proposal still pending the
    proposals are as before; otherwise the proposal's processing status
    becomes [with_assessor] when the referral's [sent_from] is 1 and
    [with_approver] otherwise. *)
Theorem referral_completion (request : Request) (r : Referral) (p : Proposal)
    (a : ApplicantValue) (w : World) :
  In r (referrals (db w)) ->
  filter (fun q => id q =? ref_proposal r) (proposals (db w)) = [p] ->
  referral_document request = None ->
  applicant (db w) p = Ok a ->
  (forall s, a <> PlainString s) ->
  has_log a = true ->
  exists w',
    complete has_log request r w = (Ok tt, w')
    /\ (exists r', In r' (referrals (db w')) /\ ref_id r' = ref_id r)
    /\ (forall r', In r' (referrals (db w')) -> ref_id r' = ref_id r ->
                   ref_processing_status r' = REFERRAL_COMPLETED)
    /\ (other_pending r (db w) -> proposals (db w') = proposals (db w))
    /\ (~ other_pending r (db w) ->
        (exists p', In p' (proposals (db w')) /\ id p' = ref_proposal r)
        /\ forall p', In p' (proposals (db w')) -> id p' = ref_proposal r ->
              processing_status p'
              = if ref_sent_from r =? 1 then PROCESSING_STATUS_WITH_ASSESSOR
                else PROCESSING_STATUS_WITH_APPROVER).
Proof.
  intros Hr Hp Hdoc Ha Hstr Hlog.
  destruct (complete_returns request r p a w Hdoc Hp Ha Hstr Hlog) as [w' H].
  exists w'. split; [exact H|]. exact (completion_effect request r w w' Hr H).
Qed.

End Completion.

(** Witness of [referral_completion]: a proposal of an organisation with two
    pending referrals sent from the assessor; the first completion leaves the
    proposals as they are. *)
Lemma referral_completion_witness :
  let p := mkProposal 5 "A000005" (Some PROPOSAL_TYPE_NEW)
             APPLICATION_TYPE_LEASE_LICENCE PROCESSING_STATUS_WITH_REFERRAL None
             (Some 40) None None (Some 303) None None None None None false None in
  let r1 := mkReferral 1 5 201 100 1 REFERRAL_WITH_REFERRAL None in
  let r2 := mkReferral 2 5 202 100 1 REFERRAL_WITH_REFERRAL None in
  let request := mkRequest 201 "R. Referee" false false None 1700000000
                           (Dates.mkDate 2024 3 1) in
  let w0 := mkWorld (mkDB [p] [] [r1; r2] [] [] [] [] [] [] [] [] [] [] []) [] in
  exists w1,
    complete (fun _ => true) request r1 w0 = (Ok tt, w1)
    /\ (exists r', In r' (referrals (db w1)) /\ ref_id r' = 1
                   /\ ref_processing_status r' = REFERRAL_COMPLETED)
    /\ proposals (db w1) = [p].
Proof.
  intros p r1 r2 request w0.
  assert (Hstr : forall s, OrganisationObj 40 <> PlainString s) by discriminate.
  destruct (referral_completion (fun _ => true) request r1 p (OrganisationObj 40) w0
              (or_introl eq_refl) eq_refl eq_refl eq_refl Hstr eq_refl)
    as (w1 & Hrun & (r' & Hin & Hid) & Hdone & Hsame & _).
  exists w1. split; [exact Hrun|]. split.
  - exists r'. split; [exact Hin|]. split; [exact Hid|]. exact (Hdone r' Hin Hid).
  - apply Hsame. exists r2. repeat split; [right; now left | discriminate].
Defined.

(** C4 on a proposal with no organisation, individual or proxy applicant and
    two pending referrals: completing either referral raises
    [AttributeError] (the applicant is the string "No Applicant"), and the
    transaction leaves the referrals pending and the proposal with its
    referrals; even the most permissive applicant objects do not help. *)
Lemma pending_referrals_cannot_complete :
  let p := mkProposal 5 "A000005" (Some PROPOSAL_TYPE_NEW)
             APPLICATION_TYPE_LEASE_LICENCE PROCESSING_STATUS_WITH_REFERRAL None
             None None None (Some 303) None None None None None false None in
  let r1 := mkReferral 1 5 201 100 1 REFERRAL_WITH_REFERRAL None in
  let r2 := mkReferral 2 5 202 100 1 REFERRAL_WITH_REFERRAL None in
  let request := mkRequest 201 "R. Referee" false false None 1700000000
                           (Dates.mkDate 2024 3 1) in
  let w0 := mkWorld (mkDB [p] [] [r1; r2] [] [] [] [] [] [] [] [] [] [] []) [] in
  applicant (db w0) p = Ok (PlainString "No Applicant")
  /\ complete (fun _ => true) request r1 w0 = (Raise AttributeError, w0)
  /\ complete (fun _ => true) request r2 w0 = (Raise AttributeError, w0)
  /\ referrals (db (snd (complete (fun _ => true) request r1 w0))) = [r1; r2].
Proof. repeat split. Qed.

(** The same with an applicant in place.  An individual applicant and a
    document in the request: [add_referral_document] calls
    [log_user_action] on the [ind_applicant] attribute, an integer.  An
    individual applicant whose [ProposalApplicant] row is missing: reading
    the applicant raises [DoesNotExist].  Either way the referral stays
    pending. *)
Example individual_applicant_cannot_complete :
  let p := mkProposal 5 "A000005" (Some PROPOSAL_TYPE_NEW)
             APPLICATION_TYPE_LEASE_LICENCE PROCESSING_STATUS_WITH_REFERRAL None
             None (Some 301) None (Some 301) None None None None None false None in
  let r1 := mkReferral 1 5 201 100 1 REFERRAL_WITH_REFERRAL None in
  let r2 := mkReferral 2 5 202 100 1 REFERRAL_WITH_REFERRAL None in
  let with_document := mkRequest 201 "R. Referee" false false (Some (Some 9))
                                 1700000000 (Dates.mkDate 2024 3 1) in
  let without := mkRequest 201 "R. Referee" false false None
                           1700000000 (Dates.mkDate 2024 3 1) in
  let w0 := mkWorld (mkDB [p] [] [r1; r2] [] [] [] [] [] [] [] [] [] []
                          [mkProposalApplicant 4 (Some 5)]) [] in
  let w1 := mkWorld (mkDB [p] [] [r1; r2] [] [] [] [] [] [] [] [] [] [] []) [] in
  complete (fun _ => true) with_document r1 w0 = (Raise AttributeError, w0)
  /\ complete (fun _ => true) without r1 w1 = (Raise DoesNotExist, w1)
  /\ exists w', complete (fun _ => true) without r1 w0 = (Ok tt, w').
Proof. repeat split. eexists. reflexivity. Qed.

End ReferralFacts.

(** ** Renewal periods *)

Module RenewalFacts.
Import Proposals MonadFacts.

Lemma dict_index_set_other (d : Dict) (k k' : string) (v : JValue) :
  k <> k' -> dict_index (dict_set d k v) k' = dict_index d k'.
Proof.
  intros Hne. induction d as [|[k0 v0] d IH]; simpl.
  - apply String.eqb_neq in Hne. now rewrite Hne.
  - destruct (String.eqb k0 k) eqn:E; simpl.
    + apply String.eqb_eq in E. subst k0.
      apply String.eqb_neq in Hne. now rewrite Hne.
    + destruct (String.eqb k0 k'); [reflexivity | exact IH].
Qed.

Lemma dict_get_set_same (d : Dict) (k : string) (v : JValue) :
  dict_get (dict_set d k v) k = v.
Proof.
  induction d as [|[k0 v0] d IH]; simpl.
  - now rewrite String.eqb_refl.
  - destruct (String.eqb k0 k) eqn:E; simpl.
    + now rewrite String.eqb_refl.
    + now rewrite E.
Qed.

Lemma dict_get_set_other (d : Dict) (k k' : string) (v : JValue) :
  k <> k' -> dict_get (dict_set d k v) k' = dict_get d k'.
Proof.
  intros Hne. induction d as [|[k0 v0] d IH]; simpl.
  - apply String.eqb_neq in Hne. now rewrite Hne.
  - destruct (String.eqb k0 k) eqn:E; simpl.
    + apply String.eqb_eq in E. subst k0.
      apply String.eqb_neq in Hne. now rewrite Hne.
    + destruct (String.eqb k0 k'); [reflexivity | exact IH].
Qed.

(** The block computes the new period from the stored dates. *)
Lemma renewal_proposed_issuance_dates
    (decimal_digit : string -> option (Z * string)) (d : Dict)
    (s_str e_str : string) (s e ns ne : Dates.date) :
  dict_index d "start_date" = Ok (JStr s_str) ->
  dict_index d "expiry_date" = Ok (JStr e_str) ->
  Dates.strptime_ymd decimal_digit s_str = Ok s ->
  Dates.strptime_ymd decimal_digit e_str = Ok e ->
  Dates.add_days e 1 = Ok ns ->
  Dates.add_days e (Dates.sub_dates e s) = Ok ne ->
  exists d', renewal_proposed_issuance decimal_digit (Some d) = Ok d'
             /\ dict_get d' "start_date" = JStr (Dates.strftime_ymd ns)
             /\ dict_get d' "expiry_date" = JStr (Dates.strftime_ymd ne).
Proof.
  intros Hs He Hps Hpe Hns Hne.
  unfold renewal_proposed_issuance.
  rewrite !dict_index_set_other by discriminate.
  rewrite Hs. cbn [rbind json_str]. rewrite Hps. cbn [rbind].
  rewrite He. cbn [rbind json_str]. rewrite Hpe. cbn [rbind].
  rewrite Hns. cbn [rbind]. rewrite Hne. cbn [rbind].
  eexists. split; [reflexivity|]. split.
  - rewrite dict_get_set_other by discriminate. apply dict_get_set_same.
  - apply dict_get_set_same.
Qed.

(** The two dates of the stated example, read by any reader of the ASCII
    digits. *)
Lemma strptime_2024 (decimal_digit : string -> option (Z * string)) :
  Dates.reads_ascii_digits decimal_digit ->
  Dates.strptime_ymd decimal_digit "2024-01-01" = Ok (Dates.mkDate 2024 1 1)
  /\ Dates.strptime_ymd decimal_digit "2024-12-31" = Ok (Dates.mkDate 2024 12 31).
Proof.
  intros Hascii.
  unfold Dates.strptime_ymd, Dates.match_ymd, Dates.match_Y, Dates.two, Dates.one.
  split.
  - rewrite (Hascii "2"%char _ 2 eq_refl), (Hascii "0"%char _ 0 eq_refl),
      (Hascii "2"%char _ 2 eq_refl), (Hascii "4"%char _ 4 eq_refl).
    reflexivity.
  - rewrite (Hascii "2"%char _ 2 eq_refl), (Hascii "0"%char _ 0 eq_refl),
      (Hascii "2"%char _ 2 eq_refl), (Hascii "4"%char _ 4 eq_refl).
    reflexivity.
Qed.

Section Renewal.
Variable make_lodgement_number : Z -> string.
Variable has_log : ApplicantValue -> bool.
Variable decimal_digit : string -> option (Z * string).

#[local] Abbreviation renew :=
  (renew_approval make_lodgement_number has_log decimal_digit).
#[local] Abbreviation clone :=
  (clone_proposal_with_status_reset make_lodgement_number).

(** A renewal that [renew_approval] returns carries the block's result for
    the stored previous proposal, and is stored. *)
Lemma renew_approval_issuance (request : Request) (self proposal : Proposal)
    (w w' : World) :
  renew request self w = (Ok proposal, w') ->
  exists previous d',
    In previous (proposals (db w)) /\ id previous = id self
    /\ renewal_proposed_issuance decimal_digit (proposed_issuance_approval previous)
       = Ok d'
    /\ proposed_issuance_approval proposal = Some d'
    /\ proposal_type proposal = Some PROPOSAL_TYPE_RENEWAL
    /\ previous_application proposal = Some (id self)
    /\ In proposal (proposals (db w')).
Proof.
  intros H. apply atomic_Ok in H. unfold renew_approval in H.
  step H d w1 H1. apply get_db_Ok in H1. destruct H1 as [-> ->].
  destruct (get_one _) as [q|e]; [discriminate|].
  destruct e; try discriminate.
  step H previous w2 H2. apply get_proposal_Ok in H2. destruct H2 as (-> & Hid & Hin).
  step H cloned w3 H3.
  step H pi w4 H4. apply lift_Ok in H4. destruct H4 as [Hpi ->].
  step H u5 w5 H5. step H d6 w6 H6. step H u7 w7 H7. step H u8 w8 H8.
  step H u9 w9 H9.
  destruct (approval self); [|discriminate].
  step H u10 w10 H10. step H u11 w11 H11.
  apply ret_Ok in H. destruct H as [<- <-].
  exists previous, pi. repeat split; auto.
  - unfold clone_proposal_with_status_reset in H3.
    step H3 c wc Hc. step H3 uc wc' Hc'. apply ret_Ok in H3. destruct H3 as [<- _].
    unfold create_proposal in Hc.
    step Hc dc wd Hd. step Hc ue we Hce. apply ret_Ok in Hc. destruct Hc as [<- _].
    simpl. now rewrite Hid.
  - apply modify_db_Ok in H11. rewrite H11. cbn [db proposals set_proposals].
    apply save_row_In.
Qed.

(** Cloning returns when the applicant's row can be copied, and leaves the
    requirements alone. *)
Lemma clone_returns (previous : Proposal) (w : World) :
  (org_applicant previous = None ->
   exists a, filter (fun a => match pa_proposal a with
                              | Some q => q =? id previous
                              | None => false
                              end)
                    (proposal_applicants (db w)) = [a]) ->
  exists cloned w3,
    clone previous w = (Ok cloned, w3)
    /\ requirements (db w3) = requirements (db w).
Proof.
  intros Hrow.
  unfold clone_proposal_with_status_reset, create_proposal, save_proposal,
    copy_applicant_to_proposal.
  unfold bind at 1 2, get_db at 1, bind at 1, modify_db at 1, ret at 1,
    bind at 1.
  cbn [db outbox].
  destruct (org_applicant previous) as [org|] eqn:Eorg; cbn [truthy_obj negb].
  - unfold ret. eexists. eexists. split; reflexivity.
  - destruct (Hrow eq_refl) as [a Ha].
    unfold bind, get_db, lift, modify_db, ret.
    cbn [db outbox proposal_applicants set_proposals].
    rewrite Ha. cbn [get_one].
    eexists. eexists. split; reflexivity.
Qed.

(** Saving the copies returns when each requirement copied has a free text
    or a standard requirement. *)
Lemma copies_return (proposal : Z) (l : list ProposalRequirement) :
  (forall r, In r l ->
             truthy_string (req_free_requirement r)
             || truthy_obj (req_standard_requirement r) = true) ->
  forall w, exists w',
    for_each l (fun r => _ <- insert_requirement (renewal_copy r proposal) ;;
                         ret tt) w
    = (Ok tt, w').
Proof.
  induction l as [|r l IH]; intros Hl w; cbn [for_each].
  - eexists. reflexivity.
  - assert (Hr : truthy_string (req_free_requirement r)
                 || truthy_obj (req_standard_requirement r) = true)
      by (apply Hl; now left).
    assert (Hcopy : negb (truthy_string
                            (req_free_requirement (renewal_copy r proposal)))
                    && negb (truthy_obj
                               (req_standard_requirement (renewal_copy r proposal)))
                    = false).
    { unfold renewal_copy.
      destruct r as [i p sr fr dd rd rc rp rs cf del cr rdd ord].
      cbn in Hr |- *. destruct dd; cbn;
        destruct (truthy_string fr), (truthy_obj sr); try reflexivity;
        discriminate. }
    unfold bind at 1 2, insert_requirement, bind at 1, get_db at 1.
    assert (Hf : forall x o, req_free_requirement (set_req_order x o)
                             = req_free_requirement x) by reflexivity.
    assert (Hs : forall x o, req_standard_requirement (set_req_order x o)
                             = req_standard_requirement x) by reflexivity.
    cbv zeta. rewrite Hf, Hs, Hcopy. unfold bind, modify_db, ret.
    apply IH. intros x Hx. apply Hl. now right.
Qed.

(** [renew_approval] returns: no renewal of the proposal is with the
    assessor, the proposal's row is in place, the row of an individual
    applicant can be copied, the stored dates can be renewed, each
    requirement to copy has its text or standard requirement, the
    organisation can log, and the proposal has its approval. *)
Lemma renew_approval_returns (request : Request) (self previous : Proposal)
    (d' : Dict) (ap : Z) (w : World) :
  filter (fun q => match previous_application q with
                   | Some prev =>
                       (prev =? id self)
                       && processing_status_eqb (processing_status q)
                                                PROCESSING_STATUS_WITH_ASSESSOR
                   | None => false
                   end) (proposals (db w)) = [] ->
  filter (fun q => id q =? id self) (proposals (db w)) = [previous] ->
  (org_applicant previous = None ->
   exists a, filter (fun a => match pa_proposal a with
                              | Some q => q =? id previous
                              | None => false
                              end)
                    (proposal_applicants (db w)) = [a]) ->
  renewal_proposed_issuance decimal_digit (proposed_issuance_approval previous)
  = Ok d' ->
  (forall r, In r (requirements (db w)) -> req_proposal r = id self ->
             req_is_deleted r = false ->
             truthy_string (req_free_requirement r)
             || truthy_obj (req_standard_requirement r) = true) ->
  (forall org, org_applicant self = Some org ->
               has_log (OrganisationObj org) = true) ->
  approval self = Some ap ->
  exists proposal w', renew request self w = (Ok proposal, w').
Proof.
  intros Hnone Hrow Happ Hdates Hreqs Hlog Hap.
  destruct (clone_returns previous w Happ) as (cloned & w3 & Hclone & Hreq3).
  unfold renew_approval. 
  unfold atomic, bind at 1, get_db at 1. rewrite Hnone. cbn [get_one].
  rewrite (bind_run _ _ _ _ _ (get_proposal_found (id self) previous w Hrow)).
  rewrite (bind_run _ _ _ _ _ Hclone).
  unfold bind at 1, lift at 1. rewrite Hdates.
  unfold bind at 1, save_proposal at 1, modify_db at 1.
  unfold bind at 1, get_db at 1. cbn [db set_proposals requirements].
  match goal with
  | |- context [bind (for_each ?l ?body) _ ?w0] =>
      destruct (copies_return
                  (id (set_proposed_issuance_approval
                         (set_proposal_type cloned (Some PROPOSAL_TYPE_RENEWAL))
                         (Some d')))
                  l) with (w := w0) as [w6 Hcopies]
  end.
  { intros r Hr. apply (proj1 (In_sort_by_order _ _)) in Hr.
    apply filter_In in Hr.
    destruct Hr as [Hin Hsel]. apply andb_prop in Hsel. destruct Hsel as [Hp Hd].
    rewrite Hreq3 in Hin. apply Hreqs; [exact Hin | now apply Z.eqb_eq |].
    now destruct (req_is_deleted r). }
  rewrite (bind_run _ _ _ _ _ Hcopies).
  unfold bind at 1, log_user_action at 1, modify_db at 1.
  rewrite Hap.
  destruct (org_applicant self) as [org|] eqn:Eorg.
  - rewrite (Hlog org eq_refl).
    unfold bind, modify_db, save_proposal, modify_db, ret.
    eexists. eexists. reflexivity.
  - unfold bind, modify_db, save_proposal, modify_db, ret.
    eexists. eexists. reflexivity.
Qed.

End Renewal.

(** C7.  From a stored start date [s] and expiry date [e], [renew_approval]
    computes the renewal's proposed start date as [e] plus one day and its
    proposed expiry date as [e] plus the duration [e - s]: whenever both
    dates are stored and in range the block yields them; the renewal the
    operation returns carries the block's result for the stored proposal and
    is stored; the operation does return such a renewal when no renewal of
    the proposal is with the assessor, the proposal's row is in place, the
    row of an individual applicant can be copied, each requirement to copy
    has its text or standard requirement, the organisation can log and the
    proposal has its approval; and dates stored as 2024-01-01 and 2024-12-31
    are renewed as 2025-01-01 and 2025-12-31. *)
Theorem renewal_period :
  (forall (decimal_digit : string -> option (Z * string)) (d : Dict)
          (s_str e_str : string) (s e ns ne : Dates.date),
      dict_index d "start_date" = Ok (JStr s_str) ->
      dict_index d "expiry_date" = Ok (JStr e_str) ->
      Dates.strptime_ymd decimal_digit s_str = Ok s ->
      Dates.strptime_ymd decimal_digit e_str = Ok e ->
      Dates.add_days e 1 = Ok ns ->
      Dates.add_days e (Dates.sub_dates e s) = Ok ne ->
      exists d', renewal_proposed_issuance decimal_digit (Some d) = Ok d'
                 /\ dict_get d' "start_date" = JStr (Dates.strftime_ymd ns)
                 /\ dict_get d' "expiry_date" = JStr (Dates.strftime_ymd ne))
  /\
  (forall (make_lodgement_number : Z -> string) (has_log : ApplicantValue -> bool)
          (decimal_digit : string -> option (Z * string))
          (request : Request) (self proposal : Proposal) (w w' : World),
      renew_approval make_lodgement_number has_log decimal_digit request self w
      = (Ok proposal, w') ->
      exists previous d',
        In previous (proposals (db w)) /\ id previous = id self
        /\ renewal_proposed_issuance decimal_digit
             (proposed_issuance_approval previous) = Ok d'
        /\ proposed_issuance_approval proposal = Some d'
        /\ proposal_type proposal = Some PROPOSAL_TYPE_RENEWAL
        /\ previous_application proposal = Some (id self)
        /\ In proposal (proposals (db w')))
  /\
  (forall (make_lodgement_number : Z -> string) (has_log : ApplicantValue -> bool)
          (decimal_digit : string -> option (Z * string))
          (request : Request) (self previous : Proposal) (d' : Dict) (ap : Z)
          (w : World),
      filter (fun q => match previous_application q with
                       | Some prev =>
                           (prev =? id self)
                           && processing_status_eqb (processing_status q)
                                                    PROCESSING_STATUS_WITH_ASSESSOR
                       | None => false
                       end) (proposals (db w)) = [] ->
      filter (fun q => id q =? id self) (proposals (db w)) = [previous] ->
      (org_applicant previous = None ->
       exists a, filter (fun a => match pa_proposal a with
                                  | Some q => q =? id previous
                                  | None => false
                                  end)
                        (proposal_applicants (db w)) = [a]) ->
      renewal_proposed_issuance decimal_digit (proposed_issuance_approval previous)
      = Ok d' ->
      (forall r, In r (requirements (db w)) -> req_proposal r = id self ->
                 req_is_deleted r = false ->
                 truthy_string (req_free_requirement r)
                 || truthy_obj (req_standard_requirement r) = true) ->
      (forall org, org_applicant self = Some org ->
                   has_log (OrganisationObj org) = true) ->
      approval self = Some ap ->
      exists proposal w',
        renew_approval make_lodgement_number has_log decimal_digit request self w
        = (Ok proposal, w')
        /\ proposed_issuance_approval proposal = Some d'
        /\ proposal_type proposal = Some PROPOSAL_TYPE_RENEWAL
        /\ previous_application proposal = Some (id self)
        /\ In proposal (proposals (db w')))
  /\
  (forall (decimal_digit : string -> option (Z * string)) (d : Dict),
      Dates.reads_ascii_digits decimal_digit ->
      dict_index d "start_date" = Ok (JStr "2024-01-01") ->
      dict_index d "expiry_date" = Ok (JStr "2024-12-31") ->
      exists d', renewal_proposed_issuance decimal_digit (Some d) = Ok d'
                 /\ dict_get d' "start_date" = JStr "2025-01-01"
                 /\ dict_get d' "expiry_date" = JStr "2025-12-31").
Proof.
  split; [|split; [|split]].
  - exact renewal_proposed_issuance_dates.
  - exact renew_approval_issuance.
  - intros mk has_log dd request self previous d' ap w
           Hnone Hrow Happ Hdates Hreqs Hlog Hap.
    destruct (renew_approval_returns mk has_log dd request self previous d' ap w
                Hnone Hrow Happ Hdates Hreqs Hlog Hap) as (proposal & w' & Hrun).
    exists proposal, w'. split; [exact Hrun|].
    destruct (renew_approval_issuance mk has_log dd request self proposal w w' Hrun)
      as (prev & d2 & Hin & Hid & Hd2 & Hpi & Hty & Hprev & Hstored).
    assert (Hsame : prev = previous).
    { assert (Hf : In prev (filter (fun q => id q =? id self) (proposals (db w)))).
      { apply filter_In. split; [exact Hin | now apply Z.eqb_eq]. }
      rewrite Hrow in Hf. destruct Hf as [Hf|[]]. now symmetry. }
    subst prev. rewrite Hdates in Hd2. inversion Hd2; subst d2.
    repeat split; assumption.
  - intros dd d Hascii Hs He.
    destruct (strptime_2024 dd Hascii) as [Hps Hpe].
    exact (renewal_proposed_issuance_dates dd d "2024-01-01" "2024-12-31"
             (Dates.mkDate 2024 1 1) (Dates.mkDate 2024 12 31)
             (Dates.mkDate 2025 1 1) (Dates.mkDate 2025 12 31)
             Hs He Hps Hpe eq_refl eq_refl).
Qed.

(** Witness of [renewal_period]: the licence of the scenario is renewed for
    2025-01-01 to 2025-12-31. *)
Lemma renewal_period_witness :
  exists proposal w',
    renew_approval (fun _ => "A000008") (fun _ => true) Dates.ascii_digit
                   RenewalScenario.request RenewalScenario.proposal
                   RenewalScenario.world0
    = (Ok proposal, w')
    /\ proposed_issuance_approval proposal = Some RenewalScenario.renewed
    /\ proposal_type proposal = Some PROPOSAL_TYPE_RENEWAL
    /\ previous_application proposal = Some (id RenewalScenario.proposal)
    /\ In proposal (proposals (db w')).
Proof.
  refine (proj1 (proj2 (proj2 renewal_period))
            (fun _ => "A000008") (fun _ => true) Dates.ascii_digit
            RenewalScenario.request RenewalScenario.proposal
            RenewalScenario.proposal RenewalScenario.renewed 3
            RenewalScenario.world0 eq_refl eq_refl _ eq_refl _ _ eq_refl).
  - intros _. exists (mkProposalApplicant 4 (Some 7)). reflexivity.
  - intros r [<-|[<-|[<-|[<-|[]]]]] _ _; reflexivity.
  - intros org Horg. discriminate Horg.
Defined.

(** What the format accepts, with the ASCII digits: one-digit months and
    days, a day written with a space; and what it refuses: a month or a day
    out of range, a date that does not exist, a short year, text left
    over. *)
Example strptime_accepts :
  Dates.strptime_ymd Dates.ascii_digit "2024-2-29" = Ok (Dates.mkDate 2024 2 29)
  /\ Dates.strptime_ymd Dates.ascii_digit "2024-10- 7" = Ok (Dates.mkDate 2024 10 7)
  /\ Dates.strptime_ymd Dates.ascii_digit "0199-12-31" = Ok (Dates.mkDate 199 12 31).
Proof. repeat split. Qed.

Example strptime_refuses :
  Dates.strptime_ymd Dates.ascii_digit "2024-13-01" = Raise ValueError
  /\ Dates.strptime_ymd Dates.ascii_digit "2024-00-01" = Raise ValueError
  /\ Dates.strptime_ymd Dates.ascii_digit "2024-01-32" = Raise ValueError
  /\ Dates.strptime_ymd Dates.ascii_digit "2023-02-29" = Raise ValueError
  /\ Dates.strptime_ymd Dates.ascii_digit "0000-01-01" = Raise ValueError
  /\ Dates.strptime_ymd Dates.ascii_digit "200-01-01" = Raise ValueError
  /\ Dates.strptime_ymd Dates.ascii_digit "2024-01-01 " = Raise ValueError
  /\ Dates.strptime_ymd Dates.ascii_digit " 2024-01-01" = Raise ValueError
  /\ Dates.strptime_ymd Dates.ascii_digit "2024-01-01T00:00" = Raise ValueError.
Proof. repeat split. Qed.

(** A period in the year 199 is renewed into the year 200, which is written
    with three digits; the renewal's dates can then not be read again. *)
Example renewal_into_year_200 :
  renewal_proposed_issuance Dates.ascii_digit
    (Some [("start_date", JStr "0199-01-01"); ("expiry_date", JStr "0199-12-31")])
  = Ok [("start_date", JStr "200-01-01"); ("expiry_date", JStr "200-12-30");
        ("details", JNull); ("approved_on", JNull); ("approved_by", JNull)]
  /\ renewal_proposed_issuance Dates.ascii_digit
       (Some [("start_date", JStr "200-01-01"); ("expiry_date", JStr "200-12-30")])
     = Raise ValueError.
Proof. split; reflexivity. Qed.

(** The whole operation on that proposal: the renewal row it returns, and
    the copies of the two requirements in force, made in the order of
    [req_order]. *)
Example renew_approval_2024 :
  let run := renew_approval (fun _ => "A000008") (fun _ => true) Dates.ascii_digit
               RenewalScenario.request RenewalScenario.proposal
               RenewalScenario.world0 in
  fst run
  = Ok (mkProposal 8 "A000008" (Some PROPOSAL_TYPE_RENEWAL)
          APPLICATION_TYPE_LEASE_LICENCE PROCESSING_STATUS_DRAFT
          (Some RenewalScenario.renewed)
          None (Some 301) None None (Some 3) (Some 7) None None None false None)
  /\ map (fun r => (req_id r, req_copied_from r, req_order r, req_due_date r,
                    req_require_due_date r))
         (filter (fun r => req_proposal r =? 8) (requirements (db (snd run))))
     = [(35, Some 32, Some 1, None, true); (36, Some 31, Some 2, None, false)].
Proof. split; reflexivity. Qed.

End RenewalFacts.

(** ** The compliance generator *)

Module ComplianceFacts.
Import Proposals MonadFacts.

(** One iteration of the loop that stays under the expiry date. *)
Lemma recurrence_loop_step (fuel : nat) (self approval : Z)
    (expiry_date current_date next : Dates.date) (req : ProposalRequirement)
    (request : Request) (w w' : World) :
  Dates.ltb current_date expiry_date = true ->
  advance_schedule req current_date = Ok next ->
  Dates.leb next expiry_date = true ->
  get_or_create_compliance self approval req next request w = (Ok tt, w') ->
  recurrence_loop (S fuel) self approval expiry_date req request current_date w
  = recurrence_loop fuel self approval expiry_date req request next w'.
Proof.
  intros Hlt Hadv Hle Hget. cbn [recurrence_loop].
  rewrite Hlt, Hadv, Hle, Hget. reflexivity.
Qed.

Lemma recurrence_loop_no_fuel (self approval : Z)
    (expiry_date current_date : Dates.date) (req : ProposalRequirement)
    (request : Request) (w : World) :
  Dates.ltb current_date expiry_date = true ->
  recurrence_loop 0 self approval expiry_date req request current_date w = None.
Proof. intros Hlt. cbn [recurrence_loop]. now rewrite Hlt. Qed.

Import MonthlyScenario.

(** [relativedelta(month=1)] sets the month to January: from 2024-03-15 the
    "next" date is 2024-01-15, and from there it is 2024-01-15 again. *)
Lemma monthly_advance_goes_to_january :
  advance_schedule requirement due = Ok january
  /\ advance_schedule requirement january = Ok january.
Proof. split; reflexivity. Qed.

(** From 2024-01-15 the loop never leaves, whatever the number of
    iterations allowed. *)
Lemma monthly_loop_stuck (fuel : nat) :
  recurrence_loop fuel 9 3 expiry requirement request january world2 = None.
Proof.
  induction fuel as [|fuel IH].
  - apply recurrence_loop_no_fuel. reflexivity.
  - rewrite (recurrence_loop_step fuel 9 3 expiry january january requirement
               request world2 world2); [exact IH | reflexivity ..].
Qed.

Lemma monthly_loop_never_leaves (fuel : nat) :
  recurrence_loop fuel 9 3 expiry requirement request due world1 = None.
Proof.
  destruct fuel as [|fuel].
  - apply recurrence_loop_no_fuel. reflexivity.
  - rewrite (recurrence_loop_step fuel 9 3 expiry due january requirement
               request world1 world2); [apply monthly_loop_stuck | reflexivity ..].
Qed.

(** For a requirement due on 2024-03-15 that
    recurs every month under an approval expiring on 2025-03-15,
    [generate_compliances] does not return within any number of loop
    iterations: the working date goes to 2024-01-15 and stays there. *)
Theorem monthly_recurrence_never_terminates :
  forall (generate_gross_turnover_compliances : Z -> M unit) (fuel : nat),
    generate_compliances generate_gross_turnover_compliances fuel
                         proposal the_approval request world0
    = None.
Proof.
  intros ggtc fuel. unfold generate_compliances.
  change (sort_by_order _) with [requirement].
  cbn [generate_for_requirements].
  assert (H : generate_for_requirement fuel (id proposal) the_approval requirement
                                       request world0 = None).
  { unfold generate_for_requirement.
    change (req_due_date requirement) with (Some due).
    change (Dates.leb (today request) due) with true. cbv iota.
    change (get_or_create_compliance (id proposal) (ap_id the_approval) requirement
              due request world0) with (Ok tt, world1).
    cbv iota. change (req_recurrence requirement) with true. cbv iota.
    change (ap_expiry_date the_approval) with (Some expiry). cbv iota.
    apply monthly_loop_never_leaves. }
  now rewrite H.
Qed.

(** The same loop leaves when the requirement recurs yearly or weekly. *)
Example yearly_and_weekly_terminate :
  (exists w, recurrence_loop 2 9 3 expiry yearly_requirement request due world1
             = Some (Ok tt, w)
             /\ List.length (compliances (db w)) = 2%nat)
  /\ (exists w, recurrence_loop 60 9 3 expiry weekly_requirement request due world1
                = Some (Ok tt, w)
                /\ List.length (compliances (db w)) = 53%nat).
Proof.
  split; eexists; split; vm_compute; reflexivity.
Qed.

End ComplianceFacts.

(** ** Recurrence stepping *)

Module RecurrenceFacts.
Import Proposals MonadFacts DateFacts.

Lemma add_days_zero (d : Dates.date) :
  Dates.valid d = true -> Dates.add_days d 0 = Ok d.
Proof.
  intros Hv. unfold Dates.add_days. rewrite Z.add_0_r.
  now apply fromordinal_toordinal.
Qed.

Lemma valid_bounds (d : Dates.date) :
  Dates.valid d = true ->
  1 <= Dates.year d <= 9999 /\ 1 <= Dates.month d <= 12
  /\ 1 <= Dates.day d <= Dates.days_in_month (Dates.year d) (Dates.month d).
Proof.
  unfold Dates.valid, Dates.MINYEAR, Dates.MAXYEAR. intros H.
  repeat (apply andb_prop in H; destruct H as [H ?]).
  repeat match goal with
         | H : (_ <=? _) = true |- _ => apply Z.leb_le in H
         end.
  lia.
Qed.

Lemma valid_intro (y m dd : Z) :
  1 <= y <= 9999 -> 1 <= m <= 12 -> 1 <= dd <= Dates.days_in_month y m ->
  Dates.valid (Dates.mkDate y m dd) = true.
Proof.
  intros Hy Hm Hd. unfold Dates.valid, Dates.MINYEAR, Dates.MAXYEAR. cbn.
  repeat (apply andb_true_intro; split); apply Z.leb_le; lia.
Qed.

Lemma days_in_month_bounds (y m : Z) : 28 <= Dates.days_in_month y m <= 31.
Proof.
  unfold Dates.days_in_month.
  destruct (m =? 2); [destruct (Dates.is_leap y); lia|].
  destruct ((m =? 4) || (m =? 6) || (m =? 9) || (m =? 11)); lia.
Qed.

Lemma january_valid (d : Dates.date) :
  Dates.valid d = true -> Dates.valid (january_of d) = true.
Proof.
  intros Hv. apply valid_bounds in Hv.
  pose proof (days_in_month_bounds (Dates.year d) (Dates.month d)).
  unfold january_of. apply valid_intro; try lia.
  change (Dates.days_in_month (Dates.year d) 1) with 31. lia.
Qed.

(** [d + relativedelta(month=1)] is the same day in January of the same
    year. *)
Lemma add_month_keyword (d : Dates.date) :
  Dates.valid d = true ->
  Dates.add_relativedelta d (Dates.rd_month_kw 1) = Ok (january_of d).
Proof.
  intros Hv. pose proof (valid_bounds d Hv) as (Hy & Hm & Hd).
  pose proof (days_in_month_bounds (Dates.year d) (Dates.month d)).
  unfold Dates.add_relativedelta, Dates.rd_month_kw, Dates.MINYEAR, Dates.MAXYEAR.
  cbn [Dates.rd_year Dates.rd_years Dates.rd_month Dates.rd_months Dates.rd_day
       Dates.rd_days Dates.or_else].
  change (0 =? 0) with true. cbv iota. rewrite Z.add_0_r.
  assert (E : (Dates.year d <? 1) || (9999 <? Dates.year d) = false).
  { apply orb_false_intro; apply Z.ltb_ge; lia. }
  rewrite E. change (Dates.days_in_month (Dates.year d) 1) with 31.
  rewrite Z.min_r by lia.
  apply add_days_zero. apply (january_valid d Hv).
Qed.

Lemma ltb_january (d expiry : Dates.date) :
  1 <= Dates.month d ->
  Dates.ltb d expiry = true -> Dates.ltb (january_of d) expiry = true.
Proof.
  unfold Dates.ltb, january_of. cbn [Dates.year Dates.month Dates.day]. lia.
Qed.

(** A pattern that is neither weekly (1) nor yearly (3) leaves the date where
    it is or takes it to January of its year. *)
Lemma advance_times_stays (n : nat) (pattern : Z) (d : Dates.date) :
  pattern <> 1 -> pattern <> 3 -> Dates.valid d = true ->
  advance_times n pattern d = Ok d \/ advance_times n pattern d = Ok (january_of d).
Proof.
  intros H1 H3. revert d. induction n as [|n IH]; intros d Hv; cbn.
  - now left.
  - unfold advance_once.
    apply Z.eqb_neq in H1. apply Z.eqb_neq in H3. rewrite H1, H3.
    destruct (pattern =? 2).
    + rewrite add_month_keyword by assumption. cbn [rbind].
      destruct (IH (january_of d) (january_valid d Hv)) as [E|E]; rewrite E.
      * now right.
      * now right.
    + cbn [rbind]. apply IH. exact Hv.
Qed.

(** The monthly step, as the code spells it: the next due date is the same
    day in January of the same year, which is never after the date it
    started from. *)
Theorem monthly_next_due_date_is_january (self : ProposalRequirement) (n : Z)
    (d : Dates.date) :
  req_recurrence_pattern self = 2 ->
  req_recurrence_schedule self = Some n -> 1 <= n ->
  Dates.valid d = true ->
  get_next_due_date self d = Ok (january_of d)
  /\ Dates.leb (january_of d) d = true.
Proof.
  intros Hp Hs Hn Hv. split.
  - unfold get_next_due_date. rewrite Hs, Hp.
    destruct (Z.to_nat n) as [|k] eqn:E; [lia|].
    cbn [advance_times]. unfold advance_once. cbn [Z.eqb Pos.eqb].
    rewrite add_month_keyword by assumption. cbn [rbind].
    destruct (advance_times_stays k 2 (january_of d)) as [H|H];
      try lia; try (now apply january_valid); exact H.
  - apply valid_bounds in Hv.
    unfold Dates.leb, Dates.ltb, Dates.eqb, january_of.
    cbn [Dates.year Dates.month Dates.day]. lia.
Qed.

(** Witness of [monthly_next_due_date_is_january]: from 15 March 2024 the
    "next" monthly due date is 15 January 2024. *)
Lemma monthly_next_due_date_is_january_witness :
  get_next_due_date MonthlyScenario.requirement (Dates.mkDate 2024 3 15)
  = Ok (Dates.mkDate 2024 1 15).
Proof.
  exact (proj1 (monthly_next_due_date_is_january MonthlyScenario.requirement 1
                  (Dates.mkDate 2024 3 15) eq_refl eq_refl
                  (Z.le_refl 1) eq_refl)).
Defined.

(** The loop never leaves normally while the pattern cannot advance. *)
Lemma recurrence_loop_never_returns (fuel : nat) (self approval : Z)
    (expiry_date : Dates.date) (req : ProposalRequirement) (request : Request) :
  req_recurrence_pattern req <> 1 -> req_recurrence_pattern req <> 3 ->
  forall (current_date : Dates.date) (w w' : World),
    Dates.valid current_date = true ->
    Dates.ltb current_date expiry_date = true ->
    recurrence_loop fuel self approval expiry_date req request current_date w
    <> Some (Ok tt, w').
Proof.
  intros H1 H3. induction fuel as [|fuel IH]; intros cur w w' Hv Hlt;
    cbn [recurrence_loop]; rewrite Hlt; cbn [negb].
  - discriminate.
  - unfold advance_schedule. destruct (req_recurrence_schedule req) as [n|];
      [|discriminate].
    assert (Hnext : exists next,
               advance_times (Z.to_nat n) (req_recurrence_pattern req) cur = Ok next
               /\ Dates.valid next = true
               /\ Dates.ltb next expiry_date = true).
    { destruct (advance_times_stays (Z.to_nat n) _ cur H1 H3 Hv) as [E|E];
        rewrite E; eexists; split; try reflexivity; split; auto.
      - now apply january_valid.
      - apply ltb_january; [|exact Hlt]. apply valid_bounds in Hv. lia. }
    destruct Hnext as (next & -> & Hvn & Hltn).
    destruct (if Dates.leb next expiry_date then _ else _) as [[u|e] w1].
    + apply IH; assumption.
    + discriminate.
Qed.

Lemma generate_for_requirement_blocked (fuel : nat) (self : Z) (approval : Approval)
    (req : ProposalRequirement) (request : Request) (w w' : World) :
  blocks req approval request ->
  generate_for_requirement fuel self approval req request w <> Some (Ok tt, w').
Proof.
  intros (Hrec & H1 & H3 & due & expiry & Hdue & Hv & Htoday & Hexp & Hlt).
  unfold generate_for_requirement. rewrite Hdue, Htoday.
  destruct (get_or_create_compliance _ _ _ _ _ _) as [[u|e] w1]; [|discriminate].
  rewrite Hrec, Hexp. now apply recurrence_loop_never_returns.
Qed.

Lemma generate_for_requirements_blocked (fuel : nat) (self : Z) (approval : Approval)
    (reqs : list ProposalRequirement) (req : ProposalRequirement)
    (request : Request) :
  In req reqs -> blocks req approval request ->
  forall w w', generate_for_requirements fuel self approval reqs request w
               <> Some (Ok tt, w').
Proof.
  intros Hin Hb. induction reqs as [|r reqs IH]; [contradiction|].
  intros w w'. cbn [generate_for_requirements].
  destruct Hin as [->|Hin].
  - pose proof (generate_for_requirement_blocked fuel self approval req request w) as Hg.
    destruct (generate_for_requirement fuel self approval req request w)
      as [[[[]|e] w1]|]; try discriminate.
    exfalso. now apply (Hg w1).
  - destruct (generate_for_requirement fuel self approval r request w)
      as [[[u|e] w1]|]; try discriminate.
    now apply IH.
Qed.

(** A live requirement of the proposal whose recurrence pattern is monthly
    (or any value other than weekly and yearly), due today or later and
    before the approval expires, keeps [generate_compliances] from ever
    returning normally: for every number of loop iterations allowed, the
    run is still in the loop or has raised. *)
Theorem generate_compliances_blocked_by_monthly
    (generate_gross_turnover_compliances : Z -> M unit) (fuel : nat)
    (self : Proposal) (approval : Approval) (req : ProposalRequirement)
    (request : Request) (w w' : World) :
  In req (requirements (db w)) ->
  req_proposal req = id self ->
  req_is_deleted req = false ->
  gross_turnover_required (db w) req = false ->
  blocks req approval request ->
  generate_compliances generate_gross_turnover_compliances fuel self approval
                       request w
  <> Some (Ok tt, w').
Proof.
  intros Hin Hp Hdel Hgt Hb. unfold generate_compliances.
  set (reqs := sort_by_order _).
  assert (Hreq : In req reqs).
  { unfold reqs. apply In_sort_by_order. apply filter_In. split; [exact Hin|].
    rewrite Hp, Z.eqb_refl, Hdel, Hgt. reflexivity. }
  pose proof (generate_for_requirements_blocked fuel (id self) approval reqs req
                request Hreq Hb w) as Hg.
  destruct (generate_for_requirements fuel (id self) approval reqs request w)
    as [[[[]|e] w1]|]; try discriminate.
  exfalso. now apply (Hg w1).
Qed.

(** Witness of [generate_compliances_blocked_by_monthly]: the requirement
    due on 2024-03-15 recurring every month until 2025-03-15. *)
Lemma generate_compliances_blocked_by_monthly_witness :
  generate_compliances (fun _ => ret tt) 1000 MonthlyScenario.proposal
                       MonthlyScenario.the_approval MonthlyScenario.request
                       MonthlyScenario.world0
  <> Some (Ok tt, MonthlyScenario.world2).
Proof.
  apply (generate_compliances_blocked_by_monthly (fun _ => ret tt) 1000
           MonthlyScenario.proposal MonthlyScenario.the_approval
           MonthlyScenario.requirement MonthlyScenario.request
           MonthlyScenario.world0 MonthlyScenario.world2).
  - now left.
  - reflexivity.
  - reflexivity.
  - reflexivity.
  - repeat split; try discriminate.
    exists MonthlyScenario.due, MonthlyScenario.expiry. repeat split.
Defined.

End RecurrenceFacts.

(** ** The compliance generator: yearly recurrence and get-or-create *)

Module GeneratorFacts.
Import Proposals MonadFacts DateFacts RecurrenceFacts.

Lemma min_day_valid (y m dd : Z) :
  1 <= y <= 9999 -> 1 <= m <= 12 -> 1 <= dd ->
  Dates.valid (Dates.mkDate y m (Z.min (Dates.days_in_month y m) dd)) = true.
Proof.
  intros Hy Hm Hd. pose proof (days_in_month_bounds y m).
  apply valid_intro; lia.
Qed.

(** [d + relativedelta(years=1)]: the next year, the day clamped to the
    month's length; past year 9999 it is a [ValueError]. *)
Lemma add_years_keyword (d : Dates.date) :
  Dates.valid d = true ->
  (Dates.year d < 9999 ->
   Dates.add_relativedelta d (Dates.rd_years_kw 1)
   = Ok (Dates.mkDate (Dates.year d + 1) (Dates.month d)
           (Z.min (Dates.days_in_month (Dates.year d + 1) (Dates.month d))
                  (Dates.day d))))
  /\ (Dates.year d = 9999 ->
      Dates.add_relativedelta d (Dates.rd_years_kw 1) = Raise ValueError).
Proof.
  intros Hv. pose proof (valid_bounds d Hv) as (Hy & Hm & Hd).
  unfold Dates.add_relativedelta, Dates.rd_years_kw, Dates.MINYEAR, Dates.MAXYEAR.
  cbn [Dates.rd_year Dates.rd_years Dates.rd_month Dates.rd_months Dates.rd_day
       Dates.rd_days Dates.or_else].
  change (0 =? 0) with true. cbv iota. split; intros Hyear.
  - assert (E : (Dates.year d + 1 <? 1) || (9999 <? Dates.year d + 1) = false)
      by lia.
    rewrite E. apply add_days_zero. apply min_day_valid; lia.
  - assert (E : (Dates.year d + 1 <? 1) || (9999 <? Dates.year d + 1) = true)
      by lia.
    now rewrite E.
Qed.

(** Stepping [n] years: an error, or a date that exists, [n] years on. *)
Lemma advance_times_yearly (n : nat) (d : Dates.date) :
  Dates.valid d = true ->
  (exists e, advance_times n 3 d = Raise e)
  \/ (exists next, advance_times n 3 d = Ok next
                   /\ Dates.valid next = true
                   /\ Dates.year next = Dates.year d + Z.of_nat n).
Proof.
  revert d. induction n as [|n IH]; intros d Hv.
  - right. exists d. cbn [advance_times]. repeat split; auto. lia.
  - cbn [advance_times]. unfold advance_once. cbn [Z.eqb Pos.eqb].
    pose proof (valid_bounds d Hv) as (Hy & Hm & Hd).
    destruct (add_years_keyword d Hv) as [Hlt Heq].
    destruct (Z.eq_dec (Dates.year d) 9999) as [E|E].
    + left. rewrite (Heq E). cbn [rbind]. eauto.
    + rewrite Hlt by lia. cbn [rbind].
      set (next := Dates.mkDate _ _ _).
      assert (Hvn : Dates.valid next = true) by (apply min_day_valid; lia).
      destruct (IH next Hvn) as [[e He]|(nn & Hn & Hvv & Hyy)].
      * left. eauto.
      * right. exists nn. repeat split; auto.
        rewrite Hyy. unfold next. cbn [Dates.year]. lia.
Qed.

Lemma ltb_false_by_year (a b : Dates.date) :
  Dates.year b < Dates.year a -> Dates.ltb a b = false.
Proof. unfold Dates.ltb. lia. Qed.

(** A requirement recurring yearly (every [n >= 1] years): the loop leaves,
    normally or by an exception, within one more iteration than there are
    years between the working date and the expiry date. *)
Theorem yearly_recurrence_terminates (self approval : Z)
    (expiry_date : Dates.date) (req : ProposalRequirement) (request : Request)
    (n : Z) :
  req_recurrence_pattern req = 3 ->
  req_recurrence_schedule req = Some n -> 1 <= n ->
  forall (fuel : nat) (current_date : Dates.date) (w : World),
    Dates.valid current_date = true ->
    Dates.year expiry_date + 1 - Dates.year current_date <= Z.of_nat fuel ->
    recurrence_loop fuel self approval expiry_date req request current_date w
    <> None.
Proof.
  intros Hp Hs Hn. induction fuel as [|fuel IH]; intros cur w Hv Hk;
    cbn [recurrence_loop].
  - rewrite ltb_false_by_year by lia. discriminate.
  - destruct (Dates.ltb cur expiry_date) eqn:Hlt; cbn [negb]; [|discriminate].
    unfold advance_schedule. rewrite Hs, Hp.
    destruct (advance_times_yearly (Z.to_nat n) cur Hv)
      as [[e He]|(next & Hnext & Hvn & Hy)]; [rewrite He; discriminate|].
    rewrite Hnext.
    destruct (if Dates.leb next expiry_date then _ else _) as [[u|e] w1];
      [|discriminate].
    apply IH; [exact Hvn|]. rewrite Hy. lia.
Qed.

(** Witness of [yearly_recurrence_terminates]: from 2024-03-15 to an expiry
    on 2025-03-15, two iterations are enough. *)
Lemma yearly_recurrence_terminates_witness :
  recurrence_loop 2 9 3 MonthlyScenario.expiry MonthlyScenario.yearly_requirement
                  MonthlyScenario.request MonthlyScenario.due
                  MonthlyScenario.world1
  <> None.
Proof.
  apply (yearly_recurrence_terminates 9 3 MonthlyScenario.expiry
           MonthlyScenario.yearly_requirement MonthlyScenario.request 1
           eq_refl eq_refl (Z.le_refl 1) 2 MonthlyScenario.due
           MonthlyScenario.world1 eq_refl).
  discriminate.
Defined.

Lemma dates_eqb_refl (d : Dates.date) : Dates.eqb d d = true.
Proof. unfold Dates.eqb. now rewrite !Z.eqb_refl. Qed.

(** Get-or-create keyed on (requirement, due date): when the call returns,
    exactly one compliance is recorded for the pair, and calling again
    changes nothing. *)
Theorem get_or_create_compliance_idempotent (self approval : Z)
    (req : ProposalRequirement) (due_date : Dates.date) (request : Request)
    (w w1 : World) :
  get_or_create_compliance self approval req due_date request w = (Ok tt, w1) ->
  List.length (compliances_for (req_id req) due_date (db w1)) = 1%nat
  /\ get_or_create_compliance self approval req due_date request w1 = (Ok tt, w1).
Proof.
  unfold get_or_create_compliance, compliances_for, bind, get_db.
  set (matches := fun c : Compliance =>
                    (c_requirement c =? req_id req)
                    && Dates.eqb (c_due_date c) due_date).
  destruct (filter matches (compliances (db w))) as [|c [|c' l]] eqn:E;
    cbn [get_one].
  - unfold modify_db, ret. cbn [db outbox]. intros H. inversion H; subst w1.
    cbn [db compliances set_compliances set_user_actions].
    rewrite filter_app, E. cbn [filter app].
    assert (Em : matches (mkCompliance (next_id (map c_id (compliances (db w))))
                            self approval (req_id req) due_date COMPLIANCE_FUTURE)
                 = true).
    { unfold matches. cbn [c_requirement c_due_date].
      now rewrite Z.eqb_refl, dates_eqb_refl. }
    rewrite Em. cbn [get_one List.length]. split; reflexivity.
  - unfold ret. intros H. inversion H; subst w1. rewrite E. split; reflexivity.
  - unfold raise. discriminate.
Qed.

(** Witness of [get_or_create_compliance_idempotent]: the first compliance
    of the monthly scenario. *)
Lemma get_or_create_compliance_idempotent_witness :
  get_or_create_compliance 9 3 MonthlyScenario.requirement MonthlyScenario.due
                           MonthlyScenario.request MonthlyScenario.world1
  = (Ok tt, MonthlyScenario.world1).
Proof.
  exact (proj2 (get_or_create_compliance_idempotent 9 3
                  MonthlyScenario.requirement MonthlyScenario.due
                  MonthlyScenario.request MonthlyScenario.world0
                  MonthlyScenario.world1 eq_refl)).
Defined.

End GeneratorFacts.

(** ** Saving a new requirement *)

Module RequirementFacts.
Import Proposals MonadFacts.

(** [MAX(req_order)] bounds every order of the proposal; it is [NULL] only
    when every order of the proposal is. *)
Lemma max_req_order_bound (p : Z) (l : list ProposalRequirement) :
  match max_req_order p l with
  | Some m => forall x, In x l -> req_proposal x = p ->
                        forall o, req_order x = Some o -> o <= m
  | None => forall x, In x l -> req_proposal x = p -> req_order x = None
  end.
Proof.
  induction l as [|r l IH]; cbn [max_req_order fold_right].
  - intros x [].
  - fold (max_req_order p l).
    destruct (req_proposal r =? p) eqn:Ep.
    + destruct (req_order r) as [o|] eqn:Eo;
        destruct (max_req_order p l) as [m|].
      * intros x [<-|Hin] Hx o' Ho'.
        -- rewrite Eo in Ho'. inversion Ho'. lia.
        -- specialize (IH x Hin Hx o' Ho'). lia.
      * intros x [<-|Hin] Hx o' Ho'.
        -- rewrite Eo in Ho'. inversion Ho'. lia.
        -- rewrite (IH x Hin Hx) in Ho'. discriminate.
      * intros x [<-|Hin] Hx o' Ho'.
        -- rewrite Eo in Ho'. discriminate.
        -- exact (IH x Hin Hx o' Ho').
      * intros x [<-|Hin] Hx; [exact Eo | exact (IH x Hin Hx)].
    + destruct (max_req_order p l) as [m|].
      * intros x [<-|Hin] Hx; [lia | exact (IH x Hin Hx)].
      * intros x [<-|Hin] Hx; [lia | exact (IH x Hin Hx)].
Qed.

Lemma unique_req_order_snoc (l : list ProposalRequirement) (r : ProposalRequirement) :
  unique_req_order l = true ->
  (forall x, In x l -> same_req_order x r = false) ->
  unique_req_order (l ++ [r]) = true.
Proof.
  induction l as [|x l IH]; intros Hu Hr; cbn [unique_req_order app existsb].
  - reflexivity.
  - cbn [unique_req_order] in Hu. apply andb_prop in Hu as [Hx Hl].
    rewrite existsb_app. cbn [existsb].
    rewrite (Hr x (or_introl eq_refl)). cbn [orb]. rewrite orb_false_r, Hx.
    cbn [negb andb]. apply IH; [exact Hl|].
    intros y Hy. apply Hr. now right.
Qed.

(** The order a new requirement is given is above every order the proposal
    already uses. *)
Lemma fresh_order_above (p : Z) (l : list ProposalRequirement)
    (x : ProposalRequirement) (o : Z) :
  In x l -> req_proposal x = p -> req_order x = Some o ->
  o < match max_req_order p l with
      | None => 1
      | Some m => if m =? 0 then 1 else m + 1
      end.
Proof.
  intros Hin Hp Ho. pose proof (max_req_order_bound p l) as Hb.
  destruct (max_req_order p l) as [m|].
  - specialize (Hb x Hin Hp o Ho). destruct (m =? 0) eqn:E; lia.
  - rewrite (Hb x Hin Hp) in Ho. discriminate.
Qed.

(** Saving a requirement for the first time appends one row, under the key
    the instance comes back with, whose order is above every order its
    proposal already uses; the uniqueness of (proposal, req_order) is kept. *)
Theorem insert_requirement_keeps_unique_order (r r' : ProposalRequirement)
    (w w' : World) :
  insert_requirement r w = (Ok r', w') ->
  requirements (db w') = requirements (db w) ++ [r']
  /\ req_proposal r' = req_proposal r
  /\ (forall x o, In x (requirements (db w)) ->
                  req_proposal x = req_proposal r -> req_order x = Some o ->
                  exists o', req_order r' = Some o' /\ o < o')
  /\ (unique_req_order (requirements (db w)) = true ->
      unique_req_order (requirements (db w')) = true).
Proof.
  unfold insert_requirement, bind, get_db.
  destruct r as [i p sr fr dd rd rc rp rs cf del cr rdd ord].
  cbn [req_proposal req_free_requirement req_standard_requirement set_req_order
       set_req_id].
  destruct (negb (truthy_string fr) && negb (truthy_obj sr)); [discriminate|].
  unfold modify_db, ret. intros H. inversion H; subst r' w'; clear H.
  unfold set_req_id, set_req_order.
  cbn [db requirements set_requirements req_proposal req_order].
  assert (Hfresh : forall x o, In x (requirements (db w)) ->
            req_proposal x = p -> req_order x = Some o ->
            o < match max_req_order p (requirements (db w)) with
                | None => 1
                | Some m => if m =? 0 then 1 else m + 1
                end)
    by (intros x o; exact (fresh_order_above p _ x o)).
  repeat split.
  - intros x o Hin Hp Ho. eexists. split; [reflexivity|]. exact (Hfresh x o Hin Hp Ho).
  - intros Hu. apply unique_req_order_snoc; [exact Hu|].
    intros x Hin. unfold same_req_order, set_req_id, set_req_order.
    cbn [req_proposal req_order].
    destruct (req_proposal x =? p) eqn:Ep; [|reflexivity].
    destruct (req_order x) as [o|] eqn:Eo; [|reflexivity].
    cbn [andb]. specialize (Hfresh x o Hin ltac:(lia) Eo). lia.
Qed.

(** Witness of [insert_requirement_keeps_unique_order]: a second requirement
    for proposal 9 of the monthly scenario is given order 2. *)
Lemma insert_requirement_keeps_unique_order_witness :
  unique_req_order
    (requirements
       (db (snd (insert_requirement (set_req_id MonthlyScenario.requirement 0)
                                    MonthlyScenario.world0))))
  = true.
Proof.
  apply (insert_requirement_keeps_unique_order
           (set_req_id MonthlyScenario.requirement 0)
           (set_req_order (set_req_id MonthlyScenario.requirement 22) (Some 2))
           MonthlyScenario.world0
           (snd (insert_requirement (set_req_id MonthlyScenario.requirement 0)
                                    MonthlyScenario.world0))
           eq_refl).
  reflexivity.
Defined.

End RequirementFacts.

(** ** Completing a referral of a proposal without applicant *)

Module ReferralErrorFacts.
Import Proposals MonadFacts.

Section NoApplicant.

Variable has_log_user_action : ApplicantValue -> bool.

(** A proposal with no organisation, individual or proxy applicant: its
    [applicant] is the string ["No Applicant"], which has no
    [log_user_action]; [Referral.complete] raises [AttributeError] and the
    transaction leaves every table as it was, with no notification sent. *)
Theorem complete_without_applicant (request : Request) (self : Referral)
    (p : Proposal) (w : World) :
  filter (fun q => id q =? ref_proposal self) (proposals (db w)) = [p] ->
  org_applicant p = None ->
  truthy_int (ind_applicant p) = false ->
  truthy_int (proxy_applicant p) = false ->
  complete has_log_user_action request self w = (Raise AttributeError, w).
Proof.
  intros Hp Horg Hind Hproxy.
  assert (Happ : forall d0, applicant d0 p = Ok (PlainString "No Applicant")).
  { intros d0. unfold applicant. now rewrite Horg, Hind, Hproxy. }
  destruct w as [d out].
  unfold complete, add_referral_document.
  destruct (referral_document request) as [doc|].
  - unfold atomic at 1 2, bind at 1 2 3, save_referral, modify_db.
    cbn [db outbox ref_proposal set_ref_document set_ref_processing_status].
    rewrite get_proposal_found with (p := p)
      by (cbn [db proposals set_referrals]; exact Hp).
    unfold bind, log_user_action, modify_db, applicant_field_log_user_action.
    rewrite Horg. reflexivity.
  - unfold atomic at 1 2, bind at 1 2 3, ret, save_referral, modify_db.
    cbn [db outbox ref_proposal set_ref_processing_status].
    rewrite get_proposal_found with (p := p)
      by (cbn [db proposals set_referrals]; exact Hp).
    unfold bind, log_user_action, modify_db, get_db, lift. cbn [db].
    rewrite Happ. reflexivity.
Qed.

End NoApplicant.

(** Witness of [complete_without_applicant]: the only referral of proposal 12
    cannot be completed. *)
Lemma complete_without_applicant_witness :
  complete (fun _ => true) OrphanScenario.request OrphanScenario.referral
           OrphanScenario.world0
  = (Raise AttributeError, OrphanScenario.world0).
Proof.
  exact (complete_without_applicant (fun _ => true) OrphanScenario.request
           OrphanScenario.referral OrphanScenario.proposal
           OrphanScenario.world0 eq_refl eq_refl eq_refl eq_refl).
Defined.

End ReferralErrorFacts.

(** ** The ledger: how a recorded transaction and a payment move balances *)

Module LedgerFacts.
Import Decimals Invoicing InvoicingFacts.

Lemma sum_cents_app (l1 l2 : list Z) :
  sum_cents (l1 ++ l2) = sum_cents l1 + sum_cents l2.
Proof.
  unfold sum_cents. induction l1 as [|x l1 IH]; cbn [app fold_right]; lia.
Qed.

(** Totals after one more transaction [t]. *)
Lemma totals_snoc (i : Invoice) (txs : list InvoiceTransaction)
    (t : InvoiceTransaction) :
  total_credit i (txs ++ [t])
  = total_credit i txs + (if tx_invoice t =? inv_id i then tx_credit t else 0)
  /\ total_debit i (txs ++ [t])
     = total_debit i txs + (if tx_invoice t =? inv_id i then tx_debit t else 0).
Proof.
  unfold total_credit, total_debit, transactions_of.
  rewrite filter_app, !map_app, !sum_cents_app. cbn [filter].
  destruct (tx_invoice t =? inv_id i); cbn [map sum_cents fold_right]; lia.
Qed.

Section RecordedTransaction.

Variable Payload : Type.
Variable validate : Payload -> option (Z * Z).

(** A transaction recorded by a finance officer is appended to the ledger,
    whatever the balance comes to; it moves the balance of its invoice by
    credit minus debit and the balance of no other invoice. *)
Theorem record_transaction_moves_balance (req : Request Payload) (pk : Z)
    (w : World) (inv : Invoice) (rest : list Invoice) (credit debit a : Z) :
  is_finance_officer req = true ->
  invoices_by_id pk (invoices w) = inv :: rest ->
  validate (data req) = Some (credit, debit) ->
  inv_amount inv = Some a ->
  let w' := snd (record_transaction validate req pk w) in
  transactions w'
  = transactions w ++ [mkTx (next_tx_id (transactions w)) pk credit debit]
  /\ forall (i : Invoice) (b : Z),
       inv_amount i = Some b ->
       balance i (transactions w')
       = Ok (of_cents
               (b + total_credit i (transactions w)
                - total_debit i (transactions w)
                + (if inv_id i =? pk then credit - debit else 0))).
Proof.
  intros Hfo Hinv Hval Ha w'.
  assert (Hid : inv_id inv = pk).
  { apply (invoices_by_id_In pk (invoices w)). rewrite Hinv. now left. }
  assert (Htx : transactions w'
                = transactions w
                  ++ [mkTx (next_tx_id (transactions w)) pk credit debit]).
  { unfold w', record_transaction. rewrite Hfo, Hinv, Hval.
    cbn [negb tx_invoice invoices transactions]. rewrite Hid, Hinv.
    rewrite (balance_cents inv _ a Ha).
    destruct (eqb zero_00 _); reflexivity. }
  split; [exact Htx|].
  intros i b Hb. rewrite Htx, (balance_cents i _ b Hb).
  destruct (totals_snoc i (transactions w)
              (mkTx (next_tx_id (transactions w)) pk credit debit)) as [Hc Hd].
  rewrite Hc, Hd. cbn [tx_invoice tx_credit tx_debit].
  rewrite (Z.eqb_sym pk (inv_id i)).
  destruct (inv_id i =? pk); do 2 f_equal; lia.
Qed.

End RecordedTransaction.

(** Witness of [record_transaction_moves_balance]: a part payment of 40.00
    on an invoice of 100.00 leaves 60.00. *)
Lemma record_transaction_moves_balance_witness :
  let inv := mkInvoice 1 "a3f1" 7 (Some INVOICE_STATUS_UNPAID) (Some 10000) None in
  let w := mkWorld [inv] [] [] in
  let req := mkRequest true (0, 4000) in
  balance inv (transactions (snd (record_transaction (fun p => Some p) req 1 w)))
  = Ok (of_cents 6000).
Proof.
  intros inv w req.
  exact (proj2 (record_transaction_moves_balance (Z * Z)%type (fun p => Some p)
                  req 1 w inv [] 0 4000 10000 eq_refl eq_refl eq_refl eq_refl)
               inv 10000 eq_refl).
Defined.

(** The callback for the one invoice of a UUID, unpaid. *)
Lemma callback_on_unpaid (now : Z) (uuid : string) (w : World) (inv : Invoice)
    (a : Z) :
  uuid <> "" ->
  invoices_by_uuid uuid (invoices w) = [inv] ->
  inv_status inv = Some INVOICE_STATUS_UNPAID ->
  inv_amount inv = Some a ->
  Z.abs a < 1000000000 ->
  pay_invoice_success_get now uuid w
  = (Ok (mkResponse HTTP_200_OK BodyEmpty), paid_world now inv a w).
Proof.
  intros Hne Huuid Hst Ham Hbound.
  unfold pay_invoice_success_get, atomic, get_invoice_by_uuid.
  rewrite Huuid. cbn [existsb]. unfold is_unpaid at 1. rewrite Hst.
  cbn [status_eqb orb].
  apply String.eqb_neq in Hne. rewrite Hne. cbn [negb andb]. rewrite Ham.
  assert (Hb : (1000000000 <=? Z.abs a) = false) by lia.
  rewrite Hb. unfold paid_world, send_notification.
  cbn [invoices transactions outbox].
  rewrite <- app_assoc. reflexivity.
Qed.

(** The payment callback debits the full amount of the invoice, whatever was
    recorded before.  For an unpaid invoice that is the only invoice of its
    (non-empty) UUID, with its amount set and below 10,000,000.00 in absolute
    value: after the call the invoice is still there under its UUID, every
    invoice of the UUID is marked paid, and its balance is the credits minus
    the debits recorded against it before the call, which is zero only when
    these were equal. *)
Theorem payment_callback_balance (now : Z) (uuid : string) (w : World)
    (inv : Invoice) (a : Z) :
  uuid <> "" ->
  invoices_by_uuid uuid (invoices w) = [inv] ->
  inv_status inv = Some INVOICE_STATUS_UNPAID ->
  inv_amount inv = Some a ->
  Z.abs a < 1000000000 ->
  let w' := snd (pay_invoice_success_get now uuid w) in
  (exists i, In i (invoices_by_uuid uuid (invoices w'))
             /\ inv_id i = inv_id inv)
  /\ forall i, In i (invoices_by_uuid uuid (invoices w')) ->
        inv_id i = inv_id inv
        /\ inv_status i = Some INVOICE_STATUS_PAID
        /\ inv_date_paid i = Some now
        /\ balance i (transactions w')
           = Ok (of_cents (credits_of (inv_id inv) (transactions w)
                           - debits_of (inv_id inv) (transactions w))).
Proof.
  intros Hne Huuid Hst Ham Hbound w'.
  unfold w' in *.
  rewrite (callback_on_unpaid now uuid w inv a Hne Huuid Hst Ham Hbound) in *.
  cbn [snd] in *. unfold paid_world in *. cbn [invoices transactions] in *.
  assert (Hinv : In inv (invoices w) /\ String.eqb (inv_uuid inv) uuid = true).
  { apply (proj1 (filter_In (fun i => String.eqb (inv_uuid i) uuid) inv
                              (invoices w))).
    fold (invoices_by_uuid uuid (invoices w)). rewrite Huuid. now left. }
  destruct Hinv as [Hinv Hu].
  split.
  - exists (set_date_paid (set_status inv INVOICE_STATUS_PAID) now).
    split; [|reflexivity].
    unfold invoices_by_uuid. apply filter_In. split; [|exact Hu].
    unfold save_invoice. apply in_map_iff. exists inv.
    split; [|exact Hinv].
    cbn [inv_id set_date_paid set_status]. now rewrite Z.eqb_refl.
  - intros i Hi.
    unfold invoices_by_uuid in Hi. apply filter_In in Hi as [Hi Hiu].
    unfold save_invoice in Hi. apply in_map_iff in Hi as (r & Hr & Hin).
    cbn [inv_id set_date_paid set_status] in Hr.
    destruct (inv_id r =? inv_id inv) eqn:E.
    + subst i. split; [reflexivity|]. split; [reflexivity|].
      split; [reflexivity|].
      rewrite (balance_of_ledger _ _ a) by exact Ham.
      cbn [inv_id set_date_paid set_status].
      rewrite <- !total_credit_credits_of, <- !total_debit_debits_of.
      destruct (totals_snoc inv (transactions w)
                  (mkTx (next_tx_id (transactions w)) (inv_id inv) 0 a))
        as [Hc Hd].
      rewrite Hc, Hd. cbn [tx_invoice tx_credit tx_debit].
      rewrite Z.eqb_refl. do 2 f_equal. lia.
    + subst i.
      rewrite (by_uuid_singleton uuid (invoices w) inv Huuid r Hin Hiu) in E.
      rewrite Z.eqb_refl in E. discriminate.
Qed.

(** Witness of [payment_callback_balance]: an invoice of 250.00 on which
    100.00 was already paid, next to another invoice with its own debit;
    after the callback the balance is -100.00. *)
Lemma payment_callback_balance_witness :
  let inv := mkInvoice 4 "9b2e" 7 (Some INVOICE_STATUS_UNPAID) (Some 25000) None in
  let other := mkInvoice 5 "77aa" 7 (Some INVOICE_STATUS_UNPAID) (Some 3000) None in
  let w := mkWorld [inv; other] [mkTx 1 4 0 10000; mkTx 2 5 0 3000] [] in
  let w' := snd (pay_invoice_success_get 1700000000 "9b2e" w) in
  balance (mkInvoice 4 "9b2e" 7 (Some INVOICE_STATUS_PAID) (Some 25000)
                     (Some 1700000000))
          (transactions w')
  = Ok (of_cents (-10000)).
Proof.
  intros inv other w w'.
  assert (Hne : "9b2e" <> "") by discriminate.
  assert (Hb : Z.abs 25000 < 1000000000) by reflexivity.
  exact (proj2 (proj2 (proj2
           (proj2 (payment_callback_balance 1700000000 "9b2e" w inv 25000
                     Hne eq_refl eq_refl eq_refl Hb)
                  (mkInvoice 4 "9b2e" 7 (Some INVOICE_STATUS_PAID) (Some 25000)
                             (Some 1700000000))
                  (or_introl eq_refl))))).
Defined.

End LedgerFacts.

(** ** Gross-turnover requirements: what an update never does *)

Module GrossTurnoverFacts.
Import Proposals MonadFacts.

Lemma requirements_kept_refl (w : World) : requirements_kept w w.
Proof.
  split; [split; reflexivity|]. exists []. now rewrite app_nil_r.
Qed.

Lemma requirements_kept_trans (w1 w2 w3 : World) :
  requirements_kept w1 w2 -> requirements_kept w2 w3 -> requirements_kept w1 w3.
Proof.
  intros [[Hd1 Ho1] [e1 He1]] [[Hd2 Ho2] [e2 He2]]. split; [split|].
  - now rewrite Hd2.
  - now rewrite Ho2.
  - exists (e1 ++ e2). now rewrite He2, He1, app_assoc.
Qed.

Lemma keeps_ret {A : Type} (a : A) : keeps_requirements (ret a).
Proof. intros w. apply requirements_kept_refl. Qed.

Lemma keeps_raise {A : Type} (e : Exn) : keeps_requirements (@raise A e).
Proof. intros w. apply requirements_kept_refl. Qed.

Lemma keeps_lift {A : Type} (r : result A) : keeps_requirements (lift r).
Proof. intros w. apply requirements_kept_refl. Qed.

Lemma keeps_get_db : keeps_requirements get_db.
Proof. intros w. apply requirements_kept_refl. Qed.

Lemma keeps_bind {A B : Type} (m : M A) (k : A -> M B) :
  keeps_requirements m -> (forall a, keeps_requirements (k a)) ->
  keeps_requirements (bind m k).
Proof.
  intros Hm Hk w. unfold bind. specialize (Hm w).
  destruct (m w) as [[a|e] w1]; cbn [snd] in *.
  - eapply requirements_kept_trans; [exact Hm | apply Hk].
  - exact Hm.
Qed.

(** Rewriting the requirements with rows of the same keys, and appending. *)
Lemma keeps_rewrite (f : DB -> list ProposalRequirement) :
  (forall d, exists extra,
      map req_id (f d) = map req_id (requirements d) ++ extra) ->
  keeps_requirements (modify_db (fun d => set_requirements d (f d))).
Proof.
  intros Hf w. unfold modify_db. cbn [snd]. split; [split|].
  - destruct (db w); reflexivity.
  - reflexivity.
  - unfold requirement_ids. cbn [db]. destruct (Hf (db w)) as [extra He].
    exists extra. destruct (db w); exact He.
Qed.

Lemma keeps_soft_delete (selected : DB -> ProposalRequirement -> bool) :
  keeps_requirements (soft_delete selected).
Proof.
  apply keeps_rewrite. intros d. exists []. rewrite app_nil_r, map_map.
  apply map_ext. intros r. now destruct (selected d r).
Qed.

Lemma save_row_ids (x : ProposalRequirement) (l : list ProposalRequirement) :
  exists extra, map req_id (save_row req_id x l) = map req_id l ++ extra.
Proof.
  unfold save_row. destruct (existsb _ l).
  - exists []. rewrite app_nil_r, map_map. apply map_ext. intros r.
    destruct (req_id r =? req_id x) eqn:E; [|reflexivity].
    symmetry. now apply Z.eqb_eq.
  - exists [req_id x]. now rewrite map_app.
Qed.

Lemma keeps_save_requirement (r : ProposalRequirement) :
  keeps_requirements (save_requirement r).
Proof. apply keeps_rewrite. intros d. apply save_row_ids. Qed.

Lemma keeps_insert_requirement (r : ProposalRequirement) :
  keeps_requirements (insert_requirement r).
Proof.
  unfold insert_requirement. apply keeps_bind; [apply keeps_get_db|]. intros d.
  cbv zeta.
  destruct (negb _ && negb _); [apply keeps_raise|].
  apply keeps_bind; [|intros; apply keeps_ret].
  apply keeps_rewrite. intros d'. eexists. now rewrite map_app.
Qed.

Create HintDb keeps.

#[local] Hint Resolve keeps_ret keeps_raise keeps_lift keeps_get_db
  keeps_soft_delete keeps_save_requirement keeps_insert_requirement : keeps.

(** Steps through binds, conditionals and matches. *)
Ltac keeps :=
  repeat first
    [ solve [auto with keeps]
    | apply keeps_bind; [|intro]
    | match goal with
      | |- keeps_requirements (if ?b then _ else _) => destruct b
      | |- keeps_requirements (match ?o with _ => _ end) => destruct o
      | |- keeps_requirements (let _ := _ in _) => cbv zeta
      end ].

Lemma keeps_get_or_create (matching : ProposalRequirement -> bool)
    (fresh : ProposalRequirement) :
  keeps_requirements (get_or_create_requirement matching fresh).
Proof. unfold get_or_create_requirement. keeps. Qed.

Lemma keeps_save_fetched (r : ProposalRequirement) :
  keeps_requirements (save_fetched_requirement r).
Proof. unfold save_fetched_requirement. keeps. Qed.

Lemma keeps_get_standard_requirement (code : string) :
  keeps_requirements (get_standard_requirement code).
Proof. unfold get_standard_requirement. keeps. Qed.

Lemma keeps_current_proposal_of (i : InvoicingDetails) :
  keeps_requirements (current_proposal_of i).
Proof. unfold current_proposal_of. keeps. Qed.

#[local] Hint Resolve keeps_get_or_create keeps_save_fetched
  keeps_get_standard_requirement keeps_current_proposal_of : keeps.

Section Update.

Variables ADVANCE ARREARS QUARTERLY MONTHLY : string.
Variables ANNUAL_CODE QUARTERLY_CODE MONTHLY_CODE : string.
Variable end_of_next_financial_year : option Dates.date -> result Dates.date.

Lemma keeps_ensure_requirement (self : Proposal) (code : string) :
  keeps_requirements (ensure_requirement self code).
Proof. unfold ensure_requirement. keeps. Qed.

Lemma keeps_ensure_annual_requirement (self : Proposal) :
  keeps_requirements
    (ensure_annual_requirement ANNUAL_CODE end_of_next_financial_year self).
Proof. unfold ensure_annual_requirement. keeps. Qed.

(** However [update_gross_turnover_requirements] ends, whether it returns or
    raises part way, it has touched no table but the requirements and sent
    nothing, and every requirement row is still there under its primary key:
    rows are rewritten (soft-deleted, restored, re-dated) or appended, never
    removed. *)
Theorem update_never_removes_a_requirement (self : Proposal) (w : World) :
  requirements_kept w
    (snd (update_gross_turnover_requirements ADVANCE ARREARS QUARTERLY MONTHLY
            ANNUAL_CODE QUARTERLY_CODE MONTHLY_CODE end_of_next_financial_year
            self w)).
Proof.
  revert w. change (keeps_requirements
    (update_gross_turnover_requirements ADVANCE ARREARS QUARTERLY MONTHLY
       ANNUAL_CODE QUARTERLY_CODE MONTHLY_CODE end_of_next_financial_year self)).
  pose proof keeps_ensure_requirement. pose proof keeps_ensure_annual_requirement.
  unfold update_gross_turnover_requirements. keeps.
Qed.

End Update.

End GrossTurnoverFacts.

(** ** Gross-turnover requirements: charging in advance *)

Module AdvanceFacts.
Import Proposals MonadFacts.

Lemma requirements_set (d : DB) (l : list ProposalRequirement) :
  requirements (set_requirements d l) = l.
Proof. reflexivity. Qed.

(** What [get_or_create] comes to. *)
Lemma get_or_create_requirement_cases (matching : ProposalRequirement -> bool)
    (fresh : ProposalRequirement) (w : World) :
  (exists r, filter matching (requirements (db w)) = [r]
             /\ get_or_create_requirement matching fresh w = (Ok (r, false), w))
  \/ (filter matching (requirements (db w)) = []
      /\ ((exists r w', insert_requirement fresh w = (Ok r, w')
                        /\ get_or_create_requirement matching fresh w
                           = (Ok (r, true), w'))
          \/ exists e, get_or_create_requirement matching fresh w = (Raise e, w)))
  \/ exists e, get_or_create_requirement matching fresh w = (Raise e, w).
Proof.
  unfold get_or_create_requirement, bind, get_db.
  destruct (filter matching (requirements (db w))) as [|r [|r' l]] eqn:E;
    cbn [get_one].
  - right. left. split; [reflexivity|].
    destruct (insert_requirement fresh w) as [[r|e] w'] eqn:Ei.
    + left. exists r, w'. split; reflexivity.
    + right. exists e. unfold insert_requirement, bind, get_db in Ei.
      cbv zeta in Ei.
      destruct (negb _ && negb _) in Ei; [|discriminate].
      unfold raise in Ei. now inversion Ei.
  - left. exists r. split; reflexivity.
  - right. right. eexists. reflexivity.
Qed.

(** What a first save comes to. *)
Lemma insert_requirement_row (fresh r : ProposalRequirement) (w w' : World) :
  insert_requirement fresh w = (Ok r, w') ->
  requirements (db w') = requirements (db w) ++ [r]
  /\ req_id r = next_id (requirement_ids w)
  /\ req_is_deleted r = req_is_deleted fresh
  /\ req_proposal r = req_proposal fresh
  /\ req_standard_requirement r = req_standard_requirement fresh.
Proof.
  unfold insert_requirement, bind, get_db. cbv zeta.
  destruct (negb _ && negb _); [discriminate|].
  unfold modify_db, ret. intros H. inversion H; subst r w'; clear H.
  destruct fresh. repeat split.
Qed.

Lemma next_id_above (ids : list Z) (i : Z) : In i ids -> i < next_id ids.
Proof.
  unfold next_id. induction ids as [|x ids IH]; cbn [fold_right In].
  - intros [].
  - intros [<-|H]; [|specialize (IH H)]; lia.
Qed.

Lemma NoDup_snoc_next (ids : list Z) : NoDup ids -> NoDup (ids ++ [next_id ids]).
Proof.
  intros H. apply NoDup_app; [exact H| repeat constructor; intros [] | ].
  intros i Hi [<-|[]]. pose proof (next_id_above ids _ Hi). lia.
Qed.

(** With unique primary keys, a row is known by its key. *)
Lemma row_by_id (l : list ProposalRequirement) (x y : ProposalRequirement) :
  NoDup (map req_id l) -> In x l -> In y l -> req_id x = req_id y -> x = y.
Proof.
  induction l as [|r l IH]; cbn [map In]; intros Hn Hx Hy E; [contradiction|].
  inversion Hn as [|? ? Hnotin Hn']; subst.
  destruct Hx as [<-|Hx], Hy as [<-|Hy].
  - reflexivity.
  - exfalso. apply Hnotin. rewrite E. now apply in_map.
  - exfalso. apply Hnotin. rewrite <- E. now apply in_map.
  - now apply IH.
Qed.

Lemma save_row_keeps (x y : ProposalRequirement) (l : list ProposalRequirement) :
  In y l -> req_id y <> req_id x -> In y (save_row req_id x l).
Proof.
  intros Hy Hne. unfold save_row. destruct (existsb _ l).
  - apply in_map_iff. exists y. split; [|exact Hy].
    destruct (req_id y =? req_id x) eqn:E; [|reflexivity].
    apply Z.eqb_eq in E. contradiction.
  - apply in_or_app. now left.
Qed.

(** What the save of a fetched instance comes to. *)
Lemma save_fetched_requirement_cases (r : ProposalRequirement) (w : World) :
  (exists e, save_fetched_requirement r w = (Raise e, w))
  \/ exists r', req_id r' = req_id r
                /\ save_fetched_requirement r w
                   = (Ok tt,
                      mkWorld (set_requirements (db w)
                                 (save_row req_id r' (requirements (db w))))
                              (outbox w)).
Proof.
  unfold save_fetched_requirement, bind, get_db. cbv zeta.
  destruct (negb _ && negb _).
  - left. eexists. reflexivity.
  - right. eexists. split; [|reflexivity].
    destruct (req_id r =? 0); [destruct r|]; reflexivity.
Qed.

Section Advance.

Variables ADVANCE ARREARS QUARTERLY MONTHLY : string.
Variables ANNUAL_CODE QUARTERLY_CODE MONTHLY_CODE : string.
Variable end_of_next_financial_year : option Dates.date -> result Dates.date.

Lemma ensure_annual_keeps_deleted (self : Proposal) (w : World)
    (y : ProposalRequirement) :
  NoDup (requirement_ids w) ->
  In y (requirements (db w)) -> req_is_deleted y = true ->
  In y (requirements
          (db (snd (ensure_annual_requirement ANNUAL_CODE
                      end_of_next_financial_year self w)))).
Proof.
  intros Hn Hy Hdel.
  unfold ensure_annual_requirement, get_standard_requirement, bind, get_db, lift.
  cbv beta iota.
  destruct (follow ap_id _ _) as [a|]; [|exact Hy].
  destruct (attr a ap_start_date) as [start|]; [|exact Hy].
  destruct (end_of_next_financial_year start) as [eofy|]; [|exact Hy].
  destruct (replace_month eofy 10) as [october|]; [|exact Hy].
  destruct (replace_day october 31) as [due|]; [|exact Hy].
  destruct (get_one _) as [annual|]; [|exact Hy].
  set (matching := fun r : ProposalRequirement => _).
  destruct (get_or_create_requirement_cases matching
              (new_requirement (id self) (sr_id annual)) w)
    as [(r & Hf & ->)|[(Hf & [(r & w' & Hi & ->)|(e & ->)])|(e & ->)]];
    try exact Hy.
  - (* the requirement was there *)
    destruct (Dates.add_relativedelta eofy _) as [reminder|]; [|exact Hy].
    match goal with
    | |- context [save_fetched_requirement ?x w] =>
        destruct (save_fetched_requirement_cases x w) as [(e & ->)|(r' & Hid & ->)]
    end; [exact Hy|].
    cbn [snd db]. rewrite requirements_set.
    apply save_row_keeps; [exact Hy|]. rewrite Hid. clear Hid.
    cbn [fst req_id set_req_recurrence_schedule set_req_recurrence_pattern
         set_req_recurrence set_req_reminder_date set_req_due_date].
    intros E.
    assert (Hr : In r (filter matching (requirements (db w))))
      by (rewrite Hf; now left).
    apply filter_In in Hr as [Hr Hm].
    rewrite (row_by_id _ _ _ Hn Hy Hr E) in Hdel.
    unfold matching in Hm. rewrite Hdel, andb_false_r in Hm. discriminate.
  - (* the requirement was created *)
    apply insert_requirement_row in Hi as (Hl & Hnew & _).
    assert (Hy' : In y (requirements (db w'))).
    { rewrite Hl. apply in_or_app. now left. }
    destruct (Dates.add_relativedelta eofy _) as [reminder|]; [|exact Hy'].
    match goal with
    | |- context [save_fetched_requirement ?x w'] =>
        destruct (save_fetched_requirement_cases x w') as [(e & ->)|(r' & Hid & ->)]
    end; [exact Hy'|].
    cbn [snd db]. rewrite requirements_set.
    apply save_row_keeps; [exact Hy'|]. rewrite Hid. clear Hid.
    cbn [fst req_id set_req_recurrence_schedule set_req_recurrence_pattern
         set_req_recurrence set_req_reminder_date set_req_due_date].
    pose proof (next_id_above (requirement_ids w) (req_id y)
                  (in_map req_id _ _ Hy)) as Hlt.
    lia.
Qed.

(** Charged in advance: the monthly and quarterly gross-turnover
    requirements are soft-deleted with no filter on the proposal, so those of
    every proposal in the table are, and they stay so however the call ends;
    the proposal being edited is not told apart. *)
Theorem advance_deletes_across_proposals (self : Proposal) (w : World)
    (i : InvoicingDetails) :
  ADVANCE <> ARREARS ->
  NoDup (requirement_ids w) ->
  follow idt_id (invoicing_details_rows (db w)) (invoicing_details self)
  = Ok (Some i) ->
  idt_charge_method i = Some ADVANCE ->
  let w' :=
    snd (update_gross_turnover_requirements ADVANCE ARREARS QUARTERLY MONTHLY
           ANNUAL_CODE QUARTERLY_CODE MONTHLY_CODE end_of_next_financial_year
           self w) in
  forall x,
    In x (requirements (db w)) ->
    standard_code_in [MONTHLY_CODE; QUARTERLY_CODE] (db w) x = true ->
    In (set_req_is_deleted x true) (requirements (db w')).
Proof.
  intros Hne Hn Hi Hkey w' x Hx Hcode. unfold w'. clear w'.
  set (selected := standard_code_in [MONTHLY_CODE; QUARTERLY_CODE]).
  set (w1 := mkWorld
               (set_requirements (db w)
                  (map (fun r => if selected (db w) r
                                 then set_req_is_deleted r true else r)
                       (requirements (db w))))
               (outbox w)).
  assert (E : update_gross_turnover_requirements ADVANCE ARREARS QUARTERLY
                MONTHLY ANNUAL_CODE QUARTERLY_CODE MONTHLY_CODE
                end_of_next_financial_year self w
              = ensure_annual_requirement ANNUAL_CODE end_of_next_financial_year
                  self w1).
  { unfold update_gross_turnover_requirements, bind, get_db, lift.
    rewrite Hi. cbn [attr]. rewrite Hkey. cbn [attr existsb].
    rewrite String.eqb_refl. cbn [orb negb].
    apply String.eqb_neq in Hne. rewrite Hne.
    unfold soft_delete, modify_db, ret. reflexivity. }
  rewrite E. apply ensure_annual_keeps_deleted.
  - unfold requirement_ids, w1. cbn [db]. rewrite requirements_set, map_map.
    erewrite map_ext; [exact Hn|]. intros r. now destruct (selected (db w) r).
  - unfold w1. cbn [db]. rewrite requirements_set.
    apply in_map_iff. exists x. split; [|exact Hx].
    unfold selected. now rewrite Hcode.
  - reflexivity.
Qed.

End Advance.

(** Witness of [advance_deletes_across_proposals]: editing proposal 9 to be
    charged in advance soft-deletes the monthly requirement of proposal 10. *)
Lemma advance_deletes_across_proposals_witness :
  In (set_req_is_deleted TurnoverScenario.monthly_of_10 true)
     (requirements
        (db (snd (TurnoverScenario.update (TurnoverScenario.proposal 9 3 40)
                    (TurnoverScenario.world "advance" "quarterly"))))).
Proof.
  assert (Hne : "advance" <> "arrears") by discriminate.
  assert (Hn : NoDup (requirement_ids (TurnoverScenario.world "advance" "quarterly"))).
  { repeat constructor; cbn; [intros [H|[]]; discriminate | intros []]. }
  apply (advance_deletes_across_proposals "advance" "arrears" "quarterly"
           "monthly" "gross_turnover_annually" "gross_turnover_quarterly"
           "gross_turnover_monthly" TurnoverScenario.end_of_june
           (TurnoverScenario.proposal 9 3 40)
           (TurnoverScenario.world "advance" "quarterly")
           (mkInvoicingDetails 40 (Some "advance") (Some "quarterly") (Some 3))
           Hne Hn eq_refl eq_refl).
  - now left.
  - reflexivity.
Defined.

End AdvanceFacts.

(** ** Gross-turnover requirements: switching the repetition type *)

Module SwitchFacts.
Import Proposals MonadFacts AdvanceFacts.

(** *** Rows and keys *)

Lemma split_by_id (l : list ProposalRequirement) (r : ProposalRequirement) :
  NoDup (map req_id l) -> In r l ->
  exists l1 l2, l = l1 ++ r :: l2
                /\ ~ In (req_id r) (map req_id l1)
                /\ ~ In (req_id r) (map req_id l2).
Proof.
  intros Hn Hr. destruct (in_split _ _ Hr) as (l1 & l2 & ->).
  exists l1, l2. split; [reflexivity|].
  rewrite map_app in Hn. cbn [map] in Hn.
  apply NoDup_remove_2 in Hn. split; intros H; apply Hn, in_or_app; auto.
Qed.

Lemma map_unless (x : ProposalRequirement) (l : list ProposalRequirement) :
  ~ In (req_id x) (map req_id l) ->
  map (fun y => if req_id y =? req_id x then x else y) l = l.
Proof.
  intros H. rewrite <- (map_id l) at 2. apply map_ext_in. intros y Hy.
  destruct (req_id y =? req_id x) eqn:E; [|reflexivity].
  exfalso. apply H. apply Z.eqb_eq in E. rewrite <- E. now apply in_map.
Qed.

Lemma save_row_split (l1 l2 : list ProposalRequirement)
    (r x : ProposalRequirement) :
  req_id x = req_id r ->
  ~ In (req_id r) (map req_id l1) -> ~ In (req_id r) (map req_id l2) ->
  save_row req_id x (l1 ++ r :: l2) = l1 ++ x :: l2.
Proof.
  intros E H1 H2. unfold save_row.
  assert (Hex : existsb (fun y => req_id y =? req_id x) (l1 ++ r :: l2) = true).
  { apply existsb_exists. exists r. split; [apply in_or_app; right; now left|].
    rewrite E. apply Z.eqb_refl. }
  rewrite Hex, map_app. cbn [map]. rewrite E, Z.eqb_refl.
  rewrite <- E in H1, H2 |- *. now rewrite !map_unless.
Qed.

Lemma save_row_fresh (l : list ProposalRequirement) (x : ProposalRequirement) :
  ~ In (req_id x) (map req_id l) -> save_row req_id x l = l ++ [x].
Proof.
  intros H. unfold save_row.
  destruct (existsb _ l) eqn:E; [|reflexivity].
  apply existsb_exists in E as (y & Hy & Ey). exfalso. apply H.
  apply Z.eqb_eq in Ey. rewrite <- Ey. now apply in_map.
Qed.

Lemma filter_singleton_split (P : ProposalRequirement -> bool)
    (l1 l2 : list ProposalRequirement) (r x : ProposalRequirement) :
  filter P (l1 ++ r :: l2) = [x] -> P r = true ->
  x = r /\ filter P l1 = [] /\ filter P l2 = [].
Proof.
  rewrite filter_app. cbn [filter]. intros H Hr. rewrite Hr in H.
  destruct (filter P l1) as [|a [|b t]]; cbn [app] in H.
  - inversion H. auto.
  - inversion H.
  - inversion H.
Qed.

Lemma filter_none_split (P : ProposalRequirement -> bool)
    (l1 l2 : list ProposalRequirement) (r : ProposalRequirement) :
  filter P (l1 ++ r :: l2) = [] ->
  P r = false /\ filter P l1 = [] /\ filter P l2 = [].
Proof.
  rewrite filter_app. cbn [filter]. intros H.
  destruct (filter P l1); [|discriminate]. cbn [app] in H.
  destruct (P r); [discriminate|]. auto.
Qed.

(** *** The steps *)

Lemma frame_db (w w' : World) :
  same_but_requirements w w' ->
  db w' = set_requirements (db w) (requirements (db w')).
Proof.
  intros [H _]. destruct (db w), (db w'). cbn in *. now inversion H.
Qed.

Lemma save_fetched_present (r : ProposalRequirement) (w : World) :
  req_id r <> 0 -> truthy_obj (req_standard_requirement r) = true ->
  save_fetched_requirement r w
  = (Ok tt,
     mkWorld (set_requirements (db w)
                (save_row req_id r (requirements (db w))))
             (outbox w)).
Proof.
  intros Hid Hsr. unfold save_fetched_requirement, bind, get_db. cbv zeta.
  apply Z.eqb_neq in Hid. rewrite Hid, Hsr, andb_false_r. reflexivity.
Qed.

Lemma soft_delete_again (selected : DB -> ProposalRequirement -> bool)
    (w : World) :
  (forall r, In r (requirements (db w)) -> selected (db w) r = true ->
             req_is_deleted r = true) ->
  soft_delete selected w = (Ok tt, w).
Proof.
  intros H. unfold soft_delete, modify_db. f_equal.
  destruct w as [d out]. cbn [db outbox] in *. f_equal.
  assert (E : map (fun r => if selected d r then set_req_is_deleted r true else r)
                  (requirements d) = requirements d).
  { rewrite <- (map_id (requirements d)) at 2. apply map_ext_in. intros r Hr.
    destruct (selected d r) eqn:Es; [|reflexivity].
    specialize (H r Hr Es). destruct r. cbn in H. now subst. }
  rewrite E. now destruct d.
Qed.

Lemma world_eta (w : World) :
  mkWorld (set_requirements (db w) (requirements (db w))) (outbox w) = w.
Proof. destruct w as [d out]. now destruct d. Qed.

Lemma insert_requirement_world (fresh r : ProposalRequirement) (w w' : World) :
  insert_requirement fresh w = (Ok r, w') ->
  w' = mkWorld (set_requirements (db w) (requirements (db w) ++ [r])) (outbox w).
Proof.
  unfold insert_requirement, bind, get_db. cbv zeta.
  destruct (negb _ && negb _); [discriminate|].
  unfold modify_db, ret. intros H. now inversion H.
Qed.

Lemma get_one_Ok {A : Type} (l : list A) (x : A) : get_one l = Ok x -> l = [x].
Proof. destruct l as [|a [|b t]]; cbn; intros H; now inversion H. Qed.

Lemma get_standard_requirement_Ok (code : string)
    (m : ProposalStandardRequirement) (w w1 : World) :
  get_standard_requirement code w = (Ok m, w1) ->
  w1 = w
  /\ filter (fun x => String.eqb (sr_code x) code) (standard_requirements (db w))
     = [m].
Proof.
  unfold get_standard_requirement, bind, get_db, lift. intros H.
  injection H as Hg Hw. split; [now symmetry|]. apply get_one_Ok. exact Hg.
Qed.

Lemma get_standard_requirement_found (code : string)
    (m : ProposalStandardRequirement) (w : World) :
  filter (fun x => String.eqb (sr_code x) code) (standard_requirements (db w))
  = [m] ->
  get_standard_requirement code w = (Ok m, w).
Proof.
  intros H. unfold get_standard_requirement, bind, get_db, lift. now rewrite H.
Qed.

Lemma standard_found (code : string) (m : ProposalStandardRequirement)
    (l : list ProposalStandardRequirement) :
  filter (fun x => String.eqb (sr_code x) code) l = [m] ->
  In m l /\ sr_code m = code.
Proof.
  intros H. assert (Hm : In m (filter (fun x => String.eqb (sr_code x) code) l))
    by (rewrite H; now left).
  apply filter_In in Hm as [Hm Hc]. split; [exact Hm|]. now apply String.eqb_eq.
Qed.

(** With unique keys, the code of a requirement is the code of its standard
    requirement. *)
Lemma coded_as (codes : list string) (d : DB) (m : ProposalStandardRequirement)
    (r : ProposalRequirement) :
  NoDup (map sr_id (standard_requirements d)) ->
  In m (standard_requirements d) ->
  req_standard_requirement r = Some (sr_id m) ->
  standard_code_in codes d r = existsb (String.eqb (sr_code m)) codes.
Proof.
  intros Hn Hm Hr. unfold standard_code_in. rewrite Hr.
  destruct (existsb (String.eqb (sr_code m)) codes) eqn:E.
  - apply existsb_exists. exists m. split; [exact Hm|].
    now rewrite Z.eqb_refl, E.
  - destruct (existsb _ (standard_requirements d)) eqn:E'; [|reflexivity].
    apply existsb_exists in E' as (x & Hx & Hc).
    apply andb_prop in Hc as [Hid Hc]. apply Z.eqb_eq in Hid.
    assert (x = m).
    { revert Hn Hx Hm Hid. generalize (standard_requirements d).
      induction l as [|y l IH]; cbn [map In]; intros Hn Hx Hm Hid; [contradiction|].
      inversion Hn as [|? ? Hnotin Hn']; subst.
      destruct Hx as [<-|Hx], Hm as [<-|Hm]; auto.
      - exfalso. apply Hnotin. rewrite Hid. now apply in_map.
      - exfalso. apply Hnotin. rewrite <- Hid. now apply in_map. }
    subst x. congruence.
Qed.

Lemma well_keyed_rewrite (w : World) (l : list ProposalRequirement) :
  well_keyed w -> map req_id l = requirement_ids w ->
  well_keyed (mkWorld (set_requirements (db w) l) (outbox w)).
Proof.
  intros (Hn & H0 & Hs) E. unfold well_keyed, requirement_ids.
  cbn [db]. rewrite requirements_set, E.
  repeat split; auto; destruct (db w); assumption.
Qed.

Lemma well_keyed_append (w : World) (r : ProposalRequirement) :
  well_keyed w -> req_id r = next_id (requirement_ids w) ->
  well_keyed (mkWorld (set_requirements (db w) (requirements (db w) ++ [r]))
                      (outbox w)).
Proof.
  intros (Hn & H0 & Hs) E. unfold well_keyed, requirement_ids.
  cbn [db]. rewrite requirements_set, map_app. cbn [map]. rewrite E.
  repeat split.
  - now apply NoDup_snoc_next.
  - intros H. apply in_app_or in H as [H|[H|[]]]; [now apply H0|].
    unfold next_id in H.
    assert (0 <= fold_right Z.max 0 (requirement_ids w)).
    { generalize (requirement_ids w). induction l; cbn [fold_right]; lia. }
    unfold requirement_ids in *. lia.
  - now destruct (db w).
Qed.

Section Switch.

Variables ANNUAL_CODE : string.
Variable end_of_next_financial_year : option Dates.date -> result Dates.date.

(** What [ensure_requirement] leaves when it returns: one requirement of the
    proposal for the code, not deleted; it was there, and is rewritten in
    place, or it is new, at the end of the table. *)
Lemma ensure_requirement_post (self : Proposal) (code : string) (w w2 : World) :
  well_keyed w ->
  ensure_requirement self code w = (Ok tt, w2) ->
  exists m r,
    filter (fun x => String.eqb (sr_code x) code) (standard_requirements (db w))
    = [m]
    /\ well_keyed w2
    /\ req_proposal r = id self
    /\ req_standard_requirement r = Some (sr_id m)
    /\ req_is_deleted r = false
    /\ filter (fun r => (req_proposal r =? id self) && standard_is (sr_id m) r)
              (requirements (db w2)) = [r]
    /\ ((exists l1 r0 l2,
            requirements (db w) = l1 ++ r0 :: l2
            /\ w2 = mkWorld (set_requirements (db w) (l1 ++ r :: l2)) (outbox w)
            /\ r = set_req_is_deleted r0 false)
        \/ w2 = mkWorld (set_requirements (db w) (requirements (db w) ++ [r]))
                        (outbox w)).
Proof.
  intros Hwf H. unfold ensure_requirement in H.
  apply bind_Ok in H as (m & w1 & Hm & H).
  apply get_standard_requirement_Ok in Hm as [-> Hm].
  apply bind_Ok in H as ([r c] & w1 & Hg & H). cbn [fst snd] in H.
  set (P := fun r : ProposalRequirement =>
              (req_proposal r =? id self) && standard_is (sr_id m) r) in *.
  destruct (get_or_create_requirement_cases P
              (new_requirement (id self) (sr_id m)) w)
    as [(r0 & Hf & E)|[(Hf & [(r1 & w' & Hi & E)|(e & E)])|(e & E)]];
    rewrite E in Hg; inversion Hg; subst; clear Hg.
  - (* found *)
    cbn [negb] in H.
    assert (Hin : In r (filter P (requirements (db w1))))
      by (rewrite Hf; now left).
    apply filter_In in Hin as [Hin HP].
    pose proof HP as HP'. unfold P in HP'. apply andb_prop in HP' as [Hp Hs].
    apply Z.eqb_eq in Hp. unfold standard_is in Hs.
    destruct (req_standard_requirement r) as [s|] eqn:Es; [|discriminate].
    apply Z.eqb_eq in Hs. subst s.
    destruct Hwf as (Hn & H0 & Hsn).
    assert (Hid : req_id r <> 0).
    { intros E0. apply H0. rewrite <- E0. now apply in_map. }
    rewrite save_fetched_present in H;
      [|exact Hid | cbn [req_standard_requirement set_req_is_deleted]; now rewrite Es].
    inversion H as [Hw2]. clear H.
    destruct (split_by_id _ r Hn Hin) as (l1 & l2 & Hl & Hn1 & Hn2).
    rewrite Hl in Hf.
    destruct (filter_singleton_split P l1 l2 r r Hf HP) as (_ & Hf1 & Hf2).
    assert (Hsave : save_row req_id (set_req_is_deleted r false)
                      (requirements (db w1))
                    = l1 ++ set_req_is_deleted r false :: l2).
    { rewrite Hl. now apply save_row_split. }
    rewrite Hsave.
    exists m, (set_req_is_deleted r false).
    split; [exact Hm|]. split.
    { apply well_keyed_rewrite; [repeat split; assumption|].
      unfold requirement_ids. rewrite Hl, !map_app. reflexivity. }
    split; [exact Hp|]. split; [exact Es|]. split; [reflexivity|]. split.
    { fold P. cbn [db]. rewrite requirements_set, filter_app. cbn [filter].
      rewrite Hf1, Hf2.
      assert (HP2 : P (set_req_is_deleted r false) = true) by exact HP.
      now rewrite HP2. }
    left. exists l1, r, l2. repeat split. exact Hl.
  - (* created *)
    cbn [negb] in H. unfold ret in H. inversion H; subst; clear H.
    pose proof (insert_requirement_world _ _ _ _ Hi) as Hw.
    apply insert_requirement_row in Hi as (Hl & Hid & Hdel & Hp & Hs).
    exists m, r. split; [exact Hm|]. split.
    { rewrite Hw. now apply well_keyed_append. }
    split; [exact Hp|]. split; [exact Hs|]. split; [exact Hdel|]. split.
    { fold P. rewrite Hl, filter_app, Hf. cbn [filter app].
      assert (HP : P r = true).
      { unfold P, standard_is. rewrite Hp, Hs.
        cbn [req_proposal req_standard_requirement new_requirement].
        now rewrite !Z.eqb_refl. }
      now rewrite HP. }
    right. exact Hw.
Qed.

(** Once the requirement is there and not deleted, ensuring it again
    changes nothing. *)
Lemma ensure_requirement_again (self : Proposal) (code : string) (w : World)
    (m : ProposalStandardRequirement) (r : ProposalRequirement) :
  well_keyed w ->
  filter (fun x => String.eqb (sr_code x) code) (standard_requirements (db w))
  = [m] ->
  filter (fun r => (req_proposal r =? id self) && standard_is (sr_id m) r)
         (requirements (db w)) = [r] ->
  req_is_deleted r = false ->
  ensure_requirement self code w = (Ok tt, w).
Proof.
  intros (Hn & H0 & Hsn) Hm Hf Hdel.
  assert (Hin : In r (filter (fun r => (req_proposal r =? id self)
                                       && standard_is (sr_id m) r)
                             (requirements (db w))))
    by (rewrite Hf; now left).
  apply filter_In in Hin as [Hin HP].
  apply andb_prop in HP as [_ Hs]. unfold standard_is in Hs.
  destruct (req_standard_requirement r) as [s|] eqn:Es; [|discriminate].
  unfold ensure_requirement, bind.
  rewrite (get_standard_requirement_found code m w Hm).
  unfold get_or_create_requirement, bind, get_db. rewrite Hf.
  cbn [get_one]. unfold ret. cbn [snd fst negb].
  assert (E : set_req_is_deleted r false = r)
    by (destruct r; cbn in Hdel; now subst).
  rewrite E, save_fetched_present.
  - destruct (split_by_id _ r Hn Hin) as (l1 & l2 & Hl & Hn1 & Hn2).
    rewrite Hl at 1. rewrite save_row_split by auto. rewrite <- Hl.
    now rewrite world_eta.
  - intros E0. apply H0. rewrite <- E0. now apply in_map.
  - now rewrite Es.
Qed.

Lemma set_requirements_twice (d : DB) (l l' : list ProposalRequirement) :
  set_requirements (set_requirements d l) l' = set_requirements d l'.
Proof. now destruct d. Qed.

Lemma with_annual_fields_twice (r : ProposalRequirement) (due rem : Dates.date) :
  with_annual_fields (with_annual_fields r due rem) due rem
  = with_annual_fields r due rem.
Proof. now destruct r. Qed.

(** Once the annual requirement is there with its fields set, the last block
    changes nothing. *)
Lemma ensure_annual_again (self : Proposal) (w : World) (ap : option Approval)
    (start : option Dates.date) (eofy october due rem : Dates.date)
    (a : ProposalStandardRequirement) (r : ProposalRequirement) :
  well_keyed w ->
  follow ap_id (approvals (db w)) (approval self) = Ok ap ->
  attr ap ap_start_date = Ok start ->
  end_of_next_financial_year start = Ok eofy ->
  replace_month eofy 10 = Ok october ->
  replace_day october 31 = Ok due ->
  filter (fun x => String.eqb (sr_code x) ANNUAL_CODE)
         (standard_requirements (db w)) = [a] ->
  Dates.add_relativedelta eofy (Dates.rd_days_kw 1) = Ok rem ->
  filter (fun r => (req_proposal r =? id self) && standard_is (sr_id a) r
                   && negb (req_is_deleted r))
         (requirements (db w)) = [r] ->
  with_annual_fields r due rem = r ->
  ensure_annual_requirement ANNUAL_CODE end_of_next_financial_year self w
  = (Ok tt, w).
Proof.
  intros (Hn & H0 & Hsn) Hap Hstart He Ho Hd Ha Hrem Hf Hr.
  assert (Hin : In r (filter (fun r => (req_proposal r =? id self)
                                       && standard_is (sr_id a) r
                                       && negb (req_is_deleted r))
                             (requirements (db w))))
    by (rewrite Hf; now left).
  apply filter_In in Hin as [Hin HP].
  apply andb_prop in HP as [HP _]. apply andb_prop in HP as [_ Hs].
  unfold standard_is in Hs.
  destruct (req_standard_requirement r) as [s|] eqn:Es; [|discriminate].
  unfold ensure_annual_requirement, bind, get_db, lift.
  rewrite Hap, Hstart, He, Ho, Hd.
  rewrite (get_standard_requirement_found ANNUAL_CODE a w Ha).
  unfold get_or_create_requirement, bind, get_db. rewrite Hf.
  cbn [get_one]. unfold ret. rewrite Hrem. cbn [fst].
  fold (with_annual_fields r due rem). rewrite Hr, save_fetched_present.
  - destruct (split_by_id _ r Hn Hin) as (l1 & l2 & Hl & Hn1 & Hn2).
    rewrite Hl at 1. rewrite save_row_split by auto. rewrite <- Hl.
    now rewrite world_eta.
  - intros E0. apply H0. rewrite <- E0. now apply in_map.
  - now rewrite Es.
Qed.

(** What the last block leaves when it returns: the annual requirement of
    the proposal, not deleted, with its fields set; it was there, and is
    rewritten in place, or it is new, at the end of the table.  Running the
    block again changes nothing. *)
Lemma ensure_annual_post (self : Proposal) (w w' : World) :
  well_keyed w ->
  ensure_annual_requirement ANNUAL_CODE end_of_next_financial_year self w
  = (Ok tt, w') ->
  exists a r,
    filter (fun x => String.eqb (sr_code x) ANNUAL_CODE)
           (standard_requirements (db w)) = [a]
    /\ well_keyed w'
    /\ req_proposal r = id self
    /\ req_standard_requirement r = Some (sr_id a)
    /\ req_is_deleted r = false
    /\ ((exists l1 r0 l2,
            requirements (db w) = l1 ++ r0 :: l2
            /\ w' = mkWorld (set_requirements (db w) (l1 ++ r :: l2)) (outbox w)
            /\ req_proposal r0 = id self
            /\ req_standard_requirement r0 = Some (sr_id a)
            /\ req_is_deleted r0 = false)
        \/ (w' = mkWorld (set_requirements (db w) (requirements (db w) ++ [r]))
                         (outbox w)
            /\ filter (fun r => (req_proposal r =? id self)
                                && standard_is (sr_id a) r
                                && negb (req_is_deleted r))
                      (requirements (db w)) = []))
    /\ ensure_annual_requirement ANNUAL_CODE end_of_next_financial_year self w'
       = (Ok tt, w').
Proof.
  intros Hwf H. unfold ensure_annual_requirement in H.
  step H d w1 Hd. apply get_db_Ok in Hd as [-> ->].
  step H apv w1 Hap. apply lift_Ok in Hap as [Hap ->].
  step H start w1 Hstart. apply lift_Ok in Hstart as [Hstart ->].
  step H eofy w1 He. apply lift_Ok in He as [He ->].
  step H october w1 Ho. apply lift_Ok in Ho as [Ho ->].
  step H due w1 Hdue. apply lift_Ok in Hdue as [Hdue ->].
  step H a w1 Ha. apply get_standard_requirement_Ok in Ha as [-> Ha].
  step H rc w1 Hg. destruct rc as [r0 c].
  step H rmd w2 Hrem. apply lift_Ok in Hrem as [Hrem ->].
  cbn [fst] in H. fold (with_annual_fields r0 due rmd) in H.
  set (P := fun r : ProposalRequirement =>
              (req_proposal r =? id self) && standard_is (sr_id a) r
              && negb (req_is_deleted r)) in *.
  assert (HP_fields : forall x, P (with_annual_fields x due rmd) = P x)
    by (intros x; now destruct x).
  assert (Hkey : forall x, P x = true ->
            req_proposal x = id self
            /\ req_standard_requirement x = Some (sr_id a)
            /\ req_is_deleted x = false).
  { intros x Hx. unfold P in Hx. apply andb_prop in Hx as [Hx Hdel].
    apply andb_prop in Hx as [Hp Hs]. apply Z.eqb_eq in Hp.
    unfold standard_is in Hs.
    destruct (req_standard_requirement x) as [s|]; [|discriminate].
    apply Z.eqb_eq in Hs. subst s.
    destruct (req_is_deleted x); [discriminate|]. auto. }
  assert (Hlook : forall w0,
            approvals (db w0) = approvals (db w) ->
            standard_requirements (db w0) = standard_requirements (db w) ->
            well_keyed w0 ->
            filter P (requirements (db w0)) = [with_annual_fields r0 due rmd] ->
            ensure_annual_requirement ANNUAL_CODE end_of_next_financial_year
              self w0 = (Ok tt, w0)).
  { intros w0 Eap Esr Hwf0 Hf0.
    apply (ensure_annual_again self w0 apv start eofy october due rmd a
             (with_annual_fields r0 due rmd)); auto;
      try (now rewrite Eap); try (now rewrite Esr);
      apply with_annual_fields_twice. }
  destruct (get_or_create_requirement_cases P
              (new_requirement (id self) (sr_id a)) w)
    as [(r1 & Hf & E)|[(Hf & [(r1 & wi & Hi & E)|(e & E)])|(e & E)]];
    rewrite E in Hg; try discriminate;
    injection Hg as ? ? ?; subst r0 c w1.
  - (* found *)
    assert (Hin : In r1 (filter P (requirements (db w))))
      by (rewrite Hf; now left).
    apply filter_In in Hin as [Hin HP].
    destruct (Hkey r1 HP) as (Hp & Hs & Hdel).
    pose proof Hwf as (Hn & H0 & Hsn).
    assert (Hid : req_id r1 <> 0).
    { intros E0. apply H0. rewrite <- E0. now apply in_map. }
    rewrite save_fetched_present in H;
      [|destruct r1; exact Hid | destruct r1; cbn in Hs |- *; now rewrite Hs].
    injection H as Hw'.
    destruct (split_by_id _ r1 Hn Hin) as (l1 & l2 & Hl & Hn1 & Hn2).
    rewrite Hl in Hf.
    destruct (filter_singleton_split P l1 l2 r1 r1 Hf HP) as (_ & Hf1 & Hf2).
    assert (Hsave : save_row req_id (with_annual_fields r1 due rmd)
                      (requirements (db w))
                    = l1 ++ with_annual_fields r1 due rmd :: l2).
    { rewrite Hl. apply save_row_split; auto; now destruct r1. }
    rewrite Hsave in Hw'.
    assert (Hwf' : well_keyed w').
    { rewrite <- Hw'. apply well_keyed_rewrite; [exact Hwf|].
      unfold requirement_ids. rewrite Hl, !map_app. cbn [map].
      now destruct r1. }
    exists a, (with_annual_fields r1 due rmd).
    split; [exact Ha|]. split; [exact Hwf'|].
    split; [now destruct r1|]. split; [now destruct r1|].
    split; [now destruct r1|]. split.
    { left. exists l1, r1, l2. repeat split; auto. }
    apply Hlook; auto.
    + rewrite <- Hw'. cbn [db]. now destruct (db w).
    + rewrite <- Hw'. cbn [db]. now destruct (db w).
    + rewrite <- Hw'. cbn [db]. rewrite requirements_set, filter_app.
      cbn [filter]. now rewrite Hf1, Hf2, HP_fields, HP.
  - (* created *)
    pose proof (insert_requirement_world _ _ _ _ Hi) as Hw.
    apply insert_requirement_row in Hi as (Hl & Hid & Hdel & Hp & Hs).
    pose proof Hwf as (Hn & H0 & Hsn).
    assert (Hwf1 : well_keyed wi) by (rewrite Hw; now apply well_keyed_append).
    assert (Hfresh : ~ In (req_id r1) (map req_id (requirements (db w)))).
    { intros Hin. apply next_id_above in Hin.
      unfold requirement_ids in Hid. lia. }
    assert (Hid0 : req_id r1 <> 0).
    { destruct Hwf1 as (_ & H01 & _). intros E0. apply H01.
      unfold requirement_ids. rewrite Hl, map_app, <- E0.
      apply in_or_app. right. now left. }
    rewrite save_fetched_present in H;
      [|destruct r1; exact Hid0 | destruct r1; cbn in Hs |- *; now rewrite Hs].
    injection H as Hw'.
    assert (Hsave : save_row req_id (with_annual_fields r1 due rmd)
                      (requirements (db wi))
                    = requirements (db w) ++ [with_annual_fields r1 due rmd]).
    { rewrite Hl. apply save_row_split; auto; now destruct r1. }
    rewrite Hsave, Hw in Hw'. cbn [db outbox] in Hw'.
    rewrite set_requirements_twice in Hw'.
    assert (Hwf' : well_keyed w').
    { rewrite <- Hw'. apply well_keyed_append; [exact Hwf|]. now destruct r1. }
    exists a, (with_annual_fields r1 due rmd).
    split; [exact Ha|]. split; [exact Hwf'|].
    split; [now destruct r1|]. split; [now destruct r1|].
    split; [now destruct r1|]. split.
    { right. split; [now symmetry | exact Hf]. }
    apply Hlook; auto.
    + rewrite <- Hw'. cbn [db]. now destruct (db w).
    + rewrite <- Hw'. cbn [db]. now destruct (db w).
    + rewrite <- Hw'. cbn [db]. rewrite requirements_set, filter_app, Hf.
      cbn [filter app].
      assert (HP : P r1 = true).
      { unfold P, standard_is. rewrite Hp, Hs, Hdel.
        cbn [req_proposal req_standard_requirement req_is_deleted
             new_requirement negb].
        now rewrite !Z.eqb_refl. }
      now rewrite HP_fields, HP.
Qed.

End Switch.

(** *** Filters that are settled *)

Section Settled.

Variable selected : DB -> ProposalRequirement -> bool.
Hypothesis selected_frame :
  forall d l r, selected (set_requirements d l) r = selected d r.

Lemma soft_delete_settles (w : World) :
  settled selected
    (mkWorld (set_requirements (db w)
                (map (fun r => if selected (db w) r
                               then set_req_is_deleted r true else r)
                     (requirements (db w))))
             (outbox w)).
Proof.
  intros r. cbn [db]. rewrite requirements_set, selected_frame.
  intros Hr Hs. apply in_map_iff in Hr as (r0 & <- & Hr0).
  destruct (selected (db w) r0) eqn:E; [reflexivity|]. congruence.
Qed.

Lemma settled_replace (w : World) (l1 l2 : list ProposalRequirement)
    (r0 r : ProposalRequirement) :
  requirements (db w) = l1 ++ r0 :: l2 ->
  settled selected w -> selected (db w) r = false ->
  settled selected (mkWorld (set_requirements (db w) (l1 ++ r :: l2)) (outbox w)).
Proof.
  intros Hl Hs Hr x. cbn [db]. rewrite requirements_set, selected_frame.
  intros Hx Hsel. apply in_app_or in Hx as [Hx|[<-|Hx]].
  - apply Hs; [rewrite Hl; apply in_or_app; now left | exact Hsel].
  - congruence.
  - apply Hs; [rewrite Hl; apply in_or_app; right; now right | exact Hsel].
Qed.

Lemma settled_append (w : World) (r : ProposalRequirement) :
  settled selected w -> selected (db w) r = false ->
  settled selected
    (mkWorld (set_requirements (db w) (requirements (db w) ++ [r])) (outbox w)).
Proof.
  intros Hs Hr x. cbn [db]. rewrite requirements_set, selected_frame.
  intros Hx Hsel. apply in_app_or in Hx as [Hx|[<-|[]]].
  - now apply Hs.
  - congruence.
Qed.

End Settled.

(** *** The branches *)

Lemma coded_other (codes : list string) (code : string) (w : World)
    (m : ProposalStandardRequirement) (r : ProposalRequirement) :
  well_keyed w ->
  filter (fun x => String.eqb (sr_code x) code) (standard_requirements (db w))
  = [m] ->
  req_standard_requirement r = Some (sr_id m) ->
  existsb (String.eqb code) codes = false ->
  standard_code_in codes (db w) r = false.
Proof.
  intros (_ & _ & Hsn) Hm Hr Hc. apply standard_found in Hm as [Hin Hcode].
  rewrite (coded_as codes (db w) m r Hsn Hin Hr). now rewrite Hcode.
Qed.

Lemma filter_replace_stable (P : ProposalRequirement -> bool)
    (l1 l2 : list ProposalRequirement) (r0 r x : ProposalRequirement) :
  P r = P r0 ->
  filter P (l1 ++ r0 :: l2) = [x] ->
  exists x', filter P (l1 ++ r :: l2) = [x'] /\ (x' = x \/ x' = r).
Proof.
  intros E H. rewrite filter_app in *. cbn [filter] in *. rewrite E.
  destruct (P r0).
  - destruct (filter P l1) as [|a [|b t]]; cbn [app] in *.
    + inversion H. exists r. split; [reflexivity | now right].
    + inversion H.
    + inversion H.
  - exists x. split; [exact H | now left].
Qed.

Section Branches.

Variables ANNUAL_CODE : string.
Variable end_of_next_financial_year : option Dates.date -> result Dates.date.

#[local] Abbreviation ensure_annual :=
  (ensure_annual_requirement ANNUAL_CODE end_of_next_financial_year).

#[local] Abbreviation of_code X cp :=
  (fun (d : DB) (r : ProposalRequirement) =>
     standard_code_in [X] d r && proposal_is cp r && negb (req_is_deleted r)).

(** The arrears branch for one repetition type ([X] is the code that goes,
    [Y] the code that is ensured), followed by the last block: what it
    leaves, and that each of its three steps then changes nothing. *)
Lemma arrears_switch (self : Proposal) (cp : option Proposal) (X Y : string)
    (w w2 w' : World) :
  X <> Y -> ANNUAL_CODE <> X -> well_keyed w ->
  ensure_requirement self Y (snd (soft_delete (of_code X cp) w)) = (Ok tt, w2) ->
  ensure_annual self w2 = (Ok tt, w') ->
  (soft_delete (of_code X cp) w' = (Ok tt, w')
   /\ ensure_requirement self Y w' = (Ok tt, w')
   /\ ensure_annual self w' = (Ok tt, w'))
  /\ set_requirements (db w') [] = set_requirements (db w) []
  /\ (forall x, In x (requirements (db w)) ->
                standard_code_in [X] (db w) x = true ->
                proposal_is cp x = true ->
                In (set_req_is_deleted x true) (requirements (db w')))
  /\ exists m r,
       filter (fun x => String.eqb (sr_code x) Y) (standard_requirements (db w))
       = [m]
       /\ filter (fun r => (req_proposal r =? id self)
                           && standard_is (sr_id m) r)
                 (requirements (db w')) = [r]
       /\ req_is_deleted r = false.
Proof.
  intros HXY HAX Hwf He1 He2.
  set (sel := of_code X cp) in *.
  assert (Hframe : forall d l r, sel (set_requirements d l) r = sel d r)
    by reflexivity.
  set (f := fun r => if sel (db w) r then set_req_is_deleted r true else r).
  set (w1 := mkWorld (set_requirements (db w) (map f (requirements (db w))))
                     (outbox w)).
  change (snd (soft_delete sel w)) with w1 in He1.
  assert (Hwf1 : well_keyed w1).
  { apply well_keyed_rewrite; [exact Hwf|]. unfold requirement_ids.
    rewrite map_map. apply map_ext. intros r. unfold f.
    now destruct (sel (db w) r). }
  assert (S1 : settled sel w1) by apply (soft_delete_settles sel Hframe w).
  destruct (ensure_requirement_post self Y w1 w2 Hwf1 He1)
    as (m & rm & Hm & Hwf2 & Hpm & Hsm & Hdm & Hfm & Hshape).
  assert (HY : existsb (String.eqb Y) [X] = false).
  { cbn [existsb]. rewrite orb_false_r. apply String.eqb_neq. congruence. }
  assert (HA : existsb (String.eqb ANNUAL_CODE) [X] = false).
  { cbn [existsb]. rewrite orb_false_r. now apply String.eqb_neq. }
  assert (Hsel_m : sel (db w1) rm = false).
  { unfold sel. now rewrite (coded_other [X] Y w1 m rm Hwf1 Hm Hsm HY). }
  assert (S2 : settled sel w2).
  { destruct Hshape as [(l1 & r0 & l2 & Hl & -> & _)| ->].
    - now apply (settled_replace sel Hframe w1 l1 l2 r0 rm).
    - now apply (settled_append sel Hframe w1 rm). }
  assert (Hdb2 : standard_requirements (db w2) = standard_requirements (db w1)
                 /\ set_requirements (db w2) [] = set_requirements (db w1) []).
  { destruct Hshape as [(l1 & r0 & l2 & Hl & -> & _)| ->];
      cbn [db]; split; now destruct (db w1). }
  destruct Hdb2 as [Hsr2 Hdb2].
  destruct (ensure_annual_post ANNUAL_CODE end_of_next_financial_year
              self w2 w' Hwf2 He2)
    as (a & ra & Ha & Hwf' & Hpa & Hsa & Hda & Hshape' & Hagain).
  assert (Hsel_a : sel (db w2) ra = false).
  { unfold sel. now rewrite (coded_other [X] ANNUAL_CODE w2 a ra Hwf2 Ha Hsa HA). }
  assert (S' : settled sel w').
  { destruct Hshape' as [(l1 & r0 & l2 & Hl & -> & _)|[-> _]].
    - now apply (settled_replace sel Hframe w2 l1 l2 r0 ra).
    - now apply (settled_append sel Hframe w2 ra). }
  assert (Hdb' : standard_requirements (db w') = standard_requirements (db w2)
                 /\ set_requirements (db w') [] = set_requirements (db w2) []).
  { destruct Hshape' as [(l1 & r0 & l2 & Hl & -> & _)|[-> _]];
      cbn [db]; split; now destruct (db w2). }
  destruct Hdb' as [Hsr' Hdb'].
  assert (Hsr1 : standard_requirements (db w1) = standard_requirements (db w))
    by (unfold w1; cbn [db]; now destruct (db w)).
  assert (Hdb1 : set_requirements (db w1) [] = set_requirements (db w) [])
    by (unfold w1; cbn [db]; now destruct (db w)).
  (* the monthly (or quarterly) requirement after the last block *)
  assert (Hfm' : exists r, filter (fun r => (req_proposal r =? id self)
                                            && standard_is (sr_id m) r)
                                  (requirements (db w')) = [r]
                           /\ req_is_deleted r = false).
  { set (Pm := fun r : ProposalRequirement =>
                 (req_proposal r =? id self) && standard_is (sr_id m) r) in *.
    destruct Hshape' as [(l1 & r0 & l2 & Hl & -> & Hp0 & Hs0 & Hd0)|[-> Hnone]];
      cbn [db]; rewrite requirements_set.
    - assert (E : Pm ra = Pm r0).
      { unfold Pm, standard_is. now rewrite Hpa, Hsa, Hp0, Hs0. }
      rewrite Hl in Hfm.
      destruct (filter_replace_stable Pm l1 l2 r0 ra rm E Hfm)
        as (x' & Hx' & [->| ->]); eauto.
    - assert (E : Pm ra = false).
      { destruct (Pm ra) eqn:Era; [|reflexivity]. exfalso.
        unfold Pm, standard_is in Era. rewrite Hsa in Era.
        apply andb_prop in Era as [_ Eid]. apply Z.eqb_eq in Eid.
        assert (Hin : In rm (filter Pm (requirements (db w2))))
          by (rewrite Hfm; now left).
        apply filter_In in Hin as [Hin _].
        assert (Hin' : In rm (filter
                      (fun r => (req_proposal r =? id self)
                                && standard_is (sr_id a) r
                                && negb (req_is_deleted r))
                      (requirements (db w2)))).
        { apply filter_In. split; [exact Hin|].
          unfold standard_is. rewrite Hpm, Hsm, Hdm, Eid.
          now rewrite !Z.eqb_refl. }
        now rewrite Hnone in Hin'. }
      rewrite filter_app. cbn [filter]. rewrite E, app_nil_r. eauto. }
  destruct Hfm' as (r' & Hfr' & Hdr').
  split; [split; [|split]|split; [|split]].
  - now apply soft_delete_again.
  - apply (ensure_requirement_again self Y w' m r'); auto.
    now rewrite Hsr', Hsr2.
  - exact Hagain.
  - now rewrite Hdb', Hdb2, Hdb1.
  - intros x Hx Hcode Hcp.
    set (y := set_req_is_deleted x true).
    assert (Hy1 : In y (requirements (db w1))).
    { unfold w1. cbn [db]. rewrite requirements_set. apply in_map_iff.
      exists x. split; [|exact Hx]. unfold f, sel. rewrite Hcode, Hcp.
      cbn [andb]. unfold y.
      destruct (req_is_deleted x) eqn:Ed; cbn [negb]; [|reflexivity].
      destruct x. cbn in Ed. now subst. }
    assert (Hy2 : In y (requirements (db w2))).
    { destruct Hshape as [(l1 & r0 & l2 & Hl & -> & Hrm)| ->];
        cbn [db]; rewrite requirements_set.
      - rewrite Hl in Hy1. apply in_app_or in Hy1 as [H|[H|H]].
        + apply in_or_app. now left.
        + exfalso. subst r0.
          assert (Hsx : req_standard_requirement x = Some (sr_id m)).
          { rewrite <- Hsm, Hrm. unfold y. now destruct x. }
          assert (Hc : standard_code_in [X] (db w1) x = false)
            by exact (coded_other [X] Y w1 m x Hwf1 Hm Hsx HY).
          assert (Hc' : standard_code_in [X] (db w1) x
                        = standard_code_in [X] (db w) x) by reflexivity.
          congruence.
        + apply in_or_app. right. now right.
      - apply in_or_app. now left. }
    pose proof (ensure_annual_keeps_deleted ANNUAL_CODE
                  end_of_next_financial_year self w2 y
                  (proj1 Hwf2) Hy2 eq_refl) as Hy'.
    now rewrite He2 in Hy'.
  - exists m, r'. rewrite <- Hsr1. auto.
Qed.

End Branches.

(** *** The whole update *)

Lemma frame_tables (w w' : World) :
  set_requirements (db w') [] = set_requirements (db w) [] ->
  invoicing_details_rows (db w') = invoicing_details_rows (db w)
  /\ approvals (db w') = approvals (db w)
  /\ proposals (db w') = proposals (db w)
  /\ standard_requirements (db w') = standard_requirements (db w).
Proof.
  destruct (db w), (db w'). cbn. intros H. inversion H. auto.
Qed.

Lemma frame_rewritten (w : World) (l : list ProposalRequirement) :
  set_requirements (db (mkWorld (set_requirements (db w) l) (outbox w))) []
  = set_requirements (db w) [].
Proof. cbn [db]. now destruct (db w). Qed.

Section Update.

Variables ADVANCE ARREARS QUARTERLY MONTHLY : string.
Variables ANNUAL_CODE QUARTERLY_CODE MONTHLY_CODE : string.
Variable end_of_next_financial_year : option Dates.date -> result Dates.date.

#[local] Abbreviation update :=
  (update_gross_turnover_requirements ADVANCE ARREARS QUARTERLY MONTHLY
     ANNUAL_CODE QUARTERLY_CODE MONTHLY_CODE end_of_next_financial_year).

#[local] Abbreviation ensure_annual :=
  (ensure_annual_requirement ANNUAL_CODE end_of_next_financial_year).

#[local] Abbreviation of_code X cp :=
  (fun (d : DB) (r : ProposalRequirement) =>
     standard_code_in [X] d r && proposal_is cp r && negb (req_is_deleted r)).

#[local] Abbreviation gross_turnover_of cp :=
  (fun (d : DB) (r : ProposalRequirement) =>
     gross_turnover_required d r && proposal_is cp r).

Lemma update_lookups (self : Proposal) (w w' : World) :
  update self w = (Ok tt, w') ->
  exists i key,
    follow idt_id (invoicing_details_rows (db w)) (invoicing_details self)
    = Ok (Some i)
    /\ idt_charge_method i = Some key.
Proof.
  unfold update_gross_turnover_requirements, bind, get_db, lift.
  destruct (follow idt_id _ _) as [[i|]|] eqn:E1; cbn [attr]; try discriminate.
  destruct (idt_charge_method i) as [key|] eqn:E2; cbn [attr]; try discriminate.
  intros _. exists i, key. split; [reflexivity | exact E2].
Qed.

Lemma current_proposal_of_Ok (i : InvoicingDetails) (cp : option Proposal)
    (w w1 : World) :
  current_proposal_of i w = (Ok cp, w1) ->
  w1 = w
  /\ forall w0, approvals (db w0) = approvals (db w) ->
                proposals (db w0) = proposals (db w) ->
                current_proposal_of i w0 = (Ok cp, w0).
Proof.
  unfold current_proposal_of, bind, get_db, lift.
  destruct (follow ap_id _ _) as [apv|] eqn:E1; [|discriminate].
  destruct (attr apv ap_current_proposal) as [cur|] eqn:E2; [|discriminate].
  destruct (follow id _ _) as [p|] eqn:E3; [|discriminate].
  intros H. injection H as <- <-. split; [reflexivity|].
  intros w0 Ea Ep. now rewrite Ea, E1, E2, Ep, E3.
Qed.

Section Lookups.

Variables (self : Proposal) (w : World) (i : InvoicingDetails) (key : string).
Hypothesis Hi :
  follow idt_id (invoicing_details_rows (db w)) (invoicing_details self)
  = Ok (Some i).
Hypothesis Hkey : idt_charge_method i = Some key.

Lemma update_other_method :
  existsb (String.eqb key) [ADVANCE; ARREARS] = false ->
  update self w
  = (current_proposal <- current_proposal_of i ;;
     soft_delete (gross_turnover_of current_proposal)) w.
Proof.
  intros E. unfold update_gross_turnover_requirements, bind at 1 2 3 4,
    get_db, lift.
  rewrite Hi. cbn [attr]. rewrite Hkey. cbn [attr]. now rewrite E.
Qed.

Lemma update_advance :
  key = ADVANCE -> ADVANCE <> ARREARS ->
  update self w
  = ensure_annual self
      (snd (soft_delete (standard_code_in [MONTHLY_CODE; QUARTERLY_CODE]) w)).
Proof.
  intros -> Hne. unfold update_gross_turnover_requirements, bind, get_db, lift.
  rewrite Hi. cbn [attr]. rewrite Hkey. cbn [attr existsb].
  rewrite String.eqb_refl. cbn [orb negb].
  apply String.eqb_neq in Hne. rewrite Hne.
  unfold soft_delete, modify_db, ret. reflexivity.
Qed.

Lemma update_arrears :
  key = ARREARS -> ADVANCE <> ARREARS ->
  update self w
  = match idt_invoicing_repetition_type i with
    | None => (Raise AttributeError, w)
    | Some repetition_type =>
        if String.eqb repetition_type QUARTERLY then
          ((current_proposal <- current_proposal_of i ;;
            soft_delete (of_code MONTHLY_CODE current_proposal) ;;;
            ensure_requirement self QUARTERLY_CODE) ;;;
           ensure_annual self) w
        else if String.eqb repetition_type MONTHLY then
          ((current_proposal <- current_proposal_of i ;;
            soft_delete (of_code QUARTERLY_CODE current_proposal) ;;;
            ensure_requirement self MONTHLY_CODE) ;;;
           ensure_annual self) w
        else ensure_annual self w
    end.
Proof.
  intros -> Hne.
  unfold update_gross_turnover_requirements, bind at 1 2 3 4, get_db, lift.
  rewrite Hi. cbn [attr]. rewrite Hkey. cbn [attr existsb].
  rewrite String.eqb_refl, orb_true_r. cbn [orb negb].
  assert (E : String.eqb ARREARS ADVANCE = false).
  { apply String.eqb_neq. congruence. }
  rewrite E. unfold bind at 1 2. unfold ret at 1.
  destruct (idt_invoicing_repetition_type i) as [rep|]; cbn [attr].
  - unfold bind. cbv beta iota.
    destruct (String.eqb rep QUARTERLY); [reflexivity|].
    destruct (String.eqb rep MONTHLY); reflexivity.
  - reflexivity.
Qed.

End Lookups.

(** The arrears branch for one repetition type, from the lookup of the
    current proposal to the last block. *)
Lemma arrears_run (self : Proposal) (i : InvoicingDetails) (X Y : string)
    (w w' : World) :
  X <> Y -> ANNUAL_CODE <> X -> well_keyed w ->
  ((current_proposal <- current_proposal_of i ;;
    soft_delete (of_code X current_proposal) ;;;
    ensure_requirement self Y) ;;;
   ensure_annual self) w = (Ok tt, w') ->
  exists cp,
    current_proposal_of i w = (Ok cp, w)
    /\ ((current_proposal <- current_proposal_of i ;;
         soft_delete (of_code X current_proposal) ;;;
         ensure_requirement self Y) ;;;
        ensure_annual self) w' = (Ok tt, w')
    /\ set_requirements (db w') [] = set_requirements (db w) []
    /\ (forall x, In x (requirements (db w)) ->
                  standard_code_in [X] (db w) x = true ->
                  proposal_is cp x = true ->
                  In (set_req_is_deleted x true) (requirements (db w')))
    /\ exists m r,
         filter (fun x => String.eqb (sr_code x) Y) (standard_requirements (db w))
         = [m]
         /\ filter (fun r => (req_proposal r =? id self)
                             && standard_is (sr_id m) r)
                   (requirements (db w')) = [r]
         /\ req_is_deleted r = false.
Proof.
  intros HXY HAX Hwf H.
  step H u w2 H1. step H1 cp w0 Hcp.
  pose proof Hcp as Hcp0.
  apply current_proposal_of_Ok in Hcp as [-> Hcp].
  step H1 u1 w1 Hsd. destruct u, u1.
  assert (Ew1 : w1 = snd (soft_delete (of_code X cp) w)) by now rewrite Hsd.
  subst w1.
  destruct (arrears_switch ANNUAL_CODE end_of_next_financial_year self cp X Y
              w w2 w' HXY HAX Hwf H1 H)
    as ((A1 & A2 & A3) & Hfr & Hdel & Hone).
  exists cp. split; [exact Hcp0|]. split; [|auto].
  destruct (frame_tables w w' Hfr) as (_ & Ea & Ep & _).
  unfold bind. rewrite (Hcp w' Ea Ep), A1, A2. exact A3.
Qed.

(** Running [update_gross_turnover_requirements] again, right after a run
    that returned, changes nothing: no requirement is created, deleted or
    rewritten the second time. *)
Theorem update_is_idempotent (self : Proposal) (w w' : World) :
  ADVANCE <> ARREARS ->
  ANNUAL_CODE <> QUARTERLY_CODE -> ANNUAL_CODE <> MONTHLY_CODE ->
  MONTHLY_CODE <> QUARTERLY_CODE ->
  well_keyed w ->
  update self w = (Ok tt, w') ->
  update self w' = (Ok tt, w').
Proof.
  intros Hne HAQ HAM HMQ Hwf H.
  destruct (update_lookups self w w' H) as (i & key & Hi & Hk).
  destruct (existsb (String.eqb key) [ADVANCE; ARREARS]) eqn:Ein.
  2: { (* another charge method *)
    rewrite (update_other_method self w i key Hi Hk Ein) in H.
    step H cp w1 Hcp. apply current_proposal_of_Ok in Hcp as [-> Hcp].
    unfold soft_delete, modify_db in H. injection H as Hw'.
    assert (Hfr : set_requirements (db w') [] = set_requirements (db w) [])
      by (rewrite <- Hw'; apply frame_rewritten).
    destruct (frame_tables w w' Hfr) as (Ei & Ea & Ep & Es).
    rewrite (update_other_method self w' i key);
      [|now rewrite Ei | exact Hk | exact Ein].
    unfold bind. rewrite (Hcp w' Ea Ep).
    apply soft_delete_again. rewrite <- Hw'.
    now apply (soft_delete_settles (gross_turnover_of cp)). }
  cbn [existsb] in Ein. rewrite orb_false_r in Ein.
  destruct (String.eqb key ADVANCE) eqn:Ea.
  - (* in advance *)
    apply String.eqb_eq in Ea.
    rewrite (update_advance self w i key Hi Hk Ea Hne) in H.
    set (sel := standard_code_in [MONTHLY_CODE; QUARTERLY_CODE]) in *.
    assert (Hframe : forall d l r, sel (set_requirements d l) r = sel d r)
      by reflexivity.
    set (w1 := snd (soft_delete sel w)) in *.
    assert (Hwf1 : well_keyed w1).
    { apply well_keyed_rewrite; [exact Hwf|]. unfold requirement_ids.
      rewrite map_map. apply map_ext. intros r.
      now destruct (sel (db w) r). }
    assert (S1 : settled sel w1) by apply (soft_delete_settles sel Hframe w).
    destruct (ensure_annual_post ANNUAL_CODE end_of_next_financial_year
                self w1 w' Hwf1 H)
      as (a & ra & Ha & Hwf' & Hpa & Hsa & Hda & Hshape & Hagain).
    assert (HA : existsb (String.eqb ANNUAL_CODE) [MONTHLY_CODE; QUARTERLY_CODE]
                 = false).
    { cbn [existsb]. rewrite orb_false_r.
      apply String.eqb_neq in HAQ, HAM. now rewrite HAQ, HAM. }
    assert (Hsel : sel (db w1) ra = false)
      by exact (coded_other _ ANNUAL_CODE w1 a ra Hwf1 Ha Hsa HA).
    assert (S' : settled sel w').
    { destruct Hshape as [(l1 & r0 & l2 & Hl & -> & _)|[-> _]].
      - now apply (settled_replace sel Hframe w1 l1 l2 r0 ra).
      - now apply (settled_append sel Hframe w1 ra). }
    assert (Hfr : set_requirements (db w') [] = set_requirements (db w) []).
    { destruct Hshape as [(l1 & r0 & l2 & Hl & -> & _)|[-> _]];
        rewrite frame_rewritten; apply frame_rewritten. }
    destruct (frame_tables w w' Hfr) as (Ei & _).
    rewrite (update_advance self w' i key); [|now rewrite Ei|exact Hk|exact Ea|exact Hne].
    fold sel. rewrite (soft_delete_again sel w' S'). exact Hagain.
  - (* in arrears *)
    cbn [orb] in Ein. apply String.eqb_eq in Ein.
    rewrite (update_arrears self w i key Hi Hk Ein Hne) in H.
    destruct (idt_invoicing_repetition_type i) as [rep|] eqn:Erep; [|discriminate].
    destruct (String.eqb rep QUARTERLY) eqn:Eq;
      [|destruct (String.eqb rep MONTHLY) eqn:Em].
    + destruct (arrears_run self i MONTHLY_CODE QUARTERLY_CODE w w'
                  HMQ HAM Hwf H) as (cp & _ & Hrun & Hfr & _).
      destruct (frame_tables w w' Hfr) as (Ei & _).
      rewrite (update_arrears self w' i key);
        [|now rewrite Ei|exact Hk|exact Ein|exact Hne].
      now rewrite Erep, Eq.
    + assert (HQM : QUARTERLY_CODE <> MONTHLY_CODE) by congruence.
      destruct (arrears_run self i QUARTERLY_CODE MONTHLY_CODE w w'
                  HQM HAQ Hwf H) as (cp & _ & Hrun & Hfr & _).
      destruct (frame_tables w w' Hfr) as (Ei & _).
      rewrite (update_arrears self w' i key);
        [|now rewrite Ei|exact Hk|exact Ein|exact Hne].
      now rewrite Erep, Eq, Em.
    + destruct (ensure_annual_post ANNUAL_CODE end_of_next_financial_year
                  self w w' Hwf H)
        as (a & ra & Ha & Hwf' & Hpa & Hsa & Hda & Hshape & Hagain).
      assert (Hfr : set_requirements (db w') [] = set_requirements (db w) []).
      { destruct Hshape as [(l1 & r0 & l2 & Hl & -> & _)|[-> _]];
          apply frame_rewritten. }
      destruct (frame_tables w w' Hfr) as (Ei & _).
      rewrite (update_arrears self w' i key);
        [|now rewrite Ei|exact Hk|exact Ein|exact Hne].
      now rewrite Erep, Eq, Em.
Qed.

(** Switching an approval charged in arrears to monthly invoicing: when the
    update returns, every quarterly gross-turnover requirement of the
    approval's current proposal is soft-deleted (the row is still there), and
    the proposal has exactly one requirement for the monthly standard
    requirement, which is not deleted. *)
Theorem switch_to_monthly (self : Proposal) (i : InvoicingDetails)
    (cp : option Proposal) (w w' : World) :
  ADVANCE <> ARREARS -> QUARTERLY <> MONTHLY ->
  ANNUAL_CODE <> QUARTERLY_CODE -> MONTHLY_CODE <> QUARTERLY_CODE ->
  well_keyed w ->
  follow idt_id (invoicing_details_rows (db w)) (invoicing_details self)
  = Ok (Some i) ->
  idt_charge_method i = Some ARREARS ->
  idt_invoicing_repetition_type i = Some MONTHLY ->
  current_proposal_of i w = (Ok cp, w) ->
  update self w = (Ok tt, w') ->
  (forall x, In x (requirements (db w)) ->
             standard_code_in [QUARTERLY_CODE] (db w) x = true ->
             proposal_is cp x = true ->
             In (set_req_is_deleted x true) (requirements (db w')))
  /\ exists m r,
       filter (fun x => String.eqb (sr_code x) MONTHLY_CODE)
              (standard_requirements (db w)) = [m]
       /\ filter (fun r => (req_proposal r =? id self)
                           && standard_is (sr_id m) r)
                 (requirements (db w')) = [r]
       /\ req_is_deleted r = false.
Proof.
  intros Hne Hrep HAQ HMQ Hwf Hi Hk Hr Hcp H.
  rewrite (update_arrears self w i ARREARS Hi Hk eq_refl Hne), Hr in H.
  assert (E : String.eqb MONTHLY QUARTERLY = false).
  { apply String.eqb_neq. congruence. }
  rewrite E, String.eqb_refl in H.
  assert (HQM : QUARTERLY_CODE <> MONTHLY_CODE) by congruence.
  destruct (arrears_run self i QUARTERLY_CODE MONTHLY_CODE w w' HQM HAQ Hwf H)
    as (cp' & Hcp' & _ & _ & Hdel & Hone).
  rewrite Hcp in Hcp'. injection Hcp' as <-. auto.
Qed.

End Update.

(** Witness of [update_is_idempotent]: proposal 9 switched to monthly
    invoicing in arrears, twice. *)
Lemma update_is_idempotent_witness :
  update_gross_turnover_requirements "advance" "arrears" "quarterly" "monthly"
       "gross_turnover_annually" "gross_turnover_quarterly"
       "gross_turnover_monthly" TurnoverScenario.end_of_june
       (TurnoverScenario.proposal 9 3 40)
    (snd (update_gross_turnover_requirements "advance" "arrears" "quarterly" "monthly"
       "gross_turnover_annually" "gross_turnover_quarterly"
       "gross_turnover_monthly" TurnoverScenario.end_of_june
       (TurnoverScenario.proposal 9 3 40)
            (TurnoverScenario.world "arrears" "monthly")))
  = (Ok tt,
     snd (update_gross_turnover_requirements "advance" "arrears" "quarterly" "monthly"
       "gross_turnover_annually" "gross_turnover_quarterly"
       "gross_turnover_monthly" TurnoverScenario.end_of_june
       (TurnoverScenario.proposal 9 3 40)
            (TurnoverScenario.world "arrears" "monthly"))).
Proof.
  assert (H1 : "advance" <> "arrears") by discriminate.
  assert (H2 : "gross_turnover_annually" <> "gross_turnover_quarterly")
    by discriminate.
  assert (H3 : "gross_turnover_annually" <> "gross_turnover_monthly")
    by discriminate.
  assert (H4 : "gross_turnover_monthly" <> "gross_turnover_quarterly")
    by discriminate.
  assert (Hwf : well_keyed (TurnoverScenario.world "arrears" "monthly")).
  { repeat split.
    - repeat constructor; cbn; intuition discriminate.
    - cbn. intuition discriminate.
    - repeat constructor; cbn; intuition discriminate. }
  assert (Hrun : update_gross_turnover_requirements "advance" "arrears" "quarterly" "monthly"
       "gross_turnover_annually" "gross_turnover_quarterly"
       "gross_turnover_monthly" TurnoverScenario.end_of_june
       (TurnoverScenario.proposal 9 3 40)
                   (TurnoverScenario.world "arrears" "monthly")
                 = (Ok tt,
                    snd (update_gross_turnover_requirements "advance" "arrears" "quarterly" "monthly"
       "gross_turnover_annually" "gross_turnover_quarterly"
       "gross_turnover_monthly" TurnoverScenario.end_of_june
       (TurnoverScenario.proposal 9 3 40)
                           (TurnoverScenario.world "arrears" "monthly"))))
    by (vm_compute; reflexivity).
  exact (update_is_idempotent "advance" "arrears" "quarterly" "monthly"
           "gross_turnover_annually" "gross_turnover_quarterly"
           "gross_turnover_monthly" TurnoverScenario.end_of_june
           (TurnoverScenario.proposal 9 3 40)
           (TurnoverScenario.world "arrears" "monthly") _
           H1 H2 H3 H4 Hwf Hrun).
Defined.

(** Witness of [switch_to_monthly]: the quarterly requirement of proposal 9
    is soft-deleted. *)
Lemma switch_to_monthly_witness :
  In (set_req_is_deleted TurnoverScenario.quarterly_of_9 true)
     (requirements
        (db (snd (update_gross_turnover_requirements "advance" "arrears" "quarterly" "monthly"
       "gross_turnover_annually" "gross_turnover_quarterly"
       "gross_turnover_monthly" TurnoverScenario.end_of_june
       (TurnoverScenario.proposal 9 3 40)
                    (TurnoverScenario.world "arrears" "monthly"))))).
Proof.
  assert (H1 : "advance" <> "arrears") by discriminate.
  assert (H2 : "quarterly" <> "monthly") by discriminate.
  assert (H3 : "gross_turnover_annually" <> "gross_turnover_quarterly")
    by discriminate.
  assert (H4 : "gross_turnover_monthly" <> "gross_turnover_quarterly")
    by discriminate.
  assert (Hwf : well_keyed (TurnoverScenario.world "arrears" "monthly")).
  { repeat split.
    - repeat constructor; cbn; intuition discriminate.
    - cbn. intuition discriminate.
    - repeat constructor; cbn; intuition discriminate. }
  assert (Hrun : update_gross_turnover_requirements "advance" "arrears" "quarterly" "monthly"
       "gross_turnover_annually" "gross_turnover_quarterly"
       "gross_turnover_monthly" TurnoverScenario.end_of_june
       (TurnoverScenario.proposal 9 3 40)
                   (TurnoverScenario.world "arrears" "monthly")
                 = (Ok tt,
                    snd (update_gross_turnover_requirements "advance" "arrears" "quarterly" "monthly"
       "gross_turnover_annually" "gross_turnover_quarterly"
       "gross_turnover_monthly" TurnoverScenario.end_of_june
       (TurnoverScenario.proposal 9 3 40)
                           (TurnoverScenario.world "arrears" "monthly"))))
    by (vm_compute; reflexivity).
  assert (Hi : follow idt_id
                 (invoicing_details_rows (db (TurnoverScenario.world "arrears" "monthly")))
                 (invoicing_details (TurnoverScenario.proposal 9 3 40))
               = Ok (Some (mkInvoicingDetails 40 (Some "arrears")
                             (Some "monthly") (Some 3))))
    by (vm_compute; reflexivity).
  assert (Hcp : current_proposal_of
                  (mkInvoicingDetails 40 (Some "arrears") (Some "monthly")
                     (Some 3))
                  (TurnoverScenario.world "arrears" "monthly")
                = (Ok (Some (TurnoverScenario.proposal 9 3 40)),
                   TurnoverScenario.world "arrears" "monthly"))
    by (vm_compute; reflexivity).
  assert (Hin : In TurnoverScenario.quarterly_of_9
                  (requirements (db (TurnoverScenario.world "arrears" "monthly"))))
    by (right; now left).
  assert (Hcode : standard_code_in ["gross_turnover_quarterly"]
                    (db (TurnoverScenario.world "arrears" "monthly"))
                    TurnoverScenario.quarterly_of_9 = true)
    by (vm_compute; reflexivity).
  assert (Hof : proposal_is (Some (TurnoverScenario.proposal 9 3 40))
                  TurnoverScenario.quarterly_of_9 = true)
    by (vm_compute; reflexivity).
  exact (proj1 (switch_to_monthly "advance" "arrears" "quarterly" "monthly"
                  "gross_turnover_annually" "gross_turnover_quarterly"
                  "gross_turnover_monthly" TurnoverScenario.end_of_june
                  (TurnoverScenario.proposal 9 3 40)
                  (mkInvoicingDetails 40 (Some "arrears") (Some "monthly") (Some 3))
                  (Some (TurnoverScenario.proposal 9 3 40))
                  (TurnoverScenario.world "arrears" "monthly") _
                  H1 H2 H3 H4 Hwf Hi eq_refl eq_refl Hcp Hrun)
               TurnoverScenario.quarterly_of_9 Hin Hcode Hof).
Defined.

End SwitchFacts.
